(** * finstatement: the statement extraction pipeline of [finstatement/parser.py]

    A shallow embedding of [StatementParser] and of the library functions
    it calls ([re.search], [re.finditer], [datetime.strptime], [float],
    [str.strip], ...), followed by the properties of the pipeline.

    Modelling conventions.
    - A text is a [string]: a sequence of code points below 256.  The
      predicates [\s], [\d] and case folding are those of Python's [str]
      patterns restricted to that range.
    - The confidence scores are binary64 numbers, the primitive floats
      of the prover, with the rounding of each operation; the conversion
      of a length to a float is the correctly rounded one.  The amounts
      read by [float] are modelled by the rational number they denote
      ([Q]).
    - [datetime.now()] is an explicit argument of every function that
      reads the clock: [now] during the extraction, [today] in the
      confidence scorer, which reads the clock again.
    - A raised [ValueError] is the [Raise] result of the [result] monad.
    - What PyPDF2 reads from a file is an explicit argument of the
      functions that take a path: the texts of the pages, or the failure
      to open the file or to extract a page. *)

From Stdlib Require Import String Ascii List ZArith QArith Bool Lia Sorted.
From Stdlib Require Import Permutation.
From Stdlib Require Import Floats.
Import ListNotations.

Set Implicit Arguments.
Set Warnings "-inexact-float".

(** * Characters and strings as Python sees them *)

Module Py.

Definition code (a : ascii) : N := N_of_ascii a.

Definition in_range (lo hi : N) (a : ascii) : bool :=
  ((lo <=? code a) && (code a <=? hi))%N.

(** [\d] on code points below 256: the ASCII digits. *)
Definition is_digit (a : ascii) : bool := in_range 48 57 a.

(** [\s] and [str.isspace] on code points below 256: TAB..CR, FS..US,
    SPACE, NEL and NBSP. *)
Definition is_space (a : ascii) : bool :=
  in_range 9 13 a || in_range 28 32 a || (code a =? 133)%N || (code a =? 160)%N.

(** [str.lower] on one code point below 256. *)
Definition lower (a : ascii) : ascii :=
  if in_range 65 90 a || (in_range 192 222 a && negb (code a =? 215)%N)
  then ascii_of_N (code a + 32) else a.

Definition chars (s : string) : list ascii := list_ascii_of_string s.
Definition str (l : list ascii) : string := string_of_list_ascii l.

Fixpoint lstrip (l : list ascii) : list ascii :=
  match l with
  | a :: l' => if is_space a then lstrip l' else l
  | [] => []
  end.

(** [s.strip()] *)
Definition strip (l : list ascii) : list ascii :=
  rev (lstrip (rev (lstrip l))).

(** [s.replace(c, '')] for a one-character [c]. *)
Definition remove_char (c : ascii) (l : list ascii) : list ascii :=
  filter (fun a => negb (Ascii.eqb a c)) l.

(** [s.startswith(c)] for a one-character [c]. *)
Definition startswith (c : ascii) (l : list ascii) : bool :=
  match l with
  | a :: _ => Ascii.eqb a c
  | [] => false
  end.

(** [c in s] for a one-character [c]. *)
Definition contains_char (c : ascii) (l : list ascii) : bool :=
  existsb (Ascii.eqb c) l.

(** [len(s.split(c))]: one more than the number of separators. *)
Definition split_len (c : ascii) (l : list ascii) : nat :=
  S (length (filter (Ascii.eqb c) l)).

Fixpoint is_prefix (p l : list ascii) : bool :=
  match p, l with
  | [], _ => true
  | a :: p', b :: l' => Ascii.eqb a b && is_prefix p' l'
  | _ :: _, [] => false
  end.

(** [p in s] for strings. *)
Fixpoint contains (p l : list ascii) : bool :=
  is_prefix p l ||
  match l with
  | [] => false
  | _ :: l' => contains p l'
  end.

(** [str(n)] for a non-negative integer: its decimal digits, the last
    one first, each put in front of those already written.  A number
    has at most one digit more than [fuel], its binary logarithm. *)
Fixpoint decimal (fuel : nat) (z : Z) (acc : list ascii) : list ascii :=
  let acc' := ascii_of_N (Z.to_N (48 + z mod 10)) :: acc in
  match fuel with
  | O => acc'
  | S fuel' => if (z <? 10)%Z then acc' else decimal fuel' (z / 10) acc'
  end.

Definition str_of_Z (z : Z) : list ascii :=
  decimal (Z.to_nat (Z.log2 z)) z [].

(** The float an integer becomes in a product with a float: the
    binary64 number nearest to it, ties to even. *)
Definition float_of_int (z : Z) : PrimFloat.float :=
  SF2Prim (binary_normalize prec emax z 0 false).

(** [min(a, b)] on floats: [b] when [b < a], else [a]. *)
Definition py_min (a b : PrimFloat.float) : PrimFloat.float :=
  if PrimFloat.ltb b a then b else a.

End Py.

(** * Regular expressions: the fragment of Python's [re] the parser uses *)

Module Re.

Import Py.

Inductive item : Type :=
| IChar (a : ascii)
| IRange (lo hi : ascii)
| IDigit
| ISpace.

Inductive regex : Type :=
| Eps
| Chr (a : ascii)
| Dot
| Cls (items : list item)
| Eol
| Cat (r1 r2 : regex)
| Alt (r1 r2 : regex)
| Grp (i : nat) (r : regex)
| Rep (greedy : bool) (lo : nat) (hi : option nat) (r : regex)
| Ahead (r : regex).

Record flags : Type := Flags { icase : bool; dotall : bool }.

(** ** Pattern syntax *)

Section Syntax.

Local Open Scope char_scope.

Definition digit_val (a : ascii) : nat := N.to_nat (code a - 48).

Fixpoint parse_nat (acc : nat) (p : list ascii) : nat * list ascii :=
  match p with
  | a :: p' => if is_digit a then parse_nat (10 * acc + digit_val a) p' else (acc, p)
  | [] => (acc, p)
  end.

Definition is_punct (a : ascii) : bool :=
  negb (in_range 48 57 a || in_range 65 90 a || in_range 97 122 a)
  && in_range 33 126 a.

(** The body of a character class, after the opening bracket.  A
    negated class is outside the fragment. *)
Fixpoint parse_class (acc : list item) (p : list ascii)
  : option (list item * list ascii) :=
  match p with
  | [] => None
  | "]" :: p' => match acc with [] => None | _ => Some (rev acc, p') end
  | "\" :: "s" :: p' => parse_class (ISpace :: acc) p'
  | "\" :: "d" :: p' => parse_class (IDigit :: acc) p'
  | "\" :: a :: p' => if is_punct a then parse_class (IChar a :: acc) p' else None
  | "\" :: [] => None
  | a :: "-" :: "]" :: p' =>
      match a, acc with
      | "^", [] => None
      | _, _ => Some (rev (IChar "-" :: IChar a :: acc), p')
      end
  | _ :: "-" :: "\" :: _ => None
  | a :: "-" :: b :: p' =>
      match a, acc with
      | "^", [] => None
      | _, _ =>
          if (code a <=? code b)%N then parse_class (IRange a b :: acc) p' else None
      end
  | a :: p' =>
      match a, acc with
      | "^", [] => None
      | _, _ => parse_class (IChar a :: acc) p'
      end
  end.

Fixpoint nullable (r : regex) : bool :=
  match r with
  | Eps | Eol | Ahead _ => true
  | Chr _ | Dot | Cls _ => false
  | Cat r1 r2 => nullable r1 && nullable r2
  | Alt r1 r2 => nullable r1 || nullable r2
  | Grp _ r' => nullable r'
  | Rep _ lo _ r' => (lo =? 0)%nat || nullable r'
  end.

Definition parse_lazy (p : list ascii) : bool * list ascii :=
  match p with
  | "?" :: p' => (false, p')
  | _ => (true, p)
  end.

Definition mk_rep (a : regex) (lo : nat) (hi : option nat) (p : list ascii)
  : option (regex * list ascii) :=
  if nullable a then None
  else let '(g, p') := parse_lazy p in Some (Rep g lo hi a, p').

(** The quantifier, if any, that follows the atom [a].  Repeating an
    atom that can match the empty string is outside the fragment. *)
Definition parse_quant (a : regex) (p : list ascii)
  : option (regex * list ascii) :=
  match p with
  | "?" :: p1 => mk_rep a 0 (Some 1%nat) p1
  | "*" :: p1 => mk_rep a 0 None p1
  | "+" :: p1 => mk_rep a 1 None p1
  | "{" :: d :: p1 =>
      if is_digit d then
        let '(n, p2) := parse_nat 0 (d :: p1) in
        match p2 with
        | "}" :: p3 => mk_rep a n (Some n) p3
        | "," :: "}" :: p3 => mk_rep a n None p3
        | "," :: e :: p3 =>
            if is_digit e then
              let '(h, p4) := parse_nat 0 (e :: p3) in
              match p4 with
              | "}" :: p5 => if (n <=? h)%nat then mk_rep a n (Some h) p5 else None
              | _ => None
              end
            else None
        | _ => None
        end
      else None
  | _ => Some (a, p)
  end.

Definition is_special (a : ascii) : bool :=
  existsb (Ascii.eqb a) ["*"; "+"; "?"; "{"; "}"; ")"; "|"; "^"].

(** Alternations, sequences and atoms.  [g] counts the capturing groups
    opened so far; [fuel] bounds the recursion depth. *)
Fixpoint parse_alt (fuel g : nat) (p : list ascii) {struct fuel}
  : option (regex * nat * list ascii) :=
  match fuel with
  | O => None
  | S f =>
      match parse_seq f g p with
      | Some (r1, g1, "|" :: p1) =>
          match parse_alt f g1 p1 with
          | Some (r2, g2, p2) => Some (Alt r1 r2, g2, p2)
          | None => None
          end
      | res => res
      end
  end
with parse_seq (fuel g : nat) (p : list ascii) {struct fuel}
  : option (regex * nat * list ascii) :=
  match fuel with
  | O => None
  | S f =>
      match p with
      | [] => Some (Eps, g, p)
      | "|" :: _ => Some (Eps, g, p)
      | ")" :: _ => Some (Eps, g, p)
      | _ =>
          match parse_atom f g p with
          | Some (a, g1, p1) =>
              match parse_quant a p1 with
              | Some (q, p2) =>
                  match parse_seq f g1 p2 with
                  | Some (r, g2, p3) => Some (Cat q r, g2, p3)
                  | None => None
                  end
              | None => None
              end
          | None => None
          end
      end
  end
with parse_atom (fuel g : nat) (p : list ascii) {struct fuel}
  : option (regex * nat * list ascii) :=
  match fuel with
  | O => None
  | S f =>
      match p with
      | "(" :: "?" :: ":" :: p1 =>
          match parse_alt f g p1 with
          | Some (r, g1, ")" :: p2) => Some (r, g1, p2)
          | _ => None
          end
      | "(" :: "?" :: "=" :: p1 =>
          match parse_alt f g p1 with
          | Some (r, g1, ")" :: p2) => Some (Ahead r, g1, p2)
          | _ => None
          end
      | "(" :: "?" :: _ => None
      | "(" :: p1 =>
          match parse_alt f (S g) p1 with
          | Some (r, g1, ")" :: p2) => Some (Grp (S g) r, g1, p2)
          | _ => None
          end
      | "[" :: p1 =>
          match parse_class [] p1 with
          | Some (items, p2) => Some (Cls items, g, p2)
          | None => None
          end
      | "\" :: "s" :: p1 => Some (Cls [ISpace], g, p1)
      | "\" :: "d" :: p1 => Some (Cls [IDigit], g, p1)
      | "\" :: a :: p1 => if is_punct a then Some (Chr a, g, p1) else None
      | "." :: p1 => Some (Dot, g, p1)
      | "$" :: p1 => Some (Eol, g, p1)
      | a :: p1 => if is_special a then None else Some (Chr a, g, p1)
      | [] => None
      end
  end.

(** A leading [(?i)] switches case-insensitive matching on for the whole
    pattern. *)
Definition split_flags (fl : flags) (p : list ascii) : flags * list ascii :=
  match p with
  | "(" :: "?" :: "i" :: ")" :: p' => (Flags true (dotall fl), p')
  | _ => (fl, p)
  end.

Record pattern : Type := Pattern { pat_flags : flags; pat_re : regex }.

(** [re.compile(p, flags)]; [None] when [p] is outside the fragment. *)
Definition compile_with (fl : flags) (p : string) : option pattern :=
  let '(fl', body) := split_flags fl (chars p) in
  match parse_alt (3 * length body + 3) 0 body with
  | Some (r, _, []) => Some (Pattern fl' r)
  | _ => None
  end.

Definition compile : string -> option pattern :=
  compile_with (Flags false false).

End Syntax.

(** ** Matching *)

Definition caps : Type := list (nat * list ascii).

Fixpoint group (c : caps) (i : nat) : option (list ascii) :=
  match c with
  | (j, v) :: c' => if (i =? j)%nat then Some v else group c' i
  | [] => None
  end.

Section Matching.

Variable fl : flags.

Definition chr_matches (a ch : ascii) : bool :=
  if icase fl then Ascii.eqb (lower a) (lower ch) else Ascii.eqb a ch.

(** Under [icase] a character is in a range when its lower-case form is
    the lower-case form of a member of the range. *)
Definition range_matches (lo hi ch : ascii) : bool :=
  if icase fl then
    let c := lower ch in
    let u := ascii_of_N (code c - 32) in
    in_range (code lo) (code hi) c
    || (in_range (code lo) (code hi) u && Ascii.eqb (lower u) c)
  else in_range (code lo) (code hi) ch.

Definition item_matches (ch : ascii) (it : item) : bool :=
  match it with
  | IChar a => chr_matches a ch
  | IRange lo hi => range_matches lo hi ch
  | IDigit => is_digit ch
  | ISpace => is_space ch
  end.

Definition newline : ascii := ascii_of_N 10.

(** The loop of a repetition: [step] matches the repeated atom once, [k]
    is what follows the repetition, [i] counts the iterations done and
    [fuel] those still allowed.  A greedy loop tries one more iteration
    before it tries to stop, a lazy one the other way round.  Every
    iteration has to consume something, as it does for the atoms of the
    fragment, none of which can match the empty string; so a loop
    without upper bound never has more iterations than there are
    characters left. *)
Section Repetition.

Variable R : Type.
Variable step : list ascii -> caps -> (list ascii -> caps -> option R) -> option R.
Variable k : list ascii -> caps -> option R.
Variable g : bool.
Variable lo : nat.

Fixpoint rep (fuel i : nat) (s : list ascii) (c : caps) {struct fuel}
  : option R :=
  match fuel with
  | O => if (lo <=? i)%nat then k s c else None
  | S fuel' =>
      if g then
        match step s c (fun s' c' =>
                 if (length s' <? length s)%nat
                 then rep fuel' (S i) s' c' else None) with
        | Some x => Some x
        | None => if (lo <=? i)%nat then k s c else None
        end
      else
        match (if (lo <=? i)%nat then k s c else None) with
        | Some x => Some x
        | None =>
            step s c (fun s' c' =>
              if (length s' <? length s)%nat
              then rep fuel' (S i) s' c' else None)
        end
  end.

End Repetition.

(** The backtracking matcher, in continuation-passing style: [k] is
    what remains to be matched after [r]; the first success in priority
    order is the result. *)
Fixpoint m (r : regex) (R : Type) (s : list ascii) (c : caps)
  (k : list ascii -> caps -> option R) {struct r} : option R :=
  match r with
  | Eps => k s c
  | Chr a =>
      match s with
      | ch :: s' => if chr_matches a ch then k s' c else None
      | [] => None
      end
  | Dot =>
      match s with
      | ch :: s' => if dotall fl || negb (Ascii.eqb ch newline) then k s' c else None
      | [] => None
      end
  | Cls items =>
      match s with
      | ch :: s' => if existsb (item_matches ch) items then k s' c else None
      | [] => None
      end
  | Eol =>
      match s with
      | [] => k s c
      | [ch] => if Ascii.eqb ch newline then k s c else None
      | _ => None
      end
  | Cat r1 r2 => m r1 s c (fun s' c' => m r2 s' c' k)
  | Alt r1 r2 =>
      match m r1 s c k with
      | Some x => Some x
      | None => m r2 s c k
      end
  | Grp i r' =>
      m r' s c (fun s' c' => k s' ((i, firstn (length s - length s') s) :: c'))
  | Rep g lo hi r' =>
      rep (m r' (R := R)) k g lo
        (match hi with Some h => h | None => length s end) O s c
  | Ahead r' =>
      match m r' s c (fun _ c' => Some c') with
      | Some c' => k s c'
      | None => None
      end
  end.

(** A successful match: where it starts and ends in the searched text,
    the text it covers ([group(0)]) and the captured groups. *)
Record rmatch : Type := RMatch {
  m_start : nat;
  m_end : nat;
  m_text : list ascii;
  m_caps : caps
}.

(** [group(i)] of a match, the empty string for a group that took no
    part in it. *)
Definition grp (x : rmatch) (i : nat) : list ascii :=
  match group (m_caps x) i with
  | Some v => v
  | None => []
  end.

(** One attempt at the suffix [s], which starts at offset [pos].  With
    [adv] set, an empty match is refused. *)
Definition match_here (adv : bool) (r : regex) (pos : nat) (s : list ascii)
  : option rmatch :=
  m r s [] (fun s' c =>
    let n := (length s - length s')%nat in
    if adv && (n =? 0)%nat then None
    else Some (RMatch pos (pos + n) (firstn n s) c)).

Fixpoint search_from (r : regex) (pos : nat) (s : list ascii) : option rmatch :=
  match match_here false r pos s with
  | Some x => Some x
  | None =>
      match s with
      | [] => None
      | _ :: s' => search_from r (S pos) s'
      end
  end.

(** [finditer]: [skip] characters of the previous match remain to be
    passed over before the next attempt.  After an empty match the same
    position is tried once more for a non-empty one. *)
Fixpoint finditer_from (r : regex) (pos skip : nat) (s : list ascii)
  : list rmatch :=
  match skip with
  | S n =>
      match s with
      | [] => []
      | _ :: s' => finditer_from r (S pos) n s'
      end
  | O =>
      match match_here false r pos s with
      | None =>
          match s with
          | [] => []
          | _ :: s' => finditer_from r (S pos) 0 s'
          end
      | Some x =>
          if (m_end x =? pos)%nat then
            match match_here true r pos s with
            | Some y =>
                x :: y ::
                match s with
                | [] => []
                | _ :: s' => finditer_from r (S pos) (m_end y - pos - 1) s'
                end
            | None =>
                x ::
                match s with
                | [] => []
                | _ :: s' => finditer_from r (S pos) 0 s'
                end
            end
          else
            x ::
            match s with
            | [] => []
            | _ :: s' => finditer_from r (S pos) (m_end x - pos - 1) s'
            end
      end
  end.

(** ** What a match means

    [den r s c s' c']: the expression [r] can consume a prefix of [s],
    leaving [s'] and turning the captures [c] into [c'].  The matcher
    returns only such matches ([m_sound]). *)

Fixpoint iter (P : list ascii -> caps -> list ascii -> caps -> Prop) (n : nat)
  (s : list ascii) (c : caps) (s' : list ascii) (c' : caps) : Prop :=
  match n with
  | O => s' = s /\ c' = c
  | S n' => exists s1 c1, P s c s1 c1 /\ iter P n' s1 c1 s' c'
  end.

Fixpoint den (r : regex) (s : list ascii) (c : caps) (s' : list ascii)
  (c' : caps) {struct r} : Prop :=
  match r with
  | Eps => s' = s /\ c' = c
  | Chr a => exists ch, s = ch :: s' /\ chr_matches a ch = true /\ c' = c
  | Dot =>
      exists ch, s = ch :: s'
        /\ (dotall fl || negb (Ascii.eqb ch newline)) = true /\ c' = c
  | Cls items =>
      exists ch, s = ch :: s' /\ existsb (item_matches ch) items = true /\ c' = c
  | Eol => (s = [] \/ s = [newline]) /\ s' = s /\ c' = c
  | Cat r1 r2 => exists s1 c1, den r1 s c s1 c1 /\ den r2 s1 c1 s' c'
  | Alt r1 r2 => den r1 s c s' c' \/ den r2 s c s' c'
  | Grp i r' =>
      exists c1, den r' s c s' c1
        /\ c' = (i, firstn (length s - length s') s) :: c1
  | Rep _ lo hi r' =>
      exists n, (lo <= n)%nat
        /\ match hi with Some h => (n <= h)%nat | None => True end
        /\ iter (den r') n s c s' c'
  | Ahead r' => exists s1, den r' s c s1 c' /\ s' = s
  end.

(** The least number of characters a match of [r] consumes. *)
Fixpoint minlen (r : regex) : nat :=
  match r with
  | Eps | Eol | Ahead _ => 0
  | Chr _ | Dot | Cls _ => 1
  | Cat r1 r2 => minlen r1 + minlen r2
  | Alt r1 r2 => Nat.min (minlen r1) (minlen r2)
  | Grp _ r' => minlen r'
  | Rep _ lo _ r' => lo * minlen r'
  end.

(** [x] is a match of [r] somewhere in a text: it covers [m_text x],
    from offset [m_start x] to offset [m_end x]. *)
Definition matched (r : regex) (x : rmatch) : Prop :=
  exists s s',
    den r s [] s' (m_caps x)
    /\ s = m_text x ++ s'
    /\ m_end x = (m_start x + length (m_text x))%nat.

(** The match [x] lies in the text [s], whose first character has
    offset [base]. *)
Definition located (base : nat) (s : list ascii) (x : rmatch) : Prop :=
  exists pre post,
    s = pre ++ m_text x ++ post /\ m_start x = (base + length pre)%nat.

(** What [finditer] yields: matches of [r], each where the text has it,
    none starting before the previous one ends. *)
Definition yields (r : regex) (pos skip : nat) (s : list ascii)
  (l : list rmatch) : Prop :=
  Forall (fun x => matched r x /\ located pos s x
                   /\ (pos + skip <= m_start x)%nat) l
  /\ StronglySorted (fun x y => (m_end x <= m_start y)%nat) l.

End Matching.

(** The last capturing group of a sequence, when the sequence ends
    with one. *)
Fixpoint last_group (r : regex) : option (nat * regex) :=
  match r with
  | Cat (Grp i a) Eps => Some (i, a)
  | Cat _ r2 => last_group r2
  | _ => None
  end.

(** [re.search], [re.match] and [re.finditer] on a compiled pattern. *)
Definition search (p : pattern) (t : string) : option rmatch :=
  search_from (pat_flags p) (pat_re p) 0 (chars t).

Definition match_ (p : pattern) (t : string) : option rmatch :=
  match_here (pat_flags p) false (pat_re p) 0 (chars t).

Definition finditer (p : pattern) (t : string) : list rmatch :=
  finditer_from (pat_flags p) (pat_re p) 0 0 (chars t).

End Re.

(** * Library functions: [float], [int], [datetime], [strptime] *)

Module Lib.

Import Py.

Local Open Scope Z_scope.

Inductive exn : Type := ValueError.

Inductive result (A : Type) : Type :=
| Ok (a : A)
| Raise (e : exn).

Arguments Ok {A} a.
Arguments Raise {A} e.

Definition bind {A B : Type} (x : result A) (f : A -> result B) : result B :=
  match x with
  | Ok a => f a
  | Raise e => Raise e
  end.

Notation "x <- e1 ;; e2" := (bind e1 (fun x => e2))
  (at level 61, e1 at next level, right associativity).

(** A [for] loop whose body may raise: the first exception ends it. *)
Fixpoint for_each {A B : Type} (body : A -> result B) (l : list A)
  : result (list B) :=
  match l with
  | [] => Ok []
  | a :: l' =>
      b <- body a ;;
      bs <- for_each body l' ;;
      Ok (b :: bs)
  end.

Definition of_option {A : Type} (x : option A) : result A :=
  match x with
  | Some a => Ok a
  | None => Raise ValueError
  end.

(** ** Numbers *)

Definition digit (a : ascii) : Z := Z.of_N (code a) - 48.

(** The value of a run of digits read after [acc]; [None] at the first
    character that is not a digit. *)
Fixpoint digits (acc : Z) (l : list ascii) : option Z :=
  match l with
  | [] => Some acc
  | a :: l' => if is_digit a then digits (10 * acc + digit a) l' else None
  end.

(** [int(s)] for an unsigned decimal numeral, surrounding blanks
    allowed. *)
Definition int (l : list ascii) : option Z :=
  match strip l with
  | [] => None
  | l' => digits 0 l'
  end.

Fixpoint split_at_dot (l : list ascii) : list ascii * option (list ascii) :=
  match l with
  | [] => ([], None)
  | a :: l' =>
      if Ascii.eqb a "." then ([], Some l')
      else let '(i, f) := split_at_dot l' in (a :: i, f)
  end.

(** An unsigned decimal numeral [ddd], [ddd.], [.ddd] or [ddd.ddd]. *)
Definition unsigned_decimal (l : list ascii) : option Q :=
  let '(i, f) := split_at_dot l in
  let f := match f with Some f => f | None => [] end in
  match i ++ f with
  | [] => None
  | all =>
      match digits 0 all with
      | Some n => Some (Qred (n # Z.to_pos (10 ^ Z.of_nat (length f))))
      | None => None
      end
  end.

(** [float(s)] on plain decimal numerals with an optional sign, the only
    spellings the amount patterns let through; the result is the number
    denoted.  [None] stands for [ValueError]. *)
Definition float (l : list ascii) : option Q :=
  match strip l with
  | "-"%char :: l' =>
      match unsigned_decimal l' with
      | Some q => Some (- q)%Q
      | None => None
      end
  | "+"%char :: l' => unsigned_decimal l'
  | l' => unsigned_decimal l'
  end.

(** ** Dates *)

Record datetime : Type := Datetime {
  year : Z;
  month : Z;
  day : Z;
  hour : Z;
  minute : Z;
  second : Z;
  microsecond : Z
}.

Definition is_leap (y : Z) : bool :=
  (y mod 4 =? 0) && (negb (y mod 100 =? 0) || (y mod 400 =? 0)).

Definition days_in_month (y mo : Z) : Z :=
  if mo =? 2 then (if is_leap y then 29 else 28)
  else if (mo =? 4) || (mo =? 6) || (mo =? 9) || (mo =? 11) then 30
  else 31.

(** [datetime(y, mo, d)]; [None] when the date does not exist. *)
Definition mk_date (y mo d : Z) : option datetime :=
  if (1 <=? y) && (y <=? 9999) && (1 <=? mo) && (mo <=? 12)
     && (1 <=? d) && (d <=? days_in_month y mo)
  then Some (Datetime y mo d 0 0 0 0)
  else None.

Inductive directive : Type := Dm | Dd | DY | Dy.

Local Open Scope string_scope.

(** The regular expression [_strptime] builds for a directive. *)
Definition directive_regex (d : directive) : string :=
  match d with
  | Dm => "(1[0-2]|0[1-9]|[1-9])"
  | Dd => "(3[0-1]|[1-2]\d|0[1-9]|[1-9]| [1-9])"
  | DY => "(\d\d\d\d)"
  | Dy => "(\d\d)"
  end.

(** The format, turned into a pattern and the directives in the order
    of their groups.  Only the directives and separators the parser
    uses are in the fragment. *)
Fixpoint format_regex (f : list ascii) : option (string * list directive) :=
  match f with
  | [] => Some ("", [])
  | "%"%char :: c :: f' =>
      match (if Ascii.eqb c "m" then Some Dm
             else if Ascii.eqb c "d" then Some Dd
             else if Ascii.eqb c "Y" then Some DY
             else if Ascii.eqb c "y" then Some Dy
             else None),
            format_regex f' with
      | Some d, Some (re, ds) => Some (directive_regex d ++ re, d :: ds)
      | _, _ => None
      end
  | c :: f' =>
      if Ascii.eqb c "/" || Ascii.eqb c "-" then
        match format_regex f' with
        | Some (re, ds) => Some (String c re, ds)
        | None => None
        end
      else None
  end.

(** The fields found, starting from the defaults 1900-01-01. *)
Fixpoint read_fields (ds : list directive) (i : nat) (x : Re.rmatch)
  (ymd : Z * Z * Z) : option (Z * Z * Z) :=
  match ds with
  | [] => Some ymd
  | d :: ds' =>
      match int (Re.grp x i) with
      | None => None
      | Some v =>
          let '(y, mo, dd) := ymd in
          read_fields ds' (S i) x
            match d with
            | Dm => (y, v, dd)
            | Dd => (y, mo, v)
            | DY => (v, mo, dd)
            | Dy => ((if v <=? 68 then v + 2000 else v + 1900)%Z, mo, dd)
            end
      end
  end.

(** [datetime.strptime(data, fmt)]; [None] stands for [ValueError]: the
    data does not match the format, some of it is left over, or the
    date does not exist. *)
Definition strptime (data : list ascii) (fmt : string) : option datetime :=
  match format_regex (chars fmt) with
  | None => None
  | Some (re, ds) =>
      match Re.compile_with (Re.Flags true false) re with
      | None => None
      | Some p =>
          match Re.match_ p (str data) with
          | None => None
          | Some x =>
              if (Re.m_end x =? length data)%nat then
                match read_fields ds 1 x (1900, 1, 1)%Z with
                | Some (y, mo, d) => mk_date y mo d
                | None => None
                end
              else None
          end
      end
  end.

End Lib.

(** * The parser: [StatementParser] *)

Module Parser.

Import Py Lib.

Local Open Scope string_scope.

(** ** Data model *)

Record AccountInfo : Type := mkAccountInfo {
  ai_number : string;
  ai_name : option string;
  ai_institution : option string;
  ai_type : option string
}.

Record Period : Type := mkPeriod {
  p_start : datetime;
  p_end : datetime
}.

Record Balance : Type := mkBalance {
  b_closing : Q;
  b_opening : option Q
}.

Record Transaction : Type := mkTransaction {
  tx_date : datetime;
  tx_description : string;
  tx_amount : Q;
  tx_balance : option Q;
  tx_category : option string
}.

(** A [dict] with string keys, in insertion order. *)
Definition dict (V : Type) : Type := list (string * V).

Fixpoint dict_get {V : Type} (d : dict V) (k : string) : option V :=
  match d with
  | [] => None
  | (k', v) :: d' => if String.eqb k k' then Some v else dict_get d' k
  end.

Fixpoint dict_set {V : Type} (d : dict V) (k : string) (v : V) : dict V :=
  match d with
  | [] => [(k, v)]
  | (k', v') :: d' =>
      if String.eqb k k' then (k', v) :: d' else (k', v') :: dict_set d' k v
  end.

Record StatementResult : Type := mkStatementResult {
  sr_account_info : AccountInfo;
  sr_period : Period;
  sr_balance : Balance;
  sr_transactions : list Transaction;
  sr_confidence : dict PrimFloat.float
}.

(** ** Patterns *)

(** The double-quote character, which a string literal cannot hold. *)
Definition dq : string := String (ascii_of_N 34) EmptyString.

(** A pattern that matches nothing, standing for one outside the
    fragment; [patterns_compile] shows the program has none. *)
Definition no_match : Re.pattern := Re.Pattern (Re.Flags false false) (Re.Cls []).

Definition re_compile (fl : Re.flags) (p : string) : Re.pattern :=
  match Re.compile_with fl p with
  | Some c => c
  | None => no_match
  end.

(** [re.search(p, text)] and [re.search(p, text, flags)] *)
Definition re_search (p text : string) : option Re.rmatch :=
  Re.search (re_compile (Re.Flags false false) p) text.

Definition re_search_flags (fl : Re.flags) (p text : string) : option Re.rmatch :=
  Re.search (re_compile fl p) text.

(** [re.finditer(p, text)] *)
Definition re_finditer (p text : string) : list Re.rmatch :=
  Re.finditer (re_compile (Re.Flags false false) p) text.

Definition IGNORECASE : Re.flags := Re.Flags true false.
Definition DOTALL_IGNORECASE : Re.flags := Re.Flags true true.

Definition is_some {A : Type} (x : option A) : bool :=
  match x with
  | Some _ => true
  | None => false
  end.

(** [self.institution_patterns], in declaration order. *)
Definition institution_patterns : list (string * string) :=
  [ ("chase", "(?i)CHASE|JPMorgan Chase");
    ("bofa", "(?i)Bank\s+of\s+America|BOFA");
    ("wellsfargo", "(?i)Wells\s+Fargo");
    ("citi", "(?i)Citi(?:bank)?");
    ("amex", "(?i)American\s+Express|AMEX");
    ("discover", "(?i)Discover\s+Card");
    ("capitalone", "(?i)Capital\s+One");
    ("usbank", "(?i)U\.?S\.?\s+Bank");
    ("pnc", "(?i)PNC\s+Bank");
    ("tdbank", "(?i)TD\s+Bank");
    ("regions", "(?i)Regions\s+Bank");
    ("suntrust", "(?i)SunTrust|Truist");
    ("barclays", "(?i)Barclays");
    ("ally", "(?i)Ally\s+Bank");
    ("schwab", "(?i)Charles\s+Schwab");
    ("fidelity", "(?i)Fidelity");
    ("vanguard", "(?i)Vanguard") ].

(** [self.category_patterns], in declaration order. *)
Definition category_patterns : list (string * string) :=
  [ ("dining", "(?i)restaurant|dining|food|cafe|coffee|starbucks|mcdonalds|chipotle|pizza|burger|taco|sushi");
    ("grocery", "(?i)grocery|groceries|supermarket|market|food|whole foods|trader|safeway|kroger|albertsons|wegmans|publix");
    ("transportation", "(?i)uber|lyft|taxi|cab|transport|transit|metro|subway|train|bus|airline|flight|gas|fuel|chevron|shell|exxon");
    ("shopping", "(?i)amazon|ebay|walmart|target|costco|shop|store|retail|outlet|mall|clothing|apparel");
    ("utilities", "(?i)utility|utilities|electric|water|gas|power|energy|cable|internet|phone|mobile|wireless|verizon|at&t|t-mobile");
    ("entertainment", "(?i)netflix|hulu|spotify|apple|google|movie|theater|cinema|concert|ticket|entertainment");
    ("health", "(?i)medical|doctor|pharmacy|drug|health|healthcare|hospital|clinic|dental|vision|insurance");
    ("personal", "(?i)salon|spa|beauty|barber|hair|nail|gym|fitness");
    ("home", "(?i)home|apartment|rent|lease|mortgage|furniture|decor|improvement|repair|maintenance");
    ("subscription", "(?i)subscription|recurring|monthly|annual|membership|prime|fee");
    ("income", "(?i)deposit|direct deposit|salary|payroll|payment received|income|revenue");
    ("transfer", "(?i)transfer|zelle|venmo|paypal|cash app|wire|ach");
    ("withdrawal", "(?i)withdrawal|atm|cash") ].

(** ** Classifiers *)

(** The loop [for id, pattern in table: if re.search(pattern, text):
    return id]. *)
Fixpoint first_match (fl : Re.flags) (table : list (string * string))
  (text : string) : option string :=
  match table with
  | [] => None
  | (id, pattern) :: table' =>
      if is_some (re_search_flags fl pattern text) then Some id
      else first_match fl table' text
  end.

Definition _detect_institution (text : string) : string :=
  match first_match (Re.Flags false false) institution_patterns text with
  | Some institution => institution
  | None => "unknown"
  end.

Definition _detect_statement_type (text : string) : string :=
  if is_some (re_search "(?i)credit\s+card|credit\s+account|APR|cash\s+advance" text)
  then "credit_card"
  else if is_some (re_search "(?i)checking|savings|bank\s+statement|deposit|ATM|withdraw" text)
  then "bank"
  else if is_some (re_search "(?i)investment|portfolio|securities|brokerage|fund|stock|bond" text)
  then "investment"
  else "unknown".

(** ** Field extractors *)

(** The loop [for pattern in patterns: m = re.search(pattern, text); if
    m: ...; break]. *)
Fixpoint first_search (patterns : list string) (text : string)
  : option Re.rmatch :=
  match patterns with
  | [] => None
  | pattern :: patterns' =>
      match re_search pattern text with
      | Some x => Some x
      | None => first_search patterns' text
      end
  end.

Definition account_patterns : list string :=
  [ "(?i)account\s+(?:number|#|no)?[:.\s]+[*xX]+(\d{4})";
    "(?i)account\s+(?:ending|#)?\s+(?:in|with)?\s+(\d{4})";
    "(?i)acct\s+[*xX]+(\d{4})" ].

Definition name_patterns : list string :=
  [ "(?i)account\s+name:?\s+([A-Z\s]+)";
    "(?i)primary\s+account\s+holder:?\s+([A-Z\s]+)" ].

Definition _extract_account_info (text institution statement_type : string)
  : AccountInfo :=
  let '(account_number, account_name) :=
    if String.eqb statement_type "bank" || String.eqb statement_type "credit_card"
    then
      (match first_search account_patterns text with
       | Some account_matches =>
           "xxxx-xxxx-xxxx-" ++ str (Re.grp account_matches 1)
       | None => "Unknown"
       end,
       match first_search name_patterns text with
       | Some name_matches => Some (str (strip (Re.grp name_matches 1)))
       | None => None
       end)
    else ("Unknown", None) in
  mkAccountInfo account_number account_name (Some institution) (Some statement_type).

Definition date_pattern : string := "(\d{1,2}/\d{1,2}/\d{2,4})".

(** The last pattern's class is written in the source with the
    characters [-], U+00E2, U+20AC and U+201C; the last two are beyond
    the code points of a text and are left out. *)
Definition period_patterns : list string :=
  [ "(?i)statement\s+period:?\s+" ++ date_pattern ++ "\s+(?:to|through)\s+" ++ date_pattern;
    "(?i)from\s+" ++ date_pattern ++ "\s+to\s+" ++ date_pattern;
    "(?i)billing\s+period:?\s+" ++ date_pattern ++ "\s+(?:to|through)\s+" ++ date_pattern;
    "(?i)(?:period|cycle)(?:\s+covered)?:?\s+" ++ date_pattern ++ "\s*[-"
      ++ String (ascii_of_N 226) EmptyString ++ "]\s*" ++ date_pattern ].

(** [try strptime(s, "%m/%d/%Y") except: try strptime(s, "%m/%d/%y")
    except: datetime.now()] *)
Definition period_date (now : datetime) (date_str : list ascii) : datetime :=
  match strptime date_str "%m/%d/%Y" with
  | Some d => d
  | None =>
      match strptime date_str "%m/%d/%y" with
      | Some d => d
      | None => now
      end
  end.

Definition _extract_period (now : datetime) (text institution statement_type : string)
  : Period :=
  match first_search period_patterns text with
  | Some x =>
      let start_date := period_date now (Re.grp x 1) in
      let end_date := period_date now (Re.grp x 2) in
      mkPeriod start_date end_date
  | None =>
      let today := now in
      let start_date := Datetime (year today) (month today) 1 0 0 0 0 in
      mkPeriod start_date today
  end.

Definition amount_pattern : string := "[\$]?[\d,]+\.\d{2}".

Definition closing_patterns (statement_type : string) : list string :=
  [ "(?i)closing\s+balance:?\s+(" ++ amount_pattern ++ ")";
    "(?i)ending\s+balance:?\s+(" ++ amount_pattern ++ ")";
    "(?i)new\s+balance:?\s+(" ++ amount_pattern ++ ")";
    "(?i)balance\s+forward:?\s+(" ++ amount_pattern ++ ")" ]
  ++ (if String.eqb statement_type "credit_card" then
        [ "(?i)new\s+balance:?\s+(" ++ amount_pattern ++ ")";
          "(?i)total\s+balance:?\s+(" ++ amount_pattern ++ ")";
          "(?i)statement\s+balance:?\s+(" ++ amount_pattern ++ ")" ]
      else []).

Definition opening_patterns : list string :=
  [ "(?i)opening\s+balance:?\s+(" ++ amount_pattern ++ ")";
    "(?i)previous\s+balance:?\s+(" ++ amount_pattern ++ ")";
    "(?i)beginning\s+balance:?\s+(" ++ amount_pattern ++ ")";
    "(?i)balance\s+(?:from|as of)\s+last\s+statement:?\s+(" ++ amount_pattern ++ ")" ].

(** [amount_str.replace('$', '').replace(',', '')] *)
Definition clean_amount (amount_str : list ascii) : list ascii :=
  remove_char "," (remove_char "$" amount_str).

Definition _extract_balance (text institution statement_type : string)
  : result Balance :=
  closing_balance <-
    match first_search (closing_patterns statement_type) text with
    | Some x => of_option (float (clean_amount (Re.grp x 1)))
    | None => Ok 0%Q
    end ;;
  opening_balance <-
    match first_search opening_patterns text with
    | Some x => v <- of_option (float (clean_amount (Re.grp x 1))) ;; Ok (Some v)
    | None => Ok None
    end ;;
  Ok (mkBalance closing_balance opening_balance).

(** ** Categorizer *)

Definition _categorize_transaction (description : string) : option string :=
  match first_match IGNORECASE category_patterns description with
  | Some category => Some category
  | None =>
      let low := map lower (chars description) in
      if contains (chars "deposit") low || contains (chars "credit") low
      then Some "income"
      else None
  end.

(** ** Transaction extractor *)

Definition transaction_headers : list string :=
  [ "(?i)transactions?";
    "(?i)account\s+activity";
    "(?i)payments\s+and\s+(?:other\s+)?credits";
    "(?i)purchases\s+and\s+(?:other\s+)?charges" ].

Definition section_tail : string :=
  ".*?(?=SUMMARY|TOTAL|BALANCE|STATEMENT|INFORMATION|$)".

(** The span of the first header, in list order, that is found; the
    whole text when none is. *)
Fixpoint find_section (headers : list string) (text : string) : string :=
  match headers with
  | [] => text
  | header :: headers' =>
      match re_search_flags DOTALL_IGNORECASE (header ++ section_tail) text with
      | Some x => str (Re.m_text x)
      | None => find_section headers' text
      end
  end.

Definition transaction_section (text : string) : string :=
  find_section transaction_headers text.

Definition chase_tx_pattern : string :=
  "(\d{2}/\d{2})\s+([A-Za-z0-9\s.,&\'" ++ dq ++ "-]+?)\s+([-+]?\$[\d,]+\.\d{2})".

Definition bofa_tx_pattern : string :=
  "(\d{2}/\d{2}/\d{2,4})\s+([A-Za-z0-9\s.,&\'" ++ dq ++ "-]+?)\s+([-+]?\$[\d,]+\.\d{2})".

Definition amex_tx_pattern : string :=
  "(\d{2}/\d{2}/\d{2,4})\s+([A-Za-z0-9\s.,&\'" ++ dq ++ "-]+?)\s+([-+]?\$[\d,]+\.\d{2})".

Definition date_patterns : list string :=
  [ "(\d{1,2}/\d{1,2}(?:/\d{2,4})?)";
    "(\d{1,2}-\d{1,2}(?:-\d{2,4})?)" ].

Definition generic_amount_pattern : string := "([-+]?\$?[\d,]+\.\d{2})".

Definition combined_pattern (date_pattern : string) : string :=
  date_pattern ++ "\s+([A-Za-z0-9\s.,&'" ++ dq ++ "()-]+?)\s+" ++ generic_amount_pattern.

(** The body of the Chase loop. *)
Definition chase_tx (now : datetime) (x : Re.rmatch) : result Transaction :=
  let date_str := Re.grp x 1 in
  let description := Re.grp x 2 in
  let amount_str := Re.grp x 3 in
  let current_year := year now in
  date <- of_option
            (strptime (date_str ++ chars "/" ++ str_of_Z current_year) "%m/%d/%Y") ;;
  amount <- of_option (float (clean_amount amount_str)) ;;
  Ok (mkTransaction date (str (strip description)) amount None None).

(** [try strptime(s, "%m/%d/%Y") except ValueError: strptime(s,
    "%m/%d/%y")] *)
Definition dated (date_str : list ascii) : result datetime :=
  match strptime date_str "%m/%d/%Y" with
  | Some d => Ok d
  | None => of_option (strptime date_str "%m/%d/%y")
  end.

(** The body of the Bank of America loop. *)
Definition bofa_tx (x : Re.rmatch) : result Transaction :=
  let date_str := Re.grp x 1 in
  let description := Re.grp x 2 in
  let amount_str := Re.grp x 3 in
  date <- dated date_str ;;
  amount <- of_option (float (clean_amount amount_str)) ;;
  Ok (mkTransaction date (str (strip description)) amount None None).

(** [-float(s) if not s.startswith('-') else float(s)] *)
Definition amex_amount (amount_str : list ascii) : result Q :=
  if negb (startswith "-" amount_str)
  then v <- of_option (float amount_str) ;; Ok (- v)%Q
  else of_option (float amount_str).

(** The body of the American Express loop. *)
Definition amex_tx (x : Re.rmatch) : result Transaction :=
  let date_str := Re.grp x 1 in
  let description := Re.grp x 2 in
  let amount_str := Re.grp x 3 in
  date <- dated date_str ;;
  let amount_str := clean_amount amount_str in
  amount <- amex_amount amount_str ;;
  Ok (mkTransaction date (str (strip description)) amount None None).

(** The date of a generic match; any [ValueError] falls back to
    [datetime.now()]. *)
Definition generic_date (now : datetime) (date_str : list ascii) : datetime :=
  let parsed :=
    if contains_char "/" date_str then
      if (2 <? split_len "/" date_str)%nat then
        match strptime date_str "%m/%d/%Y" with
        | Some d => Some d
        | None => strptime date_str "%m/%d/%y"
        end
      else
        let current_year := year now in
        strptime (date_str ++ chars "/" ++ str_of_Z current_year) "%m/%d/%Y"
    else
      if (2 <? split_len "-" date_str)%nat then
        match strptime date_str "%m-%d-%Y" with
        | Some d => Some d
        | None => strptime date_str "%m-%d-%y"
        end
      else
        let current_year := year now in
        strptime (date_str ++ chars "-" ++ str_of_Z current_year) "%m-%d-%Y" in
  match parsed with
  | Some d => d
  | None => now
  end.

(** The body of the generic loop; [None] is its [continue]. *)
Definition generic_tx (now : datetime) (x : Re.rmatch) : option Transaction :=
  let date_str := Re.grp x 1 in
  let description := Re.grp x 2 in
  let amount_str := Re.grp x 3 in
  let date := generic_date now date_str in
  let amount_str := clean_amount amount_str in
  match float amount_str with
  | None => None
  | Some amount =>
      let category := _categorize_transaction (str (strip description)) in
      Some (mkTransaction date (str (strip description)) amount None category)
  end.

Fixpoint filter_map {A B : Type} (f : A -> option B) (l : list A) : list B :=
  match l with
  | [] => []
  | a :: l' =>
      match f a with
      | Some b => b :: filter_map f l'
      | None => filter_map f l'
      end
  end.

Definition _extract_transactions (now : datetime)
  (text institution statement_type : string) : result (list Transaction) :=
  let transaction_section := transaction_section text in
  if String.eqb institution "chase" && String.eqb statement_type "credit_card" then
    for_each (chase_tx now) (re_finditer chase_tx_pattern transaction_section)
  else if String.eqb institution "bofa" && String.eqb statement_type "bank" then
    for_each bofa_tx (re_finditer bofa_tx_pattern transaction_section)
  else if String.eqb institution "amex" && String.eqb statement_type "credit_card" then
    for_each amex_tx (re_finditer amex_tx_pattern transaction_section)
  else
    Ok (flat_map
          (fun date_pattern =>
             filter_map (generic_tx now)
               (re_finditer (combined_pattern date_pattern) transaction_section))
          date_patterns).

(** ** Confidence scorer *)

Definition dict_at (d : dict PrimFloat.float) (k : string) : PrimFloat.float :=
  match dict_get d k with
  | Some v => v
  | None => 0%float
  end.

(** [today] is what [datetime.now()] gives in the scorer. *)
Definition _calculate_confidence (today : datetime) (account_info : AccountInfo)
  (period : Period) (balance : Balance) (transactions : list Transaction)
  : dict PrimFloat.float :=
  let confidence : dict PrimFloat.float := [] in
  let confidence :=
    dict_set confidence "account_info"
      (if negb (String.eqb (ai_number account_info) "Unknown")
       then 0.9%float else 0.3%float) in
  let is_default_period :=
    (year (p_start period) =? year today)%Z
    && (month (p_start period) =? month today)%Z
    && (day (p_start period) =? 1)%Z in
  let confidence :=
    dict_set confidence "period"
      (if is_default_period then 0.3%float else 0.9%float) in
  let confidence :=
    dict_set confidence "balance"
      (match b_opening balance with Some _ => 0.8%float | None => 0.5%float end) in
  let confidence :=
    if (0 <? length transactions)%nat then
      dict_set confidence "transactions"
        (py_min 0.9
           (0.3 + float_of_int (Z.of_nat (length transactions)) * 0.02))%float
    else dict_set confidence "transactions" 0.1%float in
  let confidence :=
    dict_set confidence "overall"
      ((dict_at confidence "account_info" + dict_at confidence "period"
        + dict_at confidence "balance" + dict_at confidence "transactions")
       / 4)%float in
  confidence.

(** ** The pipeline: [StatementParser.parse], from the extracted text on *)

(** [now] is the clock during the extraction, [today] the clock the
    scorer reads afterwards. *)
Definition parse (now today : datetime) (text : string) : result StatementResult :=
  let institution := _detect_institution text in
  let statement_type := _detect_statement_type text in
  let account_info := _extract_account_info text institution statement_type in
  let period := _extract_period now text institution statement_type in
  balance <- _extract_balance text institution statement_type ;;
  transactions <- _extract_transactions now text institution statement_type ;;
  let confidence :=
    _calculate_confidence today account_info period balance transactions in
  Ok (mkStatementResult account_info period balance transactions confidence).

(** The text [_extract_text] hands over when it could read nothing. *)
Definition extraction_failed : string := "ERROR: Unable to extract text from PDF".

(** ** Notions used to state the properties *)

(** The shape of an amount token: an optional sign, an optional
    dollar, digits and commas, a point and two digits. *)
Definition amount_token (tok : list ascii) : Prop :=
  exists sg dl body d1 d2,
    tok = (sg ++ dl ++ body ++ ["."%char; d1; d2])%list
    /\ (sg = [] \/ sg = ["-"%char] \/ sg = ["+"%char])
    /\ (dl = [] \/ dl = ["$"%char])
    /\ Forall (fun ch => is_digit ch = true \/ ch = ","%char) body
    /\ is_digit d1 = true /\ is_digit d2 = true.

(** The expressions of the amount groups: of the three institution
    patterns, of the generic pattern, of the balance patterns. *)
Definition sign_opt : Re.regex :=
  Re.Rep true 0 (Some 1%nat) (Re.Cls [Re.IChar "-"; Re.IChar "+"]).

Definition amount_tail : Re.regex :=
  Re.Cat (Re.Rep true 1 None (Re.Cls [Re.IDigit; Re.IChar ","]))
    (Re.Cat (Re.Chr ".")
       (Re.Cat (Re.Rep true 2 (Some 2%nat) (Re.Cls [Re.IDigit])) Re.Eps)).

Definition amount_exprs : list Re.regex :=
  [ Re.Cat sign_opt (Re.Cat (Re.Chr "$") amount_tail);
    Re.Cat sign_opt (Re.Cat (Re.Rep true 0 (Some 1%nat) (Re.Chr "$")) amount_tail);
    Re.Cat (Re.Rep true 0 (Some 1%nat) (Re.Cls [Re.IChar "$"])) amount_tail ].

(** The expression of the group of the account patterns. *)
Definition four_digits : Re.regex :=
  Re.Cat (Re.Rep true 4 (Some 4%nat) (Re.Cls [Re.IDigit])) Re.Eps.

(** A balance phrasing: the words, an optional colon, blanks and the
    amount. *)
Definition balance_phrasing (words : string) : string :=
  "(?i)" ++ words ++ ":?\s+(" ++ amount_pattern ++ ")".

(** A pattern of the program matches somewhere in the text. *)
Definition found (pattern text : string) : Prop :=
  is_some (re_search pattern text) = true.

(** Where the transaction section starts in the text. *)
Fixpoint find_section_start (headers : list string) (text : string) : nat :=
  match headers with
  | [] => 0
  | header :: headers' =>
      match re_search_flags DOTALL_IGNORECASE (header ++ section_tail) text with
      | Some x => Re.m_start x
      | None => find_section_start headers' text
      end
  end.

Definition section_start (text : string) : nat :=
  find_section_start transaction_headers text.

(** The extractor, with each transaction next to the offset in the text
    at which its match starts ([match.start()], counted from the start
    of the text). *)
Definition at_start {A : Type} (base : nat) (body : Re.rmatch -> result A)
  (x : Re.rmatch) : result (nat * A) :=
  a <- body x ;; Ok ((base + Re.m_start x)%nat, a).

Definition at_start_opt {A : Type} (base : nat) (body : Re.rmatch -> option A)
  (x : Re.rmatch) : option (nat * A) :=
  match body x with
  | Some a => Some ((base + Re.m_start x)%nat, a)
  | None => None
  end.

Definition generic_at (now : datetime) (text date_pattern : string)
  : list (nat * Transaction) :=
  filter_map (at_start_opt (section_start text) (generic_tx now))
    (re_finditer (combined_pattern date_pattern) (transaction_section text)).

Definition _extract_transactions_at (now : datetime)
  (text institution statement_type : string)
  : result (list (nat * Transaction)) :=
  let transaction_section := transaction_section text in
  let base := section_start text in
  if String.eqb institution "chase" && String.eqb statement_type "credit_card" then
    for_each (at_start base (chase_tx now))
      (re_finditer chase_tx_pattern transaction_section)
  else if String.eqb institution "bofa" && String.eqb statement_type "bank" then
    for_each (at_start base bofa_tx) (re_finditer bofa_tx_pattern transaction_section)
  else if String.eqb institution "amex" && String.eqb statement_type "credit_card" then
    for_each (at_start base amex_tx) (re_finditer amex_tx_pattern transaction_section)
  else
    Ok (flat_map (generic_at now text) date_patterns).

(** The strategy the extractor takes for a pair of labels. *)
Definition specific (institution statement_type : string) : bool :=
  (String.eqb institution "chase" && String.eqb statement_type "credit_card")
  || (String.eqb institution "bofa" && String.eqb statement_type "bank")
  || (String.eqb institution "amex" && String.eqb statement_type "credit_card").

(** The confidence map as the specification words it, each operation
    a binary64 one. *)
Definition confidence_spec (today : datetime) (account_info : AccountInfo)
  (period : Period) (balance : Balance) (transactions : list Transaction)
  : dict PrimFloat.float :=
  let account_score :=
    if String.eqb (ai_number account_info) "Unknown" then 0.3%float else 0.9%float in
  let period_score :=
    if (year (p_start period) =? year today)%Z
       && (month (p_start period) =? month today)%Z
       && (day (p_start period) =? 1)%Z
    then 0.3%float else 0.9%float in
  let balance_score :=
    match b_opening balance with Some _ => 0.8%float | None => 0.5%float end in
  let count := length transactions in
  let transactions_score :=
    match count with
    | O => 0.1%float
    | _ => py_min 0.9 (0.3 + 0.02 * float_of_int (Z.of_nat count))%float
    end in
  [ ("account_info", account_score);
    ("period", period_score);
    ("balance", balance_score);
    ("transactions", transactions_score);
    ("overall",
     ((account_score + period_score + balance_score + transactions_score) / 4)%float) ].

(** The default period at the time [now]. *)
Definition default_period (now : datetime) : Period :=
  mkPeriod (Datetime (year now) (month now) 1 0 0 0 0) now.

End Parser.

(** * Reading the files: [_extract_text], [parse] and [batch_parse] *)

Module Files.

Import Py Lib Parser.

Local Open Scope string_scope.

(** What PyPDF2 gives for a file: nothing when the file cannot be opened
    or read as a PDF; otherwise, page by page, the text of the page, or
    nothing when extracting it raises. *)
Definition pdf : Type := option (list (option string)).

Definition nl : string := String (ascii_of_N 10) EmptyString.

(** [f"\n\n--- PAGE {page_num + 1} ---\n\n"] *)
Definition page_delimiter (page_num : nat) : string :=
  nl ++ nl ++ "--- PAGE " ++ str (str_of_Z (Z.of_nat page_num + 1)) ++ " ---"
  ++ nl ++ nl.

(** The loop over the pages, from page [page_num] on: the text at the
    end, and whether a page raised. *)
Fixpoint read_pages (pages : list (option string)) (page_num : nat)
  (text : string) : string * bool :=
  match pages with
  | [] => (text, false)
  | None :: _ => (text, true)
  | Some page_text :: pages' =>
      let text :=
        if (0 <? page_num)%nat then text ++ page_delimiter page_num else text in
      read_pages pages' (S page_num) (text ++ page_text)
  end.

Definition _extract_text (file : pdf) : string :=
  match file with
  | None => extraction_failed
  | Some pages =>
      let '(text, raised) := read_pages pages 0 "" in
      if raised && (text =? "") then extraction_failed else text
  end.

(** [StatementParser.parse] and the module's [parse], from the file on. *)
Definition parse_file (now today : datetime) (file : pdf)
  : result StatementResult :=
  Parser.parse now today (_extract_text file).





End Files.

(** * Notions used to state the further properties *)

Module Notions.

Import Py Re Lib Parser Files.

Local Open Scope string_scope.
Local Open Scope list_scope.

(** ** Of the matcher *)

(** A continuation that fails or succeeds whatever the captures are. *)
Definition blind {R : Type} (k : list ascii -> caps -> option R) : Prop :=
  forall s c1 c2, k s c1 = None <-> k s c2 = None.

(** No repetition of an expression that can match the empty string:
    what [mk_rep] lets through. *)
Fixpoint wf (r : regex) : bool :=
  match r with
  | Eps | Chr _ | Dot | Cls _ | Eol => true
  | Cat r1 r2 | Alt r1 r2 => wf r1 && wf r2
  | Grp _ r' | Ahead r' => wf r'
  | Rep _ _ _ r' => wf r' && negb (nullable r')
  end.

(** No end-of-text anchor. *)
Fixpoint eol_free (r : regex) : bool :=
  match r with
  | Eol => false
  | Eps | Chr _ | Dot | Cls _ => true
  | Cat r1 r2 | Alt r1 r2 => eol_free r1 && eol_free r2
  | Grp _ r' | Ahead r' | Rep _ _ _ r' => eol_free r'
  end.

(** The expression [r] matches at some offset of [s]. *)
Definition occurs (fl : flags) (r : regex) (s : list ascii) : Prop :=
  exists pre suf s' c', s = pre ++ suf /\ den fl r suf [] s' c'.

(** ** Of the classifiers *)

(** The letters A to Z put in lower case, every other character kept.
    The properties on letter case are stated for these letters: on them
    the folding of the matcher under [(?i)] and [str.lower] agree, for
    every text. *)
Definition ascii_lower (a : ascii) : ascii :=
  if in_range 65 90 a then ascii_of_N (code a + 32) else a.

(** Two texts that differ in the case of the letters A to Z only. *)
Definition same_ascii_case (t1 t2 : string) : Prop :=
  map ascii_lower (chars t1) = map ascii_lower (chars t2).

(** The text [t] contains [u], up to the case of the letters A to Z. *)
Definition contains_ascii_nocase (u t : string) : bool :=
  contains (map ascii_lower (chars u)) (map ascii_lower (chars t)).

(** Two texts that differ in letter case only: [t1.lower() ==
    t2.lower()]. *)
Definition same_case (t1 t2 : string) : Prop :=
  map lower (chars t1) = map lower (chars t2).

(** [u.lower() in t.lower()] *)
Definition contains_nocase (u t : string) : bool :=
  contains (map lower (chars u)) (map lower (chars t)).

(** A pattern in the fragment that ignores case and has no
    end-of-text anchor. *)
Definition cue (fl : flags) (p : string) : bool :=
  let c := re_compile fl p in
  icase (pat_flags c) && wf (pat_re c) && eol_free (pat_re c).

(** The categorizer with a fallback that tests "credit" only. *)
Definition categorize_credit_only (description : string) : option string :=
  match first_match IGNORECASE category_patterns description with
  | Some category => Some category
  | None =>
      if contains (chars "credit") (map lower (chars description))
      then Some "income" else None
  end.

(** ** Of the extractors *)

(** The amount of a transaction is the value of the token of its match,
    with the sign the token has. *)
Definition amount_as_written (x : rmatch) (tx : Transaction) : Prop :=
  exists v,
    float (clean_amount (grp x 3)) = Some v
    /\ tx_amount tx = v
    /\ (if startswith "-" (grp x 3) then (v <= 0)%Q else (0 <= v)%Q).

(** The matches the generic strategy goes through, one date pattern
    after the other. *)
Definition generic_matches (text : string) : list rmatch :=
  flat_map (fun date_pattern =>
              re_finditer (combined_pattern date_pattern) (transaction_section text))
    date_patterns.

(** A date token neither format [%m/%d/%Y] nor [%m/%d/%y] reads. *)
Definition bad_date (date_str : list ascii) : Prop :=
  strptime date_str "%m/%d/%Y" = None /\ strptime date_str "%m/%d/%y" = None.

(** The expression of the amount group of the balance patterns: no
    sign. *)
Definition balance_amount_expr : Re.regex :=
  Re.Cat (Re.Rep true 0 (Some 1%nat) (Re.Cls [Re.IChar "$"])) amount_tail.

(** A date token of the generic strategy with no year component: the
    test the strategy makes on the number of separators. *)
Definition yearless (date_str : list ascii) : bool :=
  if contains_char "/" date_str
  then negb (2 <? split_len "/" date_str)%nat
  else negb (2 <? split_len "-" date_str)%nat.

Definition starts_blank (l : list ascii) : bool :=
  match l with
  | a :: _ => is_space a
  | [] => false
  end.

(** Neither the first nor the last character is white space. *)
Definition trimmed (l : list ascii) : bool :=
  negb (starts_blank l) && negb (starts_blank (rev l)).

(** [a-zA-Z] *)
Definition is_letter (a : ascii) : bool := in_range 65 90 a || in_range 97 122 a.

(** The expression of the group of the name patterns. *)
Definition name_expr : Re.regex :=
  Re.Cat (Re.Rep true 1 None (Re.Cls [Re.IRange "A" "Z"; Re.ISpace])) Re.Eps.

(** ** Of the transaction section *)

(** The words at which the transaction section ends, in lower case. *)
Definition stop_words : list string :=
  ["summary"; "total"; "balance"; "statement"; "information"].

(** A stop word, in any letter case, starts the text [s]. *)
Definition stops_here (s : list ascii) : bool :=
  existsb (fun w => is_prefix (chars w) (map lower s)) stop_words.

(** The expression of a literal word. *)
Fixpoint lit (w : list ascii) : regex :=
  match w with
  | [] => Eps
  | a :: w' => Cat (Chr a) (lit w')
  end.

(** The lookahead that ends the section. *)
Definition section_stop : regex :=
  Alt (lit (chars "SUMMARY"))
    (Alt (lit (chars "TOTAL"))
       (Alt (lit (chars "BALANCE"))
          (Alt (lit (chars "STATEMENT"))
             (Alt (lit (chars "INFORMATION")) (Cat Eol Eps))))).

(** The lookahead of a sequence that ends with a lazy [.*?] and a
    lookahead, and the sequence before them. *)
Fixpoint lazy_tail (r : regex) : option regex :=
  match r with
  | Cat (Rep false O None Dot) (Cat (Ahead a) Eps) => Some a
  | Cat _ r2 => lazy_tail r2
  | _ => None
  end.

Fixpoint before_tail (r : regex) : regex :=
  match r with
  | Cat (Rep false O None Dot) (Cat (Ahead _) Eps) => Eps
  | Cat r1 r2 => Cat r1 (before_tail r2)
  | _ => r
  end.

(** The pattern [p] matches exactly [t] when [rest] follows. *)
Definition consumes (fl : flags) (p : string) (t rest : list ascii) : Prop :=
  exists c',
    den (pat_flags (re_compile fl p)) (pat_re (re_compile fl p))
      (t ++ rest) [] rest c'.

(** ** Of binary64 numbers *)

(** A positive binary64 number that is an infinity or has a full
    mantissa and an exponent of at least [k]: its value is at least
    2^(52+k). *)
Definition normal_from (k : Z) (x : spec_float) : Prop :=
  x = S754_infinity false
  \/ exists m e, x = S754_finite false m e
                 /\ Zpos (digits2_pos m) = 53%Z /\ (k <= e <= 971)%Z.

(** The constants 0.02, 0.3 and 0.9 of the scorer: mantissa and
    exponent. *)
Definition c002 : spec_float := S754_finite false 5764607523034235 (-58).
Definition c03 : spec_float := S754_finite false 5404319552844595 (-54).
Definition c09 : spec_float := S754_finite false 8106479329266893 (-53).

(** The transactions score for a list of [n] transactions. *)
Definition transactions_score (n : nat) : PrimFloat.float :=
  if (0 <? n)%nat
  then py_min 0.9 (0.3 + float_of_int (Z.of_nat n) * 0.02)%float
  else 0.1%float.

(** ** Of the files *)

(** A file of which nothing is read before the first failure: it cannot
    be opened, its first page raises, or its first page is empty and
    the second raises. *)
Definition unreadable (f : pdf) : bool :=
  match f with
  | None => true
  | Some (None :: _) => true
  | Some (Some page_text :: None :: _) => (page_text =? "")%string
  | Some _ => false
  end.

End Notions.

(** * Properties of the regular-expression matcher *)

Module ReFacts.

Import Py Re.

Section Soundness.

Variable fl : flags.

Lemma rep_sound (R : Type)
  (step : list ascii -> caps -> (list ascii -> caps -> option R) -> option R)
  (P : list ascii -> caps -> list ascii -> caps -> Prop)
  (k : list ascii -> caps -> option R) (g : bool) (lo : nat) :
  (forall s c k' x, step s c k' = Some x ->
     exists s' c', P s c s' c' /\ k' s' c' = Some x) ->
  forall fuel i s c x,
    rep step k g lo fuel i s c = Some x ->
    exists n s' c',
      iter P n s c s' c' /\ (lo <= i + n)%nat /\ (n <= fuel)%nat
      /\ k s' c' = Some x.
Proof.
  intros Hstep. induction fuel as [|fuel IH]; intros i s c x H; simpl in H.
  - destruct (Nat.leb_spec lo i); [|discriminate].
    exists 0%nat, s, c. simpl. repeat split; auto; lia.
  - assert (Hmore : forall y,
      step s c (fun s' c' =>
        if (length s' <? length s)%nat then rep step k g lo fuel (S i) s' c'
        else None) = Some y ->
      exists n s' c',
        iter P n s c s' c' /\ (lo <= i + n)%nat /\ (n <= S fuel)%nat
        /\ k s' c' = Some y).
    { intros y Hy. apply Hstep in Hy. destruct Hy as (s1 & c1 & HP & Hk).
      destruct (length s1 <? length s)%nat; [|discriminate].
      apply IH in Hk. destruct Hk as (n & s' & c' & Hi & Hlo & Hn & Hk).
      exists (S n), s', c'. simpl. repeat split; try lia; auto.
      exists s1, c1. auto. }
    assert (Hstop : forall y,
      (if (lo <=? i)%nat then k s c else None) = Some y ->
      exists n s' c',
        iter P n s c s' c' /\ (lo <= i + n)%nat /\ (n <= S fuel)%nat
        /\ k s' c' = Some y).
    { intros y Hy. destruct (Nat.leb_spec lo i); [|discriminate].
      exists 0%nat, s, c. simpl. repeat split; auto; lia. }
    destruct g.
    + destruct (step s c _) eqn:E.
      * injection H as <-. apply Hmore. reflexivity.
      * apply Hstop. exact H.
    + destruct (if (lo <=? i)%nat then k s c else None) eqn:E.
      * injection H as <-. apply Hstop. reflexivity.
      * apply Hmore. exact H.
Qed.

(** Whatever the matcher returns went through the continuation at the
    end of a match of [r]. *)
Lemma m_sound (r : regex) :
  forall (R : Type) s c (k : list ascii -> caps -> option R) x,
    m fl r s c k = Some x ->
    exists s' c', den fl r s c s' c' /\ k s' c' = Some x.
Proof.
  induction r as [ | a | | items | | r1 IH1 r2 IH2 | r1 IH1 r2 IH2
                 | i r IH | g lo hi r IH | r IH ];
    intros R s c k x H; simpl in H.
  - exists s, c. simpl. auto.
  - destruct s as [|ch s]; [discriminate|].
    destruct (chr_matches fl a ch) eqn:E; [|discriminate].
    exists s, c. simpl. split; [exists ch|]; auto.
  - destruct s as [|ch s]; [discriminate|].
    destruct (dotall fl || negb (Ascii.eqb ch newline)) eqn:E; [|discriminate].
    exists s, c. simpl. split; [exists ch|]; auto.
  - destruct s as [|ch s]; [discriminate|].
    destruct (existsb (item_matches fl ch) items) eqn:E; [|discriminate].
    exists s, c. simpl. split; [exists ch|]; auto.
  - destruct s as [|ch [|ch' s]].
    + exists [], c. simpl. auto.
    + destruct (Ascii.eqb_spec ch newline); [|discriminate]. subst ch.
      exists [newline], c. simpl. auto.
    + discriminate.
  - apply IH1 in H. destruct H as (s1 & c1 & H1 & H).
    apply IH2 in H. destruct H as (s2 & c2 & H2 & H).
    exists s2, c2. simpl. split; [exists s1, c1|]; auto.
  - destruct (m fl r1 s c k) eqn:E.
    + injection H as <-. apply IH1 in E. destruct E as (s1 & c1 & H1 & H).
      exists s1, c1. simpl. auto.
    + apply IH2 in H. destruct H as (s1 & c1 & H1 & H).
      exists s1, c1. simpl. auto.
  - apply IH in H. destruct H as (s1 & c1 & H1 & H).
    exists s1, ((i, firstn (length s - length s1) s) :: c1). simpl.
    split; [exists c1|]; auto.
  - apply rep_sound with (P := den fl r) in H; [|intros; apply IH; assumption].
    destruct H as (n & s' & c' & Hi & Hlo & Hn & Hk).
    exists s', c'. simpl. split; [|exact Hk].
    exists n. repeat split; auto. destruct hi; auto.
  - destruct (m fl r s c _) as [c1|] eqn:E; [|discriminate].
    apply IH in E. destruct E as (s1 & c2 & H1 & E). injection E as ->.
    exists s, c1. simpl. split; [exists s1|]; auto.
Qed.

Lemma firstn_consumed (t s' : list ascii) :
  firstn (length (t ++ s') - length s') (t ++ s') = t.
Proof.
  rewrite length_app, Nat.add_sub, firstn_app, Nat.sub_diag, firstn_all.
  simpl. apply app_nil_r.
Qed.

Lemma iter_prefix (P : list ascii -> caps -> list ascii -> caps -> Prop) (w : nat) :
  (forall s c s' c', P s c s' c' ->
     exists t, s = t ++ s' /\ (w <= length t)%nat) ->
  forall n s c s' c', iter P n s c s' c' ->
    exists t, s = t ++ s' /\ (n * w <= length t)%nat.
Proof.
  intros HP. induction n as [|n IH]; intros s c s' c' H; simpl in H.
  - destruct H as [-> _]. exists []. simpl. split; [reflexivity|lia].
  - destruct H as (s1 & c1 & H1 & H2).
    apply HP in H1. destruct H1 as (t1 & -> & L1).
    apply IH in H2. destruct H2 as (t2 & -> & L2).
    exists (t1 ++ t2). rewrite length_app, <- app_assoc. simpl. split; [reflexivity|lia].
Qed.

(** A match consumes a prefix of the input, of at least [minlen]
    characters. *)
Lemma den_prefix (r : regex) :
  forall s c s' c', den fl r s c s' c' ->
    exists t, s = t ++ s' /\ (minlen r <= length t)%nat.
Proof.
  induction r as [ | a | | items | | r1 IH1 r2 IH2 | r1 IH1 r2 IH2
                 | i r IH | g lo hi r IH | r IH ];
    intros s c s' c' H; simpl in H.
  - destruct H as [-> _]. exists []. auto.
  - destruct H as (ch & -> & _). exists [ch]. auto.
  - destruct H as (ch & -> & _). exists [ch]. auto.
  - destruct H as (ch & -> & _). exists [ch]. auto.
  - destruct H as (_ & -> & _). exists []. auto.
  - destruct H as (s1 & c1 & H1 & H2).
    apply IH1 in H1. destruct H1 as (t1 & -> & L1).
    apply IH2 in H2. destruct H2 as (t2 & -> & L2).
    exists (t1 ++ t2). rewrite length_app, <- app_assoc. simpl. split; [reflexivity|lia].
  - destruct H as [H|H]; [apply IH1 in H|apply IH2 in H];
      destruct H as (t & -> & L); exists t; simpl; split; auto; lia.
  - destruct H as (c1 & H & _). apply IH in H. exact H.
  - destruct H as (n & Hlo & _ & H).
    apply iter_prefix with (w := minlen r) in H; [|exact IH].
    destruct H as (t & -> & L). exists t. simpl. split; [reflexivity|nia].
  - destruct H as (s1 & _ & ->). exists []. auto.
Qed.

Lemma match_here_spec (adv : bool) (r : regex) (pos : nat) (s : list ascii)
  (x : rmatch) :
  match_here fl adv r pos s = Some x ->
  matched fl r x /\ m_start x = pos
  /\ (exists post, s = m_text x ++ post)
  /\ (adv = true -> m_start x < m_end x)%nat.
Proof.
  unfold match_here. intros H. apply m_sound in H.
  destruct H as (s' & c' & Hd & Hk).
  destruct (den_prefix _ _ _ _ _ Hd) as (t & -> & L).
  rewrite firstn_consumed in Hk. rewrite length_app, Nat.add_sub in Hk.
  destruct (adv && (length t =? 0)%nat) eqn:E; [discriminate|].
  injection Hk as <-. simpl. repeat split.
  - exists (t ++ s'), s'. simpl. auto.
  - exists s'. reflexivity.
  - intros ->. simpl in E. apply Nat.eqb_neq in E. lia.
Qed.

Lemma located_here (adv : bool) (r : regex) (pos : nat) (s : list ascii)
  (x : rmatch) :
  match_here fl adv r pos s = Some x -> located pos s x.
Proof.
  intros H. apply match_here_spec in H.
  destruct H as (_ & Hs & (post & ->) & _).
  exists [], post. simpl. split; [reflexivity|lia].
Qed.

Lemma located_cons (pos : nat) (a : ascii) (s : list ascii) (x : rmatch) :
  located (S pos) s x -> located pos (a :: s) x.
Proof.
  intros (pre & post & -> & Hs). exists (a :: pre), post. simpl.
  split; [reflexivity|lia].
Qed.

Lemma search_from_spec (r : regex) :
  forall s pos x,
    search_from fl r pos s = Some x ->
    matched fl r x /\ located pos s x.
Proof.
  induction s as [|a s IH]; intros pos x H; simpl in H.
  - destruct (match_here fl false r pos []) eqn:E; [|discriminate].
    injection H as <-. split; [apply (match_here_spec _ _ _ _ E)|].
    eapply located_here; eauto.
  - destruct (match_here fl false r pos (a :: s)) eqn:E.
    + injection H as <-. split; [apply (match_here_spec _ _ _ _ E)|].
      eapply located_here; eauto.
    + apply IH in H. destruct H as [Hm Hl]. split; [exact Hm|].
      apply located_cons. exact Hl.
Qed.

Lemma yields_nil (r : regex) (pos skip : nat) (s : list ascii) :
  yields fl r pos skip s [].
Proof. split; constructor. Qed.

Lemma yields_tail (r : regex) (pos skip : nat) (a : ascii) (s : list ascii)
  (l : list rmatch) :
  yields fl r (S pos) skip s l -> yields fl r pos (S skip) (a :: s) l.
Proof.
  intros [HF HS]. split; [|exact HS].
  eapply Forall_impl; [|exact HF]. simpl.
  intros x (Hm & Hl & Hp). repeat split; auto using located_cons. lia.
Qed.

Lemma yields_weaken (r : regex) (pos skip skip' : nat) (s : list ascii)
  (l : list rmatch) :
  (skip' <= skip)%nat -> yields fl r pos skip s l -> yields fl r pos skip' s l.
Proof.
  intros Hle [HF HS]. split; [|exact HS].
  eapply Forall_impl; [|exact HF]. simpl.
  intros x (Hm & Hl & Hp). repeat split; auto. lia.
Qed.

Lemma yields_cons (r : regex) (pos skip e : nat) (s : list ascii)
  (x : rmatch) (l : list rmatch) :
  matched fl r x -> located pos s x -> m_start x = pos -> skip = 0%nat ->
  (m_end x <= e)%nat ->
  yields fl r pos (e - pos) s l -> yields fl r pos skip s (x :: l).
Proof.
  intros Hm Hl Hs -> He [HF HS]. split.
  - constructor; [repeat split; auto; lia|].
    eapply Forall_impl; [|exact HF]. simpl.
    intros y (Hm' & Hl' & Hp). repeat split; auto. lia.
  - constructor; [exact HS|].
    eapply Forall_impl; [|exact HF]. simpl.
    intros y (_ & _ & Hp). lia.
Qed.

Lemma finditer_from_spec (r : regex) :
  forall s pos skip, yields fl r pos skip s (finditer_from fl r pos skip s).
Proof.
  induction s as [|a s IH]; intros pos skip; destruct skip as [|n]; simpl;
    try apply yields_nil.
  - destruct (match_here fl false r pos []) as [x|] eqn:E; [|apply yields_nil].
    pose proof (match_here_spec _ _ _ _ E) as (Hm & Hs & _ & _).
    pose proof (located_here _ _ _ _ E) as Hl.
    destruct (m_end x =? pos)%nat eqn:Ee.
    + apply Nat.eqb_eq in Ee.
      destruct (match_here fl true r pos []) as [y|] eqn:E'.
      * pose proof (match_here_spec _ _ _ _ E') as (Hm' & Hs' & _ & _).
        pose proof (located_here _ _ _ _ E') as Hl'.
        apply yields_cons with (e := pos); auto; try lia.
        apply yields_cons with (e := m_end y); auto; try lia.
        apply yields_nil.
      * apply yields_cons with (e := pos); auto; try lia. apply yields_nil.
    + apply yields_cons with (e := m_end x); auto. apply yields_nil.
  - destruct (match_here fl false r pos (a :: s)) as [x|] eqn:E.
    + pose proof (match_here_spec _ _ _ _ E) as (Hm & Hs & _ & _).
      pose proof (located_here _ _ _ _ E) as Hl.
      destruct (m_end x =? pos)%nat eqn:Ee.
      * apply Nat.eqb_eq in Ee.
        destruct (match_here fl true r pos (a :: s)) as [y|] eqn:E'.
        -- pose proof (match_here_spec _ _ _ _ E') as (Hm' & Hs' & _ & Hadv).
           pose proof (located_here _ _ _ _ E') as Hl'.
           specialize (Hadv eq_refl).
           apply yields_cons with (e := pos); auto; try lia.
           apply yields_cons with (e := m_end y); auto; try lia.
           set (n := (m_end y - pos - 1)%nat).
           replace (m_end y - pos)%nat with (S n) by lia.
           apply yields_tail, IH.
        -- apply yields_cons with (e := pos); auto; try lia.
           rewrite Nat.sub_diag.
           apply yields_weaken with (skip := 1%nat); [lia|].
           apply yields_tail, IH.
      * apply Nat.eqb_neq in Ee.
        assert (pos < m_end x)%nat.
        { destruct Hm as (s0 & s1 & _ & _ & He). lia. }
        apply yields_cons with (e := m_end x); auto.
        set (n := (m_end x - pos - 1)%nat).
        replace (m_end x - pos)%nat with (S n) by lia.
        apply yields_tail, IH.
    + apply yields_weaken with (skip := 1%nat); [lia|]. apply yields_tail, IH.
  - apply yields_tail, IH.
Qed.

(** ** Captured groups *)

Lemma den_last_group (r : regex) :
  forall i a, last_group r = Some (i, a) ->
  forall s c s' c', den fl r s c s' c' ->
  exists s1 c1 c2,
    den fl a s1 c1 s' c2
    /\ c' = (i, firstn (length s1 - length s') s1) :: c2.
Proof.
  induction r as [ | ch | | items | | r1 IH1 r2 IH2 | r1 IH1 r2 IH2
                 | j r IH | g lo hi r IH | r IH ];
    intros i a Hl s c s' c' Hd; try discriminate.
  simpl in Hd. destruct Hd as (s1 & c1 & H1 & H2).
  assert (Hcase : (r1 = Grp i a /\ r2 = Eps) \/ last_group r2 = Some (i, a)).
  { simpl in Hl. destruct r1; auto. destruct r2; auto.
    injection Hl as -> ->. auto. }
  destruct Hcase as [[-> ->]|Hl2].
  - simpl in H1, H2. destruct H1 as (c2 & H1 & ->). destruct H2 as [-> ->].
    exists s, c, c2. auto.
  - exact (IH2 _ _ Hl2 _ _ _ _ H2).
Qed.

(** The text of the last group of a match is what the group's
    expression consumed. *)
Lemma matched_last_group (r : regex) (x : rmatch) (i : nat) (a : regex) :
  matched fl r x -> last_group r = Some (i, a) ->
  exists s1 c1 s' c2,
    den fl a s1 c1 s' c2 /\ grp x i = firstn (length s1 - length s') s1.
Proof.
  intros (s & s' & Hd & _ & _) Hl.
  destruct (den_last_group _ Hl _ _ _ _ Hd) as (s1 & c1 & c2 & Ha & Hc).
  exists s1, c1, s', c2. split; [exact Ha|].
  unfold grp. rewrite Hc. simpl. rewrite Nat.eqb_refl. reflexivity.
Qed.

Lemma iter_cls (items : list item) :
  forall n s c s' c',
    iter (den fl (Cls items)) n s c s' c' ->
    c' = c
    /\ exists t, s = t ++ s' /\ length t = n
         /\ Forall (fun ch => existsb (item_matches fl ch) items = true) t.
Proof.
  induction n as [|n IH]; intros s c s' c' H; simpl in H.
  - destruct H as [-> ->]. split; [reflexivity|]. exists []. auto.
  - destruct H as (s1 & c1 & (ch & -> & Hch & ->) & H).
    apply IH in H. destruct H as (-> & t & -> & Hlen & Ht).
    split; [reflexivity|]. exists (ch :: t). simpl. auto.
Qed.

Lemma iter_chr (a : ascii) :
  forall n s c s' c',
    iter (den fl (Chr a)) n s c s' c' ->
    c' = c
    /\ exists t, s = t ++ s' /\ length t = n
         /\ Forall (fun ch => chr_matches fl a ch = true) t.
Proof.
  induction n as [|n IH]; intros s c s' c' H; simpl in H.
  - destruct H as [-> ->]. split; [reflexivity|]. exists []. auto.
  - destruct H as (s1 & c1 & (ch & -> & Hch & ->) & H).
    apply IH in H. destruct H as (-> & t & -> & Hlen & Ht).
    split; [reflexivity|]. exists (ch :: t). simpl. auto.
Qed.

(** ** Order of the matches *)

Lemma matched_length (r : regex) (x : rmatch) :
  matched fl r x -> (m_start x + minlen r <= m_end x)%nat.
Proof.
  intros (s & s' & Hd & Hs & He).
  destruct (den_prefix _ _ _ _ _ Hd) as (t & Ht & L).
  rewrite Ht in Hs. apply app_inv_tail in Hs. subst t. lia.
Qed.

Lemma StronglySorted_weaken (A : Type) (P : A -> Prop) (R R' : A -> A -> Prop) :
  (forall x y, P x -> R x y -> R' x y) ->
  forall l, Forall P l -> StronglySorted R l -> StronglySorted R' l.
Proof.
  intros HR. induction l as [|a l IH]; intros HP HS; constructor.
  - inversion HP; inversion HS; subst. apply IH; assumption.
  - inversion HP as [|? ? Ha Hl]; inversion HS as [|? ? Hs Hf]; subst.
    eapply Forall_impl; [|exact Hf]. intros y Hy. apply HR; assumption.
Qed.

(** The matches [finditer] yields for an expression that cannot match
    the empty string start at strictly increasing offsets. *)
Lemma finditer_from_increasing (r : regex) (s : list ascii) :
  (1 <= minlen r)%nat ->
  StronglySorted (fun x y => (m_start x < m_start y)%nat)
    (finditer_from fl r 0 0 s).
Proof.
  intros Hmin. destruct (finditer_from_spec r s 0 0) as [HF HS].
  apply StronglySorted_weaken
    with (P := matched fl r) (R := fun x y => (m_end x <= m_start y)%nat);
    [| |exact HS].
  - intros x y Hx Hxy. apply matched_length in Hx. lia.
  - eapply Forall_impl; [|exact HF]. simpl. tauto.
Qed.

End Soundness.

End ReFacts.

(** * Properties of binary64 arithmetic *)

Module Binary64.

Import Py Notions.

Local Unset Implicit Arguments.
Local Open Scope Z_scope.

(** ** Digits and shifts *)

Lemma size_digits (p : positive) : digits2_pos p = Pos.size p.
Proof. induction p as [p IH|p IH|]; simpl; congruence. Qed.

(** The number of binary digits is the logarithm plus one. *)
Lemma digits_log2 (p : positive) : Zpos (digits2_pos p) = Z.log2 (Zpos p) + 1.
Proof.
  rewrite size_digits. destruct p as [p|p|]; simpl; try reflexivity; lia.
Qed.

Lemma digits_iter_xO (p k : positive) :
  Zpos (digits2_pos (Pos.iter xO p k)) = Zpos (digits2_pos p) + Zpos k.
Proof.
  induction k as [|k IH] using Pos.peano_ind.
  - simpl. lia.
  - rewrite Pos.iter_succ. simpl digits2_pos. lia.
Qed.

Lemma digits_mono (p q : positive) :
  (p <= q)%positive -> Zpos (digits2_pos p) <= Zpos (digits2_pos q).
Proof.
  intros H. rewrite !digits_log2. apply Z.add_le_mono_r, Z.log2_le_mono. lia.
Qed.

(** ** Rounding to nearest, ties to even *)

Lemma shr_1_m (mrs : shr_record) :
  0 <= shr_m mrs -> shr_m (shr_1 mrs) = Z.div2 (shr_m mrs).
Proof.
  destruct mrs as [m r s]. destruct m as [|[p|p|]|p]; simpl; intros H;
    try reflexivity; lia.
Qed.

(** Shifting a mantissa to the right, one digit at a time. *)
Lemma iter_shr_m (p : positive) :
  forall mrs, 0 <= shr_m mrs ->
    shr_m (iter_pos shr_1 p mrs) = Z.shiftr (shr_m mrs) (Zpos p).
Proof.
  assert (step : forall mrs, 0 <= shr_m mrs ->
            shr_m (shr_1 mrs) = Z.shiftr (shr_m mrs) 1).
  { intros mrs H. rewrite shr_1_m, Z.div2_spec by exact H. reflexivity. }
  induction p as [p IH|p IH|]; intros mrs H; simpl iter_pos.
  - rewrite IH, IH, step by
      (try rewrite IH; try rewrite step; try apply Z.shiftr_nonneg;
       try rewrite step; try apply Z.shiftr_nonneg; assumption).
    rewrite !Z.shiftr_shiftr by lia. f_equal. lia.
  - rewrite IH, IH by (try rewrite IH; try apply Z.shiftr_nonneg; assumption).
    rewrite !Z.shiftr_shiftr by lia. f_equal. lia.
  - apply step. exact H.
Qed.

Lemma shr_spec (mrs : shr_record) (e n : Z) :
  0 <= shr_m mrs -> 0 <= n ->
  shr_m (fst (shr mrs e n)) = Z.shiftr (shr_m mrs) n /\ snd (shr mrs e n) = e + n.
Proof.
  intros Hm Hn. destruct n as [|p|p]; simpl; [| |lia].
  - split; [reflexivity|lia].
  - split; [apply iter_shr_m; exact Hm|reflexivity].
Qed.

Lemma shr_m_of_loc (m : Z) (l : location) : shr_m (shr_record_of_loc m l) = m.
Proof. destruct l as [|[]]; reflexivity. Qed.

Lemma round_cases (m : Z) (l : location) :
  round_nearest_even m l = m \/ round_nearest_even m l = m + 1.
Proof.
  destruct l as [|[]]; simpl; auto. destruct (Z.even m); auto.
Qed.

Lemma normal_from_weaken (k k' : Z) (x : spec_float) :
  k' <= k -> normal_from k x -> normal_from k' x.
Proof.
  intros Hk [H|(m & e & H & Hd & He)]; [left; exact H|].
  right. exists m, e. repeat split; try assumption; lia.
Qed.

(** Rounding a mantissa of 53 digits or more, out of the subnormal
    range: the result is an infinity or has a full mantissa, and its
    exponent is no less than the one that leaves 53 digits. *)
Lemma round_normal (p : positive) (ex : Z) :
  53 <= Zpos (digits2_pos p) -> -1074 <= ex ->
  normal_from (Zpos (digits2_pos p) + ex - 53)
    (binary_round_aux prec emax false (Zpos p) ex loc_Exact).
Proof.
  intros Hd Hex. unfold binary_round_aux, shr_fexp.
  set (d := Zpos (digits2_pos p)) in *.
  assert (Hlog : Z.log2 (Zpos p) = d - 1) by (unfold d; rewrite digits_log2; lia).
  change (Zdigits2 (Zpos p)) with d.
  remember (d + ex - 53) as k0 eqn:Hk0.
  replace (fexp prec emax (d + ex) - ex) with (d - 53)
    by (unfold fexp, SpecFloat.emin, prec, emax; lia).
  destruct (shr_spec (shr_record_of_loc (Zpos p) loc_Exact) ex (d - 53))
    as [Hm1 He1]; [simpl; lia|lia|].
  destruct (shr _ ex (d - 53)) as [mrs1 e1]. cbn [fst snd] in Hm1, He1.
  cbn [shr_m shr_record_of_loc] in Hm1.
  set (m1 := round_nearest_even (shr_m mrs1) (loc_of_shr_record mrs1)).
  assert (H52 : Z.log2 (shr_m mrs1) = 52).
  { rewrite Hm1, Z.log2_shiftr by lia. lia. }
  assert (Hpos : 0 < shr_m mrs1).
  { destruct (Z.lt_ge_cases 0 (shr_m mrs1)) as [|Hle]; [assumption|].
    rewrite (Z.log2_nonpos _ Hle) in H52. lia. }
  assert (Hm1' : 0 < m1 /\ (Z.log2 m1 = 52 \/ m1 = 2 ^ 53)).
  { destruct (round_cases (shr_m mrs1) (loc_of_shr_record mrs1)) as [E|E];
      fold m1 in E; rewrite E; [split; [lia|left; exact H52]|].
    split; [lia|].
    destruct (Z.log2_succ_or (shr_m mrs1)) as [Hs|Hs]; unfold Z.succ in Hs.
    - right. destruct (Z.log2_eq_succ_is_pow2 (shr_m mrs1) Hs) as [b Hb].
      unfold Z.succ in Hb. rewrite Hb in Hs |- *.
      assert (0 <= b).
      { destruct (Z.le_gt_cases 0 b) as [|Hneg]; [assumption|].
        rewrite (Z.pow_neg_r 2 b Hneg) in Hb. lia. }
      rewrite Z.log2_pow2 in Hs by assumption. f_equal. lia.
    - left. lia. }
  destruct Hm1' as [Hm1pos Hcase].
  assert (Hdig : Zdigits2 m1 = Z.log2 m1 + 1).
  { destruct m1 as [|q|q]; try lia. simpl Zdigits2. apply digits_log2. }
  rewrite Hdig.
  destruct Hcase as [Hc|Hc].
  - replace (fexp prec emax (Z.log2 m1 + 1 + e1) - e1) with 0
      by (unfold fexp, SpecFloat.emin, prec, emax; lia).
    cbn [shr shr_record_of_loc shr_m].
    destruct m1 as [|q|q]; try lia.
    unfold prec, emax. destruct (Z.leb_spec e1 (1024 - 53)); [|left; reflexivity].
    right. exists q, e1. split; [reflexivity|]. rewrite digits_log2. lia.
  - rewrite Hc. rewrite Z.log2_pow2 by lia.
    replace (fexp prec emax (53 + 1 + e1) - e1) with 1
      by (unfold fexp, SpecFloat.emin, prec, emax; lia).
    cbn. unfold prec, emax.
    destruct (Z.leb_spec (e1 + 1) 971); [|left; reflexivity].
    right. do 2 eexists. split; [reflexivity|]. split; [reflexivity|lia].
Qed.

(** The same for a mantissa of any length, aligned first. *)
Lemma binary_round_normal (p : positive) (ex : Z) :
  -1021 <= ex ->
  normal_from (Zpos (digits2_pos p) + ex - 53) (binary_round prec emax false p ex).
Proof.
  intros Hex. unfold binary_round, shl_align.
  set (d := Zpos (digits2_pos p)).
  replace (fexp prec emax (d + ex) - ex) with (d - 53)
    by (unfold fexp, SpecFloat.emin, prec, emax; lia).
  replace (fexp prec emax (d + ex)) with (d + ex - 53)
    by (unfold fexp, SpecFloat.emin, prec, emax; lia).
  destruct (d - 53) as [|k|k] eqn:Ek.
  - apply round_normal; fold d; lia.
  - apply round_normal; fold d; lia.
  - eapply normal_from_weaken; [|apply round_normal].
    + rewrite digits_iter_xO. fold d. lia.
    + rewrite digits_iter_xO. fold d. lia.
    + lia.
Qed.

(** Such a number is one of the format. *)
Lemma normal_valid (k : Z) (x : spec_float) :
  -1074 <= k -> normal_from k x -> SpecFloat.valid_binary prec emax x = true.
Proof.
  intros Hk [->|(m & e & -> & Hd & He)]; [reflexivity|].
  unfold SpecFloat.valid_binary, bounded, canonical_mantissa. rewrite Hd.
  apply andb_true_intro. split.
  - apply Z.eqb_eq. unfold fexp, SpecFloat.emin, prec, emax. lia.
  - apply Z.leb_le. unfold prec, emax. lia.
Qed.

(** The conversion of an integer of at least 2^j. *)
Lemma of_int_normal (j n : Z) :
  0 <= j -> 2 ^ j <= n ->
  normal_from (j - 52) (binary_normalize prec emax n 0 false).
Proof.
  intros Hj Hn. assert (0 < 2 ^ j) by (apply Z.pow_pos_nonneg; lia).
  destruct n as [|p|p]; try lia. cbn [binary_normalize].
  apply normal_from_weaken with (k := Zpos (digits2_pos p) + 0 - 53);
    [|apply binary_round_normal; lia].
  rewrite digits_log2.
  assert (j <= Z.log2 (Zpos p)); [|lia].
  rewrite <- (Z.log2_pow2 j Hj). apply Z.log2_le_mono. exact Hn.
Qed.

(** ** The score of a long list *)

(** The product by 0.02 of a number of at least 64 is at least 1. *)
Lemma mul_normal (x : spec_float) :
  normal_from (-46) x -> normal_from (-52) (SFmul prec emax x c002).
Proof.
  intros [->|(m & e & -> & Hd & He)]; [left; reflexivity|].
  cbn [SFmul c002 xorb].
  eapply normal_from_weaken; [|apply round_normal].
  - rewrite digits_log2 in *. rewrite Pos2Z.inj_mul.
    pose proof (Z.log2_mul_below (Zpos m) 5764607523034235 eq_refl eq_refl) as Hl.
    change (Z.log2 5764607523034235) with 52 in Hl. lia.
  - rewrite digits_log2 in *. rewrite Pos2Z.inj_mul.
    pose proof (Z.log2_mul_below (Zpos m) 5764607523034235 eq_refl eq_refl) as Hl.
    change (Z.log2 5764607523034235) with 52 in Hl. lia.
  - lia.
Qed.

(** The sum of 0.3 and a number of at least 1 is at least 1. *)
Lemma add_normal (y : spec_float) :
  normal_from (-52) y -> normal_from (-52) (SFadd prec emax c03 y).
Proof.
  intros [->|(m & e & -> & Hd & He)]; [left; reflexivity|].
  cbn [SFadd c03]. rewrite Z.min_l by lia.
  unfold shl_align at 1. rewrite Z.sub_diag. cbn [fst cond_Zopp].
  unfold shl_align. destruct (-54 - e) as [|q|q] eqn:Eq; try lia.
  cbn [fst binary_normalize Z.add].
  eapply normal_from_weaken; [|apply binary_round_normal; lia].
  pose proof (digits_mono (Pos.iter xO m q) (5404319552844595 + Pos.iter xO m q)) as Hm.
  rewrite digits_iter_xO in Hm. lia.
Qed.

(** A number of at least 1 is not below 0.9. *)
Lemma ltb_normal (x : spec_float) :
  normal_from (-52) x -> SFltb x c09 = false.
Proof.
  intros [->|(m & e & -> & Hd & He)]; [reflexivity|].
  unfold SFltb, SFcompare, c09.
  destruct (Z.compare_spec e (-53)); first [reflexivity | lia].
Qed.

(** From 64 transactions on the sum is not below 0.9. *)
Lemma score_cap_large (n : Z) :
  64 <= n ->
  PrimFloat.ltb (0.3 + float_of_int n * 0.02)%float 0.9%float = false.
Proof.
  intros Hn. rewrite ltb_spec, add_spec, mul_spec. unfold float_of_int.
  assert (Hnorm : normal_from (-46) (binary_normalize prec emax n 0 false)).
  { apply (of_int_normal 6 n); [lia|exact Hn]. }
  rewrite Prim2SF_SF2Prim by (eapply normal_valid; [|exact Hnorm]; lia).
  change (Prim2SF 0.02%float) with c002.
  change (Prim2SF 0.3%float) with c03.
  change (Prim2SF 0.9%float) with c09.
  apply ltb_normal, add_normal, mul_normal, Hnorm.
Qed.

(** From fifty transactions on the score is the bound 0.9, whatever
    the length of the list: by the bounds above from 64 on, by
    evaluation from 50 to 63. *)
Lemma score_cap (n : nat) :
  (50 <= n)%nat ->
  py_min 0.9 (0.3 + float_of_int (Z.of_nat n) * 0.02)%float = 0.9%float.
Proof.
  intros Hn. unfold py_min.
  destruct (Nat.le_gt_cases 64 n) as [Hl|Hs].
  - rewrite score_cap_large by lia. reflexivity.
  - do 50 (destruct n as [|n]; [lia|]).
    do 14 (destruct n as [|n]; [vm_compute; reflexivity|]). lia.
Qed.

(** ** The product commutes *)

Lemma SFmul_comm (x y : spec_float) : SFmul prec emax x y = SFmul prec emax y x.
Proof.
  destruct x as [sx|sx| |sx mx ex], y as [sy|sy| |sy my ey]; cbn [SFmul];
    try reflexivity; try (rewrite xorb_comm; reflexivity).
  rewrite xorb_comm, Pos.mul_comm, Z.add_comm. reflexivity.
Qed.

Lemma mul_comm (x y : float) : (x * y)%float = (y * x)%float.
Proof.
  apply Prim2SF_inj. rewrite !mul_spec. apply SFmul_comm.
Qed.

End Binary64.

(** * Properties of the parser *)

Module ParserFacts.

Import Py Re Lib Parser ReFacts Notions Binary64.

Local Open Scope string_scope.
Local Open Scope list_scope.

(** ** The patterns of the program *)

(** Every pattern of the program is in the fragment of the matcher. *)
Lemma patterns_compile :
  forallb (fun q => is_some (compile_with (fst q) (snd q)))
    (map (fun e => (Flags false false, snd e)) institution_patterns
     ++ map (fun e => (IGNORECASE, snd e)) category_patterns
     ++ map (fun p => (Flags false false, p))
          (["(?i)credit\s+card|credit\s+account|APR|cash\s+advance";
            "(?i)checking|savings|bank\s+statement|deposit|ATM|withdraw";
            "(?i)investment|portfolio|securities|brokerage|fund|stock|bond"]
           ++ account_patterns ++ name_patterns ++ period_patterns
           ++ closing_patterns "credit_card" ++ opening_patterns
           ++ [chase_tx_pattern; bofa_tx_pattern; amex_tx_pattern]
           ++ map combined_pattern date_patterns)
     ++ map (fun h => (DOTALL_IGNORECASE, (h ++ section_tail)%string))
          transaction_headers)
  = true.
Proof. vm_compute. reflexivity. Qed.

(** So is the pattern of every date format the program uses. *)
Lemma formats_compile :
  forallb
    (fun f =>
       match format_regex (chars f) with
       | Some (re, _) => is_some (compile_with (Flags true false) re)
       | None => false
       end)
    ["%m/%d/%Y"; "%m/%d/%y"; "%m-%d-%Y"; "%m-%d-%y"]
  = true.
Proof. vm_compute. reflexivity. Qed.

(** ** Ordered pattern tables *)

Lemma first_match_hit (fl : flags) (text : string) (id p : string)
  (post : list (string * string)) :
  forall pre,
    Forall (fun e => is_some (re_search_flags fl (snd e) text) <> true) pre ->
    is_some (re_search_flags fl p text) = true ->
    first_match fl (pre ++ (id, p) :: post) text = Some id.
Proof.
  induction pre as [|[id' p'] pre IH]; intros Hpre Hp; simpl.
  - rewrite Hp. reflexivity.
  - inversion Hpre as [|e l He Hl]; subst. simpl in He.
    destruct (is_some (re_search_flags fl p' text)); [congruence|].
    apply IH; assumption.
Qed.

Lemma first_match_miss (fl : flags) (text : string) :
  forall table,
    Forall (fun e => is_some (re_search_flags fl (snd e) text) <> true) table ->
    first_match fl table text = None.
Proof.
  induction table as [|[id p] table IH]; intros H; simpl; [reflexivity|].
  inversion H as [|e l He Hl]; subst. simpl in He.
  destruct (is_some (re_search_flags fl p text)); [congruence|].
  apply IH; assumption.
Qed.

(** A matching entry at some rank makes the loop stop at that rank or
    before it, on an entry that matches. *)
Lemma first_match_earlier (fl : flags) (text : string) (id p : string)
  (post : list (string * string)) :
  forall pre,
    is_some (re_search_flags fl p text) = true ->
    exists pre' id' p' post',
      pre ++ (id, p) :: post = pre' ++ (id', p') :: post'
      /\ first_match fl (pre ++ (id, p) :: post) text = Some id'
      /\ (length pre' <= length pre)%nat
      /\ is_some (re_search_flags fl p' text) = true.
Proof.
  induction pre as [|[id0 p0] pre IH]; intros Hp; simpl.
  - exists [], id, p, post. simpl. rewrite Hp. auto.
  - destruct (is_some (re_search_flags fl p0 text)) eqn:E.
    + exists [], id0, p0, (pre ++ (id, p) :: post). simpl.
      repeat split; auto. lia.
    + destruct (IH Hp) as (pre' & id' & p' & post' & Heq & Hf & Hl & Hm).
      exists ((id0, p0) :: pre'), id', p', post'. simpl.
      split; [rewrite Heq; reflexivity|]. repeat split; auto. lia.
Qed.

(** C6. The institution classifier tries the patterns of its table in
    declaration order and answers the first institution whose pattern is
    found; it answers "unknown" when none is.  So when the patterns of
    two institutions are both found, the answer is an institution
    declared no later than either, and a text with both the Chase and
    the Bank of America patterns is classified as "chase". *)
Theorem detect_institution_first_match (text : string) :
  (forall pre id p post,
      institution_patterns = pre ++ (id, p) :: post ->
      Forall (fun e => ~ found (snd e) text) pre ->
      found p text ->
      _detect_institution text = id)
  /\ (Forall (fun e => ~ found (snd e) text) institution_patterns ->
      _detect_institution text = "unknown")
  /\ (forall pre id p post,
        institution_patterns = pre ++ (id, p) :: post ->
        found p text ->
        exists pre' p' post',
          institution_patterns
          = pre' ++ (_detect_institution text, p') :: post'
          /\ (length pre' <= length pre)%nat /\ found p' text)
  /\ (found "(?i)CHASE|JPMorgan Chase" text ->
      found "(?i)Bank\s+of\s+America|BOFA" text ->
      _detect_institution text = "chase").
Proof.
  unfold _detect_institution. repeat split.
  - intros pre id p post Heq Hpre Hp. rewrite Heq.
    rewrite first_match_hit; auto.
  - intros H. rewrite first_match_miss; auto.
  - intros pre id p post Heq Hp. rewrite Heq.
    destruct (@first_match_earlier (Flags false false) text id p post pre Hp)
      as (pre' & id' & p' & post' & Heq' & Hf & Hl & Hm).
    rewrite Hf. exists pre', p', post'. auto.
  - intros Hc _.
    change institution_patterns
      with ([] ++ ("chase", "(?i)CHASE|JPMorgan Chase") :: tl institution_patterns).
    rewrite first_match_hit; auto.
Qed.

Lemma detect_institution_witness :
  _detect_institution "Bank of America card services, formerly Chase" = "chase".
Proof.
  apply (proj2 (proj2 (proj2
    (detect_institution_first_match
       "Bank of America card services, formerly Chase")))).
  - vm_compute. reflexivity.
  - vm_compute. reflexivity.
Defined.

(** ** Confidence scores *)

(** The map the scorer builds, entry by entry. *)
Lemma calculated (today : datetime) (ai : AccountInfo) (p : Period)
  (b : Balance) (txs : list Transaction) :
  let a := if negb (String.eqb (ai_number ai) "Unknown")
           then 0.9%float else 0.3%float in
  let pe := if (year (p_start p) =? year today)%Z
               && (month (p_start p) =? month today)%Z
               && (day (p_start p) =? 1)%Z
            then 0.3%float else 0.9%float in
  let ba := match b_opening b with Some _ => 0.8%float | None => 0.5%float end in
  let t := transactions_score (length txs) in
  _calculate_confidence today ai p b txs
  = [ ("account_info", a); ("period", pe); ("balance", ba);
      ("transactions", t); ("overall", ((a + pe + ba + t) / 4)%float) ].
Proof.
  cbv zeta. unfold _calculate_confidence, transactions_score.
  destruct (0 <? length txs)%nat; reflexivity.
Qed.

Lemma parse_confidence (now today : datetime) (text : string) (r : StatementResult) :
  parse now today text = Ok r ->
  sr_confidence r
  = _calculate_confidence today (sr_account_info r) (sr_period r)
      (sr_balance r) (sr_transactions r).
Proof.
  intros H. unfold parse in H.
  destruct (_extract_balance _ _ _) as [b|]; [|discriminate H].
  destruct (_extract_transactions _ _ _ _) as [txs|]; [|discriminate H].
  cbn [bind] in H. injection H as <-. reflexivity.
Qed.

(** C7. The confidence map of every assembled result is the one the
    reference definition gives, each operation being the binary64 one
    of the code: 0.9 or 0.3 for the account number, 0.8 or 0.5 for the
    balance, for the transactions 0.1 when there are none and
    min(0.9, 0.3 + 0.02 * count) otherwise, which is 0.4 for five
    transactions and 0.9 from fifty on, and for the whole the sum of the
    four scores, added from left to right, divided by 4.  In binary64
    the bound 0.9 is reached from 31 transactions on: for 30 the score
    is 0.8999999999999999. *)
Theorem confidence_reference (today : datetime) :
  (forall ai p b txs,
      let conf := _calculate_confidence today ai p b txs in
      conf = confidence_spec today ai p b txs
      /\ exists a pe ba t o,
           dict_get conf "account_info" = Some a
           /\ dict_get conf "period" = Some pe
           /\ dict_get conf "balance" = Some ba
           /\ dict_get conf "transactions" = Some t
           /\ dict_get conf "overall" = Some o
           /\ a = (if String.eqb (ai_number ai) "Unknown"
                   then 0.3%float else 0.9%float)
           /\ ba = match b_opening b with
                   | Some _ => 0.8%float
                   | None => 0.5%float
                   end
           /\ (txs = [] -> t = 0.1%float)
           /\ (txs <> [] ->
               t = py_min 0.9
                     (0.3 + 0.02 * float_of_int (Z.of_nat (length txs)))%float)
           /\ (length txs = 5%nat -> t = 0.4%float)
           /\ (50 <= length txs -> t = 0.9%float)%nat
           /\ (length txs = 30%nat -> t = 0.8999999999999999%float)
           /\ o = ((a + pe + ba + t) / 4)%float)
  /\ (forall now text r,
        parse now today text = Ok r ->
        sr_confidence r
        = _calculate_confidence today (sr_account_info r) (sr_period r)
            (sr_balance r) (sr_transactions r)).
Proof.
  split; [|exact (fun now => parse_confidence now today)].
  intros ai p b txs conf. subst conf. rewrite calculated. cbv zeta.
  unfold confidence_spec, transactions_score.
  rewrite (mul_comm 0.02 (float_of_int (Z.of_nat (length txs)))).
  split.
  - destruct (String.eqb (ai_number ai) "Unknown"); destruct txs; reflexivity.
  - do 5 eexists. cbn [dict_get String.eqb Ascii.eqb Bool.eqb].
    repeat (split; [reflexivity|]).
    split; [destruct (String.eqb (ai_number ai) "Unknown"); reflexivity|].
    split; [reflexivity|].
    split; [intros ->; reflexivity|].
    split; [intros H; destruct txs; [contradiction|reflexivity]|].
    split; [intros ->; vm_compute; reflexivity|].
    split.
    { intros H. destruct (length txs) as [|n] eqn:E; [lia|].
      cbn [Nat.ltb Nat.leb]. apply score_cap. exact H. }
    split; [intros ->; vm_compute; reflexivity|reflexivity].
Qed.

Lemma confidence_reference_witness :
  exists r,
    parse (Datetime 2026 11 3 10 20 30 0) (Datetime 2026 11 3 10 20 31 0)
      "Chase checking account
Account Number: ****1234
Statement Period: 01/01/2023 to 01/31/2023
Opening Balance: $100.00
Closing Balance: $50.00
Transactions
01/02/2023 COFFEE -$5.00
01/03/2023 UBER -$15.00
01/04/2023 PAYROLL $500.00
01/05/2023 RENT -$400.00
01/06/2023 PIZZA -$130.00" = Ok r
    /\ length (sr_transactions r) = 5%nat
    /\ sr_confidence r
       = [ ("account_info", 0.9%float); ("period", 0.9%float);
           ("balance", 0.8%float); ("transactions", 0.4%float);
           ("overall", 0.75%float) ].
Proof.
  match goal with
  | |- exists r, parse ?now ?today ?text = _ /\ _ =>
      pose proof (proj2 (confidence_reference today) now text) as H;
      destruct (parse now today text) as [r|] eqn:E
  end.
  - exists r. split; [reflexivity|]. rewrite (H r eq_refl).
    vm_compute in E. injection E as <-.
    split; [reflexivity|vm_compute; reflexivity].
  - vm_compute in E. discriminate E.
Defined.

(** ** Period *)

Lemma not_found_none (p text : string) :
  ~ found p text -> re_search p text = None.
Proof.
  unfold found. destruct (re_search p text); simpl; [congruence|reflexivity].
Qed.

Lemma first_search_miss (text : string) :
  forall ps, Forall (fun p => ~ found p text) ps -> first_search ps text = None.
Proof.
  induction ps as [|p ps IH]; intros H; simpl; [reflexivity|].
  inversion H as [|q l Hp Hps]; subst.
  rewrite (not_found_none Hp). apply IH. exact Hps.
Qed.

(** C8. When no period phrasing is found in the text, the period is the
    default one: from the first day of the current month to the current
    time.  The scorer gives the period 0.3 when its start is the first
    day of the month and year current at scoring time, and 0.9
    otherwise; so the default period scores 0.3 as long as the month has
    not changed in between. *)
Theorem default_period_detection (now : datetime)
  (text institution statement_type : string) :
  Forall (fun p => ~ found p text) period_patterns ->
  _extract_period now text institution statement_type = default_period now
  /\ (forall today ai p b txs,
        (year (p_start p) = year today /\ month (p_start p) = month today
         /\ day (p_start p) = 1%Z ->
         dict_get (_calculate_confidence today ai p b txs) "period"
         = Some 0.3%float)
        /\ (~ (year (p_start p) = year today /\ month (p_start p) = month today
               /\ day (p_start p) = 1%Z) ->
            dict_get (_calculate_confidence today ai p b txs) "period"
            = Some 0.9%float))
  /\ (forall today ai b txs,
        year today = year now -> month today = month now ->
        dict_get
          (_calculate_confidence today ai
             (_extract_period now text institution statement_type) b txs)
          "period"
        = Some 0.3%float).
Proof.
  intros Hnone.
  assert (Hdef : _extract_period now text institution statement_type
                 = default_period now).
  { unfold _extract_period. rewrite (first_search_miss Hnone). reflexivity. }
  assert (Hscore : forall today ai p b txs,
    dict_get (_calculate_confidence today ai p b txs) "period"
    = Some (if (year (p_start p) =? year today)%Z
               && (month (p_start p) =? month today)%Z
               && (day (p_start p) =? 1)%Z
            then 0.3%float else 0.9%float)).
  { intros today ai p b txs. unfold _calculate_confidence.
    destruct (0 <? length txs)%nat; reflexivity. }
  split; [exact Hdef|]. split.
  - intros today ai p b txs. rewrite Hscore. split.
    + intros (Hy & Hm & Hd). rewrite Hy, Hm, Hd, !Z.eqb_refl. reflexivity.
    + intros Hn.
      destruct (Z.eqb_spec (year (p_start p)) (year today));
        destruct (Z.eqb_spec (month (p_start p)) (month today));
        destruct (Z.eqb_spec (day (p_start p)) 1); simpl; try reflexivity.
      exfalso. apply Hn. auto.
  - intros today ai b txs Hy Hm. rewrite Hscore, Hdef. simpl.
    rewrite Hy, Hm, !Z.eqb_refl. reflexivity.
Qed.

Lemma default_period_detection_witness :
  _extract_period (Datetime 2026 11 3 10 20 30 0) "no dates here" "unknown" "unknown"
  = default_period (Datetime 2026 11 3 10 20 30 0).
Proof.
  refine (proj1 (@default_period_detection (Datetime 2026 11 3 10 20 30 0)
                   "no dates here" "unknown" "unknown" _)).
  repeat constructor; vm_compute; discriminate.
Defined.

(** ** The text of a failed extraction *)

(** C10. On the text handed over when nothing could be read, the
    pipeline does not raise: it answers institution and statement type
    "unknown", account number "Unknown" with no name, the default
    period, closing balance 0.0 with no opening balance, and no
    transaction. *)
Theorem sentinel_defaults (now today : datetime) :
  _detect_institution extraction_failed = "unknown"
  /\ _detect_statement_type extraction_failed = "unknown"
  /\ exists r,
       parse now today extraction_failed = Ok r
       /\ sr_account_info r
          = mkAccountInfo "Unknown" None (Some "unknown") (Some "unknown")
       /\ sr_period r = default_period now
       /\ sr_balance r = mkBalance 0 None
       /\ sr_transactions r = [].
Proof.
  assert (Hi : _detect_institution extraction_failed = "unknown")
    by (vm_compute; reflexivity).
  assert (Ht : _detect_statement_type extraction_failed = "unknown")
    by (vm_compute; reflexivity).
  assert (Hb : _extract_balance extraction_failed "unknown" "unknown"
               = Ok (mkBalance 0 None)) by (vm_compute; reflexivity).
  assert (Hx : _extract_transactions now extraction_failed "unknown" "unknown"
               = Ok []) by (vm_compute; reflexivity).
  assert (Hp : _extract_period now extraction_failed "unknown" "unknown"
               = default_period now) by (vm_compute; reflexivity).
  repeat split; auto.
  unfold parse. rewrite Hi, Ht, Hb, Hx, Hp. simpl.
  eexists. split; [reflexivity|]. simpl. repeat split.
Qed.

(** ** Tokens *)

Unset Implicit Arguments.

Ltac char_cases ch := destruct ch as [[] [] [] [] [] [] [] []].

Lemma digit_cases (ch : ascii) :
  is_digit ch = true -> In ch (chars "0123456789").
Proof.
  char_cases ch; vm_compute; intros H; try discriminate;
    repeat (first [left; reflexivity | right]).
Qed.

Lemma chr_exact (fl : flags) (a ch : ascii) :
  In a (chars "$.,-+") -> chr_matches fl a ch = true -> ch = a.
Proof.
  intros Ha. simpl in Ha. destruct fl as [[] d];
    decompose [or] Ha; subst; try contradiction;
    char_cases ch; vm_compute; intros H;
    first [reflexivity | discriminate].
Qed.

Ltac digit_fact d H :=
  apply digit_cases in H; simpl in H;
  decompose [or] H; subst; try contradiction; try reflexivity;
  try discriminate.

Lemma digit_not_space (d : ascii) : is_digit d = true -> is_space d = false.
Proof. intros H. digit_fact d H. Qed.

Lemma digit_kept (d : ascii) :
  is_digit d = true -> clean_amount [d] = [d].
Proof. intros H. digit_fact d H. Qed.

Lemma digit_not_dot (d : ascii) :
  is_digit d = true -> Ascii.eqb d "." = false.
Proof. intros H. digit_fact d H. Qed.

Lemma digit_not_minus (d : ascii) (l : list ascii) :
  is_digit d = true -> startswith "-" (d :: l) = false.
Proof. intros H. digit_fact d H. Qed.

Lemma clean_amount_app (a b : list ascii) :
  clean_amount (a ++ b) = clean_amount a ++ clean_amount b.
Proof. unfold clean_amount, remove_char. rewrite !filter_app. reflexivity. Qed.

(** Cleaning a run of digits and commas leaves its digits. *)
Lemma clean_body (body : list ascii) :
  Forall (fun ch => is_digit ch = true \/ ch = ","%char) body ->
  Forall (fun ch => is_digit ch = true) (clean_amount body)
  /\ match body with
     | ch :: _ => startswith "-" body = false
     | [] => True
     end.
Proof.
  intros H. split.
  - induction H as [|ch body [Hd| ->] Hb IH].
    + constructor.
    + change (ch :: body) with ([ch] ++ body).
      rewrite clean_amount_app, (digit_kept _ Hd). simpl. constructor; assumption.
    + exact IH.
  - destruct H as [|ch body [Hd| ->] Hb]; auto.
    apply digit_not_minus. exact Hd.
Qed.

Lemma digits_all (l : list ascii) :
  Forall (fun ch => is_digit ch = true) l ->
  forall acc, (0 <= acc)%Z -> exists n, digits acc l = Some n /\ (0 <= n)%Z.
Proof.
  induction 1 as [|ch l Hd Hl IH]; intros acc Hacc; cbn [digits].
  - exists acc. auto.
  - rewrite Hd. apply IH.
    assert (0 <= digit ch)%Z by (digit_fact ch Hd; vm_compute; discriminate).
    lia.
Qed.

Lemma split_at_dot_digits (i f : list ascii) :
  Forall (fun ch => is_digit ch = true) i ->
  split_at_dot (i ++ "."%char :: f) = (i, Some f).
Proof.
  induction 1 as [|ch i Hd Hi IH]; simpl; [reflexivity|].
  rewrite (digit_not_dot _ Hd), IH. reflexivity.
Qed.

(** A run of digits, a point and two digits is a decimal numeral, of a
    value that is not negative. *)
Lemma unsigned_decimal_digits (i : list ascii) (d1 d2 : ascii) :
  Forall (fun ch => is_digit ch = true) i ->
  is_digit d1 = true -> is_digit d2 = true ->
  exists v, unsigned_decimal (i ++ ["."%char; d1; d2]) = Some v /\ 0 <= v.
Proof.
  intros Hi H1 H2. unfold unsigned_decimal.
  rewrite (split_at_dot_digits _ _ Hi).
  assert (Hall : Forall (fun ch => is_digit ch = true) (i ++ [d1; d2])).
  { apply Forall_app. split; [exact Hi|]. repeat constructor; assumption. }
  destruct (digits_all _ Hall 0%Z) as (n & Hn & Hpos); [lia|].
  destruct (i ++ [d1; d2]) as [|a all] eqn:E.
  { destruct i; discriminate. }
  rewrite Hn. eexists. split; [reflexivity|].
  rewrite Qred_correct. unfold Qle. simpl. lia.
Qed.

Lemma strip_id (a z : ascii) (l : list ascii) :
  is_space a = false -> is_space z = false ->
  strip (a :: l ++ [z]) = a :: l ++ [z].
Proof.
  intros Ha Hz. unfold strip. cbn [lstrip]. rewrite Ha.
  rewrite app_comm_cons, rev_app_distr. cbn [rev app lstrip]. rewrite Hz.
  cbn [rev]. rewrite rev_app_distr, rev_involutive. reflexivity.
Qed.

Lemma last3 (i : list ascii) (x y z : ascii) :
  i ++ [x; y; z] = (i ++ [x; y]) ++ [z].
Proof. rewrite <- app_assoc. reflexivity. Qed.

Lemma float_amount_token (tok : list ascii) :
  amount_token tok ->
  exists v,
    float (clean_amount tok) = Some v
    /\ startswith "-" (clean_amount tok) = startswith "-" tok
    /\ (if startswith "-" tok then v <= 0 else 0 <= v).
Proof.
  intros (sg & dl & body & d1 & d2 & -> & Hsg & Hdl & Hbody & H1 & H2).
  destruct (clean_body _ Hbody) as [Hcb Hhead].
  assert (Hclean : clean_amount (sg ++ dl ++ body ++ ["."%char; d1; d2])
                   = sg ++ clean_amount body ++ ["."%char; d1; d2]).
  { rewrite !clean_amount_app.
    change ["."%char; d1; d2] with (["."%char] ++ [d1] ++ [d2]).
    rewrite !clean_amount_app, (digit_kept _ H1), (digit_kept _ H2).
    destruct Hsg as [->|[->| ->]]; destruct Hdl as [->| ->]; reflexivity. }
  rewrite Hclean.
  destruct (unsigned_decimal_digits _ d1 d2 Hcb H1 H2) as (v & Hv & Hpos).
  pose proof (digit_not_space _ H2) as Hz.
  destruct Hsg as [->|[->| ->]].
  - assert (E : startswith "-" (dl ++ body ++ ["."%char; d1; d2]) = false).
    { destruct Hdl as [->| ->]; [|reflexivity]. cbn [app].
      destruct body as [|ch body]; [reflexivity|]. exact Hhead. }
    assert (E' : startswith "-" (clean_amount body ++ ["."%char; d1; d2]) = false).
    { destruct (clean_amount body) as [|b i]; [reflexivity|].
      inversion Hcb as [|? ? Hb Hi]; subst.
      exact (digit_not_minus _ _ Hb). }
    exists v. cbn [app]. rewrite E, E'. repeat split; [|exact Hpos].
    unfold float. destruct (clean_amount body) as [|b i] eqn:Ei.
    + cbn [app] in *. change ["."%char; d1; d2] with ("."%char :: [d1] ++ [d2]).
      rewrite strip_id by (auto; reflexivity). exact Hv.
    + inversion Hcb as [|? ? Hb Hi]; subst.
      cbn [app] in *. rewrite last3, strip_id, <- last3;
        auto using digit_not_space.
      rewrite <- Hv. clear Hv E'. digit_fact b Hb.
  - exists (- v). cbn [app startswith Ascii.eqb Bool.eqb]. repeat split.
    + unfold float. rewrite last3, strip_id, <- last3; auto.
      rewrite Hv. reflexivity.
    + rewrite <- (Qopp_involutive 0). apply Qopp_le_compat. exact Hpos.
  - exists v. cbn [app startswith Ascii.eqb Bool.eqb]. repeat split.
    + unfold float. rewrite last3, strip_id, <- last3; auto.
    + exact Hpos.
Qed.

(** ** The shape of what the amount groups capture *)

Ltac in_list := simpl; repeat (first [left; reflexivity | right]).

Section Shapes.

Variable fl : flags.

Lemma short_run (n : nat) (t : list ascii) (P : ascii -> Prop) :
  (n <= 1)%nat -> length t = n -> Forall P t ->
  t = [] \/ exists ch, t = [ch] /\ P ch.
Proof.
  intros Hn Hl Ht. destruct t as [|ch [|ch' t]]; simpl in Hl; try lia; auto.
  right. exists ch. inversion Ht; auto.
Qed.

Lemma sign_opt_shape (s : list ascii) (c : caps) (s' : list ascii) (c' : caps) :
  den fl sign_opt s c s' c' ->
  c' = c /\ exists t, s = t ++ s'
                      /\ (t = [] \/ t = ["-"%char] \/ t = ["+"%char]).
Proof.
  intros (n & _ & Hn & H). apply iter_cls in H.
  destruct H as (-> & t & -> & Hl & Ht). split; [reflexivity|].
  exists t. split; [reflexivity|].
  destruct (short_run n t _ Hn Hl Ht) as [->|(ch & -> & Hch)]; auto.
  cbn [existsb item_matches] in Hch. rewrite orb_false_r in Hch.
  apply orb_true_iff in Hch. destruct Hch as [Hch|Hch];
    (apply chr_exact in Hch; [|in_list]); subst; auto.
Qed.

Lemma dollar_shape (a : regex) (s : list ascii) (c : caps) (s' : list ascii)
  (c' : caps) :
  In a [Chr "$"; Rep true 0 (Some 1%nat) (Chr "$");
        Rep true 0 (Some 1%nat) (Cls [IChar "$"])] ->
  den fl a s c s' c' ->
  c' = c /\ exists t, s = t ++ s' /\ (t = [] \/ t = ["$"%char]).
Proof.
  intros [<-|[<-|[<-|[]]]] H.
  - destruct H as (ch & -> & Hch & ->). apply chr_exact in Hch; [|in_list].
    subst. split; [reflexivity|]. exists ["$"%char]. auto.
  - destruct H as (n & _ & Hn & H). apply iter_chr in H.
    destruct H as (-> & t & -> & Hl & Ht). split; [reflexivity|].
    exists t. split; [reflexivity|].
    destruct (short_run n t _ Hn Hl Ht) as [->|(ch & -> & Hch)]; auto.
    apply chr_exact in Hch; [|in_list]. subst. auto.
  - destruct H as (n & _ & Hn & H). apply iter_cls in H.
    destruct H as (-> & t & -> & Hl & Ht). split; [reflexivity|].
    exists t. split; [reflexivity|].
    destruct (short_run n t _ Hn Hl Ht) as [->|(ch & -> & Hch)]; auto.
    cbn [existsb item_matches] in Hch. rewrite orb_false_r in Hch.
    apply chr_exact in Hch; [|in_list]. subst. auto.
Qed.

Lemma amount_tail_shape (s : list ascii) (c : caps) (s' : list ascii) (c' : caps) :
  den fl amount_tail s c s' c' ->
  c' = c
  /\ exists body d1 d2,
       s = body ++ ["."%char; d1; d2] ++ s'
       /\ Forall (fun ch => is_digit ch = true \/ ch = ","%char) body
       /\ is_digit d1 = true /\ is_digit d2 = true.
Proof.
  intros (s1 & c1 & (n & _ & _ & Hb) & s2 & c2 & (ch & -> & Hdot & ->)
          & s3 & c3 & (k & Hk2 & Hk2' & Hd) & -> & ->).
  apply iter_cls in Hb. destruct Hb as (-> & body & -> & _ & Hbody).
  apply iter_cls in Hd. destruct Hd as (-> & dd & -> & Hl & Hdd).
  apply chr_exact in Hdot; [|in_list]. subst ch.
  split; [reflexivity|].
  destruct dd as [|d1 [|d2 [|d3 dd]]]; simpl in Hl; try lia.
  exists body, d1, d2. split; [reflexivity|]. split.
  - eapply Forall_impl; [|exact Hbody]. intros ch Hch.
    cbn [existsb item_matches] in Hch. rewrite orb_false_r in Hch.
    apply orb_true_iff in Hch. destruct Hch as [Hch|Hch]; auto.
    apply chr_exact in Hch; [|in_list]. auto.
  - inversion Hdd as [|? ? Hd1 Hdd']; subst.
    inversion Hdd' as [|? ? Hd2 _]; subst.
    cbn [existsb item_matches] in Hd1, Hd2. rewrite orb_false_r in Hd1, Hd2.
    auto.
Qed.

Lemma amount_expr_shape (a : regex) (s : list ascii) (c : caps)
  (s' : list ascii) (c' : caps) :
  In a amount_exprs -> den fl a s c s' c' ->
  amount_token (firstn (length s - length s') s).
Proof.
  intros Ha H.
  assert (Hparts : exists sg dl body d1 d2,
    s = (sg ++ dl ++ body ++ ["."%char; d1; d2]) ++ s'
    /\ (sg = [] \/ sg = ["-"%char] \/ sg = ["+"%char])
    /\ (dl = [] \/ dl = ["$"%char])
    /\ Forall (fun ch => is_digit ch = true \/ ch = ","%char) body
    /\ is_digit d1 = true /\ is_digit d2 = true).
  { destruct Ha as [<-|[<-|[<-|[]]]].
    - destruct H as (s1 & c1 & Hs & s2 & c2 & Hd & Ht).
      apply sign_opt_shape in Hs. destruct Hs as (_ & sg & -> & Hsg).
      apply dollar_shape in Hd; [|simpl; auto].
      destruct Hd as (_ & dl & -> & Hdl).
      apply amount_tail_shape in Ht.
      destruct Ht as (_ & body & d1 & d2 & -> & Hbody & H1 & H2).
      exists sg, dl, body, d1, d2. rewrite <- !app_assoc. repeat split; auto.
    - destruct H as (s1 & c1 & Hs & s2 & c2 & Hd & Ht).
      apply sign_opt_shape in Hs. destruct Hs as (_ & sg & -> & Hsg).
      apply dollar_shape in Hd; [|simpl; auto].
      destruct Hd as (_ & dl & -> & Hdl).
      apply amount_tail_shape in Ht.
      destruct Ht as (_ & body & d1 & d2 & -> & Hbody & H1 & H2).
      exists sg, dl, body, d1, d2. rewrite <- !app_assoc. repeat split; auto.
    - destruct H as (s2 & c2 & Hd & Ht).
      apply dollar_shape in Hd; [|simpl; auto].
      destruct Hd as (_ & dl & -> & Hdl).
      apply amount_tail_shape in Ht.
      destruct Ht as (_ & body & d1 & d2 & -> & Hbody & H1 & H2).
      exists [], dl, body, d1, d2. rewrite <- !app_assoc. repeat split; auto. }
  destruct Hparts as (sg & dl & body & d1 & d2 & -> & Hrest).
  rewrite firstn_consumed. exists sg, dl, body, d1, d2. auto.
Qed.

End Shapes.

(** ** Matches of the program's patterns *)

Lemma finditer_matched (p text : string) (x : rmatch) :
  In x (re_finditer p text) ->
  matched (pat_flags (re_compile (Flags false false) p))
    (pat_re (re_compile (Flags false false) p)) x.
Proof.
  intros Hin. unfold re_finditer, finditer in Hin.
  destruct (finditer_from_spec (pat_flags (re_compile (Flags false false) p))
              (pat_re (re_compile (Flags false false) p)) (chars text) 0 0)
    as [HF _].
  rewrite Forall_forall in HF. apply HF in Hin. tauto.
Qed.

Lemma search_matched (p text : string) (x : rmatch) :
  re_search p text = Some x ->
  matched (pat_flags (re_compile (Flags false false) p))
    (pat_re (re_compile (Flags false false) p)) x.
Proof.
  intros H. unfold re_search, search in H.
  apply search_from_spec in H. tauto.
Qed.

Lemma first_search_hit (text : string) (p : string) (post : list string)
  (x : rmatch) :
  forall pre,
    Forall (fun q => ~ found q text) pre ->
    re_search p text = Some x ->
    first_search (pre ++ p :: post) text = Some x.
Proof.
  induction pre as [|q pre IH]; intros Hpre Hp; simpl.
  - rewrite Hp. reflexivity.
  - inversion Hpre as [|q' l Hq Hl]; subst.
    rewrite (not_found_none Hq). apply IH; assumption.
Qed.

Lemma first_search_some (text : string) (x : rmatch) :
  forall ps,
    first_search ps text = Some x ->
    exists p, In p ps /\ re_search p text = Some x.
Proof.
  induction ps as [|p ps IH]; intros H; simpl in H; [discriminate|].
  destruct (re_search p text) as [y|] eqn:E.
  - injection H as ->. exists p. simpl. auto.
  - destruct (IH H) as (q & Hq & Hs). exists q. simpl. auto.
Qed.

(** The amount group of a match of a pattern that ends with one. *)
Lemma amount_group (p : string) (i : nat) (a : regex) (x : rmatch) :
  last_group (pat_re (re_compile (Flags false false) p)) = Some (i, a) ->
  In a amount_exprs ->
  matched (pat_flags (re_compile (Flags false false) p))
    (pat_re (re_compile (Flags false false) p)) x ->
  amount_token (grp x i).
Proof.
  intros Hl Ha Hm.
  destruct (matched_last_group Hm Hl) as (s1 & c1 & s' & c2 & Hd & ->).
  eapply amount_expr_shape; eauto.
Qed.

Lemma for_each_ok {A B : Type} (f : A -> result B) :
  forall l l', for_each f l = Ok l' ->
    Forall2 (fun a b => In a l /\ f a = Ok b) l l'.
Proof.
  induction l as [|a l IH]; intros l' H; simpl in H.
  - injection H as <-. constructor.
  - destruct (f a) as [b|] eqn:E; [|discriminate]. simpl in H.
    destruct (for_each f l) as [bs|]; [|discriminate]. simpl in H.
    injection H as <-. constructor; [simpl; auto|].
    eapply Forall2_impl; [|apply IH; reflexivity].
    simpl. intros x y [Hx Hy]. auto.
Qed.

(** ** Balances *)

Lemma balance_amount (ps : list string) (text : string) (x : rmatch) :
  Forall (fun p =>
            exists a,
              last_group (pat_re (re_compile (Flags false false) p)) = Some (1%nat, a)
              /\ In a amount_exprs) ps ->
  first_search ps text = Some x ->
  exists v, float (clean_amount (grp x 1)) = Some v.
Proof.
  intros Hps H. apply first_search_some in H. destruct H as (p & Hin & Hs).
  rewrite Forall_forall in Hps. destruct (Hps p Hin) as (a & Hl & Ha).
  pose proof (amount_group p 1 a x Hl Ha (search_matched p text x Hs)) as Htok.
  destruct (float_amount_token _ Htok) as (v & Hv & _). exists v. exact Hv.
Qed.

Lemma opening_groups :
  Forall (fun p =>
            exists a,
              last_group (pat_re (re_compile (Flags false false) p)) = Some (1%nat, a)
              /\ In a amount_exprs) opening_patterns.
Proof.
  repeat constructor; eexists; (split; [vm_compute; reflexivity|in_list]).
Qed.

(** No amount a balance pattern lets through makes [float] raise. *)
Lemma extract_balance_total (text institution statement_type : string) :
  exists b, _extract_balance text institution statement_type = Ok b.
Proof.
  unfold _extract_balance.
  assert (Hc : Forall (fun p =>
            exists a,
              last_group (pat_re (re_compile (Flags false false) p)) = Some (1%nat, a)
              /\ In a amount_exprs) (closing_patterns statement_type)).
  { unfold closing_patterns.
    destruct (String.eqb statement_type "credit_card"); cbn [app];
      repeat constructor; eexists; (split; [vm_compute; reflexivity|in_list]). }
  destruct (first_search (closing_patterns statement_type) text) as [x|] eqn:E1;
    [destruct (balance_amount _ _ _ Hc E1) as (v & ->)|];
    (destruct (first_search opening_patterns text) as [y|] eqn:E2;
     [destruct (balance_amount _ _ _ opening_groups E2) as (w & ->)|]);
    cbn [bind of_option]; eexists; reflexivity.
Qed.

(** C5, as the code has it.  The closing phrasings tried for a statement
    that is not a credit card are "closing balance", "ending balance",
    "new balance" and "balance forward"; a credit card adds "new
    balance" again, "total balance" and "statement balance".  So for
    every text that is not a credit card's and has none of the four
    phrasings, the closing balance is 0.0. *)
Theorem closing_patterns_by_type (text institution statement_type : string) :
  statement_type <> "credit_card" ->
  closing_patterns statement_type
  = map balance_phrasing
      ["closing\s+balance"; "ending\s+balance"; "new\s+balance";
       "balance\s+forward"]
  /\ closing_patterns "credit_card"
     = map balance_phrasing
         ["closing\s+balance"; "ending\s+balance"; "new\s+balance";
          "balance\s+forward"; "new\s+balance"; "total\s+balance";
          "statement\s+balance"]
  /\ (Forall (fun p => ~ found p text)
        (map balance_phrasing
           ["closing\s+balance"; "ending\s+balance"; "new\s+balance";
            "balance\s+forward"]) ->
      exists b,
        _extract_balance text institution statement_type = Ok b
        /\ b_closing b = 0).
Proof.
  intros Hty. apply String.eqb_neq in Hty.
  assert (Hlist : closing_patterns statement_type
                  = map balance_phrasing
                      ["closing\s+balance"; "ending\s+balance";
                       "new\s+balance"; "balance\s+forward"]).
  { unfold closing_patterns. rewrite Hty. reflexivity. }
  split; [exact Hlist|]. split; [reflexivity|].
  intros Hnone.
  destruct (extract_balance_total text institution statement_type) as (b & Hb).
  exists b. split; [exact Hb|].
  unfold _extract_balance in Hb. rewrite Hlist, (first_search_miss Hnone) in Hb.
  cbn [bind] in Hb.
  destruct (first_search opening_patterns text) as [y|]; cbn [bind] in Hb.
  - destruct (float (clean_amount (grp y 1))); cbn [bind of_option] in Hb;
      [|discriminate].
    injection Hb as <-. reflexivity.
  - injection Hb as <-. reflexivity.
Qed.

Lemma closing_patterns_by_type_witness :
  exists b,
    _extract_balance "Statement Balance: $5.00" "unknown" "bank" = Ok b
    /\ b_closing b = 0.
Proof.
  refine (proj2 (proj2 (closing_patterns_by_type
                          "Statement Balance: $5.00" "unknown" "bank" _)) _).
  - discriminate.
  - repeat constructor; vm_compute; discriminate.
Defined.

(** C5 as stated fails: a text that is not a credit card's, with a "new
    balance" phrasing and none of "closing balance", "ending balance"
    and "balance forward", does not keep the default closing balance;
    and "new balance" is among the patterns tried for it. *)
Lemma new_balance_counterexample :
  _detect_statement_type "New Balance: $100.00" = "unknown"
  /\ found (balance_phrasing "new\s+balance") "New Balance: $100.00"
  /\ Forall (fun p => ~ found p "New Balance: $100.00")
       (map balance_phrasing
          ["closing\s+balance"; "ending\s+balance"; "balance\s+forward"])
  /\ _extract_balance "New Balance: $100.00" "unknown" "unknown"
     = Ok (mkBalance (100 # 1) None)
  /\ ~ (100 # 1 == 0)
  /\ closing_patterns "unknown"
     <> map balance_phrasing
          ["closing\s+balance"; "ending\s+balance"; "balance\s+forward"].
Proof.
  split; [vm_compute; reflexivity|].
  split; [vm_compute; reflexivity|].
  split; [repeat constructor; vm_compute; discriminate|].
  split; [vm_compute; reflexivity|].
  split; [vm_compute; discriminate|].
  vm_compute. discriminate.
Qed.

(** ** Account information *)

Lemma four_digits_shape (fl : flags) (s : list ascii) (c : caps)
  (s' : list ascii) (c' : caps) :
  den fl four_digits s c s' c' ->
  length (firstn (length s - length s') s) = 4%nat
  /\ Forall (fun d => is_digit d = true) (firstn (length s - length s') s).
Proof.
  intros (s1 & c1 & (n & Hlo & Hhi & H) & -> & ->).
  apply iter_cls in H. destruct H as (-> & t & -> & Hl & Ht).
  rewrite firstn_consumed. split; [lia|].
  eapply Forall_impl; [|exact Ht]. intros d Hd.
  cbn [existsb item_matches] in Hd. rewrite orb_false_r in Hd. exact Hd.
Qed.

Lemma account_group (p text : string) (x : rmatch) :
  In p account_patterns -> re_search p text = Some x ->
  length (grp x 1) = 4%nat /\ Forall (fun d => is_digit d = true) (grp x 1).
Proof.
  intros Hin Hs. apply search_matched in Hs.
  assert (Hl : last_group (pat_re (re_compile (Flags false false) p))
               = Some (1%nat, four_digits)).
  { simpl in Hin. decompose [or] Hin; subst; try contradiction;
      vm_compute; reflexivity. }
  destruct (matched_last_group Hs Hl) as (s1 & c1 & s' & c2 & Hd & ->).
  eapply four_digits_shape. exact Hd.
Qed.

(** C4, as the code has it.  For a statement of type "bank" or
    "credit_card" the masked-account patterns are tried in order and the
    first one found gives the number xxxx-xxxx-xxxx-NNNN from the four
    digits it captured; when none is found the number is "Unknown", and
    when no name pattern is found the name is absent.  For every other
    statement type no pattern is tried: the number is "Unknown" and the
    name is absent.  Institution and type are copied through. *)
Theorem account_number_masking (text institution statement_type : string) :
  (statement_type = "bank" \/ statement_type = "credit_card" ->
   (forall pre p post x,
       account_patterns = pre ++ p :: post ->
       Forall (fun q => ~ found q text) pre ->
       re_search p text = Some x ->
       ai_number (_extract_account_info text institution statement_type)
       = ("xxxx-xxxx-xxxx-" ++ str (grp x 1))%string
       /\ length (grp x 1) = 4%nat
       /\ Forall (fun d => is_digit d = true) (grp x 1))
   /\ (Forall (fun q => ~ found q text) account_patterns ->
       ai_number (_extract_account_info text institution statement_type)
       = "Unknown")
   /\ (Forall (fun q => ~ found q text) name_patterns ->
       ai_name (_extract_account_info text institution statement_type) = None))
  /\ (statement_type <> "bank" -> statement_type <> "credit_card" ->
      ai_number (_extract_account_info text institution statement_type)
      = "Unknown"
      /\ ai_name (_extract_account_info text institution statement_type) = None)
  /\ ai_institution (_extract_account_info text institution statement_type)
     = Some institution
  /\ ai_type (_extract_account_info text institution statement_type)
     = Some statement_type.
Proof.
  unfold _extract_account_info. split; [|split; [|split]].
  - intros Hty.
    assert (E : String.eqb statement_type "bank"
                || String.eqb statement_type "credit_card" = true)
      by (destruct Hty as [-> | ->]; reflexivity).
    rewrite E. cbn [ai_number ai_name]. split; [|split].
    + intros pre p post x Heq Hpre Hs.
      rewrite Heq, (first_search_hit text p post x pre Hpre Hs).
      split; [reflexivity|].
      apply (account_group p text x); [|exact Hs].
      rewrite Heq. apply in_elt.
    + intros Hn. rewrite (first_search_miss Hn). reflexivity.
    + intros Hn. rewrite (first_search_miss Hn). reflexivity.
  - intros Hb Hc. apply String.eqb_neq in Hb, Hc. rewrite Hb, Hc.
    split; reflexivity.
  - destruct (String.eqb statement_type "bank"
              || String.eqb statement_type "credit_card"); reflexivity.
  - destruct (String.eqb statement_type "bank"
              || String.eqb statement_type "credit_card"); reflexivity.
Qed.

Lemma account_number_masking_witness :
  ai_number (_extract_account_info "Account Number: ****1234" "unknown" "bank")
  = "xxxx-xxxx-xxxx-1234".
Proof.
  refine (proj1 (proj1 (proj1 (account_number_masking
            "Account Number: ****1234" "unknown" "bank") (or_introl eq_refl))
            [] _ _ {| m_start := 0; m_end := 24;
                      m_text := chars "Account Number: ****1234";
                      m_caps := [(1%nat, chars "1234")] |} eq_refl _ _)).
  - constructor.
  - vm_compute. reflexivity.
Defined.

(** C4 as stated fails: on a text whose statement type is "unknown" the
    first account pattern is found, with the digits 1234, and yet the
    number is "Unknown". *)
Lemma account_type_guard_counterexample :
  _detect_statement_type "Account Number: ****1234" = "unknown"
  /\ (exists x,
        first_search account_patterns "Account Number: ****1234" = Some x
        /\ grp x 1 = chars "1234")
  /\ ai_number
       (_extract_account_info "Account Number: ****1234"
          (_detect_institution "Account Number: ****1234")
          (_detect_statement_type "Account Number: ****1234"))
     = "Unknown"
  /\ "Unknown" <> "xxxx-xxxx-xxxx-1234".
Proof.
  split; [vm_compute; reflexivity|].
  split; [eexists; split; vm_compute; reflexivity|].
  split; [vm_compute; reflexivity|discriminate].
Qed.

(** ** The American Express sign convention *)

Lemma amex_amount_stored (x : rmatch) (tx : Transaction) :
  amount_token (grp x 3) ->
  amex_tx x = Ok tx ->
  exists v,
    float (clean_amount (grp x 3)) = Some v
    /\ tx_amount tx = (if startswith "-" (grp x 3) then v else - v)
    /\ tx_amount tx <= 0.
Proof.
  intros Htok H.
  destruct (float_amount_token _ Htok) as (v & Hv & Hsw & Hsign).
  exists v. split; [exact Hv|].
  unfold amex_tx in H. destruct (dated (grp x 1)) as [d|]; [|discriminate].
  cbn [bind] in H. unfold amex_amount in H. rewrite Hsw, Hv in H.
  destruct (startswith "-" (grp x 3)); cbn [negb bind of_option] in H;
    injection H as <-; cbn [tx_amount]; split; try reflexivity.
  - exact Hsign.
  - rewrite <- (Qopp_involutive 0). apply Qopp_le_compat. exact Hsign.
Qed.

(** C1, as the code has it.  In a text extracted with the American
    Express strategy every matched amount token is a decimal numeral
    with an optional sign; a token that does not start with a minus
    sign, be it unsigned or written with a plus sign, is stored as the
    negation of its value, and a token that starts with a minus sign is
    stored as given.  Every stored amount is therefore at most zero:
    $25.00, +$25.00 and -$25.00 are all stored as -25.00. *)
Theorem amex_sign_convention (now : datetime) :
  (forall text txs,
      _extract_transactions now text "amex" "credit_card" = Ok txs ->
      Forall2
        (fun x tx =>
           amount_token (grp x 3)
           /\ exists v,
                float (clean_amount (grp x 3)) = Some v
                /\ tx_amount tx = (if startswith "-" (grp x 3) then v else - v)
                /\ tx_amount tx <= 0)
        (re_finditer amex_tx_pattern (transaction_section text)) txs)
  /\ amex_amount (clean_amount (chars "$25.00")) = Ok (-25 # 1)
  /\ amex_amount (clean_amount (chars "+$25.00")) = Ok (-25 # 1)
  /\ amex_amount (clean_amount (chars "-$25.00")) = Ok (-25 # 1).
Proof.
  split; [|repeat split; vm_compute; reflexivity].
  intros text txs H. unfold _extract_transactions in H.
  cbn [String.eqb Ascii.eqb Bool.eqb andb] in H.
  apply for_each_ok in H. eapply Forall2_impl; [|exact H].
  intros x tx [Hin Htx]. cbv beta in *.
  assert (Htok : amount_token (grp x 3)).
  { apply finditer_matched in Hin.
    apply (amount_group amex_tx_pattern 3
             (Cat sign_opt (Cat (Chr "$") amount_tail)) x);
      [vm_compute; reflexivity|in_list|exact Hin]. }
  split; [exact Htok|]. apply amex_amount_stored; assumption.
Qed.

Lemma amex_sign_convention_witness :
  Forall2
    (fun x tx =>
       amount_token (grp x 3)
       /\ exists v,
            float (clean_amount (grp x 3)) = Some v
            /\ tx_amount tx = (if startswith "-" (grp x 3) then v else - v)
            /\ tx_amount tx <= 0)
    (re_finditer amex_tx_pattern
       (transaction_section "AMEX credit card 01/15/2023 COFFEE $25.00"))
    [mkTransaction (Datetime 2023 1 15 0 0 0 0) "COFFEE" (-25 # 1) None None].
Proof.
  apply (proj1 (amex_sign_convention (Datetime 2026 11 3 10 20 30 0))
           "AMEX credit card 01/15/2023 COFFEE $25.00").
  vm_compute. reflexivity.
Defined.

(** C1 as stated fails: in a text classified as American Express and
    credit card, the token +$25.00, whose value is 25.00, is not stored
    as +25.00. *)
Lemma amex_plus_counterexample :
  _detect_institution "AMEX credit card 01/15/2023 COFFEE +$25.00" = "amex"
  /\ _detect_statement_type "AMEX credit card 01/15/2023 COFFEE +$25.00"
     = "credit_card"
  /\ exists x tx,
       re_finditer amex_tx_pattern
         (transaction_section "AMEX credit card 01/15/2023 COFFEE +$25.00")
       = [x]
       /\ grp x 3 = chars "+$25.00"
       /\ float (clean_amount (grp x 3)) = Some (25 # 1)
       /\ _extract_transactions (Datetime 2026 11 3 10 20 30 0)
            "AMEX credit card 01/15/2023 COFFEE +$25.00" "amex" "credit_card"
          = Ok [tx]
       /\ ~ (tx_amount tx == 25 # 1).
Proof.
  split; [vm_compute; reflexivity|]. split; [vm_compute; reflexivity|].
  eexists. eexists. split; [vm_compute; reflexivity|].
  split; [vm_compute; reflexivity|]. split; [vm_compute; reflexivity|].
  split; [vm_compute; reflexivity|]. vm_compute. discriminate.
Qed.

(** ** Order of the transactions *)

Lemma finditer_increasing (p text : string) :
  (1 <=? minlen (pat_re (re_compile (Flags false false) p)))%nat = true ->
  StronglySorted (fun x y => (m_start x < m_start y)%nat) (re_finditer p text).
Proof.
  intros H. apply Nat.leb_le in H.
  apply finditer_from_increasing. exact H.
Qed.

Lemma for_each_at {A : Type} (base : nat) (f : rmatch -> result A) :
  forall l,
    match for_each (at_start base f) l with
    | Ok l' =>
        for_each f l = Ok (map snd l')
        /\ map fst l' = map (fun x => (base + m_start x)%nat) l
    | Raise e => for_each f l = Raise e
    end.
Proof.
  induction l as [|x l IH]; cbn [for_each]; [auto|].
  unfold at_start at 1. destruct (f x) as [a|e]; cbn [bind]; [|reflexivity].
  destruct (for_each (at_start base f) l) as [l'|e]; cbn [bind].
  - destruct IH as [-> IH]. cbn [bind map fst snd]. rewrite IH. auto.
  - rewrite IH. reflexivity.
Qed.

Lemma filter_map_at {A : Type} (base : nat) (f : rmatch -> option A) :
  forall l,
    map snd (filter_map (at_start_opt base f) l) = filter_map f l.
Proof.
  induction l as [|x l IH]; cbn [filter_map]; [reflexivity|].
  unfold at_start_opt at 1. destruct (f x); cbn [map snd]; rewrite IH; reflexivity.
Qed.

Lemma filter_map_above {A : Type} (base n : nat) (f : rmatch -> option A) :
  forall l,
    Forall (fun y => (n < m_start y)%nat) l ->
    Forall (fun q => (base + n < q)%nat)
      (map fst (filter_map (at_start_opt base f) l)).
Proof.
  induction l as [|x l IH]; intros H; cbn [filter_map]; [constructor|].
  inversion H as [|? ? Hx Hl]; subst.
  unfold at_start_opt at 1. destruct (f x); cbn [map fst]; auto.
  constructor; [lia|auto].
Qed.

Lemma filter_map_sorted {A : Type} (base : nat) (f : rmatch -> option A) :
  forall l,
    StronglySorted (fun x y => (m_start x < m_start y)%nat) l ->
    StronglySorted lt (map fst (filter_map (at_start_opt base f) l)).
Proof.
  induction l as [|x l IH]; intros H; cbn [filter_map]; [constructor|].
  inversion H as [|? ? Hs Hf]; subst.
  unfold at_start_opt at 1. destruct (f x); cbn [map fst]; auto.
  constructor; [auto|]. apply filter_map_above. exact Hf.
Qed.

Lemma map_sorted (base : nat) :
  forall l,
    StronglySorted (fun x y => (m_start x < m_start y)%nat) l ->
    StronglySorted lt (map (fun x => (base + m_start x)%nat) l).
Proof.
  induction l as [|x l IH]; intros H; cbn [map]; constructor;
    inversion H as [|? ? Hs Hf]; subst; auto.
  rewrite Forall_map. eapply Forall_impl; [|exact Hf]. simpl. intros. lia.
Qed.

Lemma for_each_sorted {A : Type} (base : nat) (f : rmatch -> result A)
  (l : list rmatch) (l' : list (nat * A)) :
  StronglySorted (fun x y => (m_start x < m_start y)%nat) l ->
  for_each (at_start base f) l = Ok l' ->
  StronglySorted lt (map fst l').
Proof.
  intros Hs H. pose proof (for_each_at base f l) as Hat. rewrite H in Hat.
  destruct Hat as [_ ->]. apply map_sorted. exact Hs.
Qed.

(** The transaction section is a part of the text, and starts at the
    offset [section_start]. *)
Lemma section_located (text : string) :
  exists pre post,
    chars text = pre ++ chars (transaction_section text) ++ post
    /\ length pre = section_start text.
Proof.
  unfold transaction_section, section_start.
  induction transaction_headers as [|h hs IH]; cbn [find_section find_section_start].
  - exists [], []. rewrite app_nil_r. auto.
  - destruct (re_search_flags DOTALL_IGNORECASE (h ++ section_tail) text)
      as [x|] eqn:E; [|exact IH].
    unfold re_search_flags, search in E. apply search_from_spec in E.
    destruct E as (_ & pre & post & Ht & Hs).
    exists pre, post. unfold chars at 2, str.
    rewrite list_ascii_of_string_of_list_ascii. auto.
Qed.

(** C9, as the code has it.  Each transaction comes from a match in the
    transaction section, which is a part of the text.  The Chase, Bank
    of America and American Express strategies return their
    transactions in the order of the offsets of their matches.  The
    generic strategy returns all the matches of the slash-dated pattern,
    in the order of their offsets, followed by all the matches of the
    dash-dated pattern, in the order of their offsets. *)
Theorem transactions_in_match_order (now : datetime)
  (text institution statement_type : string) :
  _extract_transactions now text institution statement_type
  = match _extract_transactions_at now text institution statement_type with
    | Ok l => Ok (map snd l)
    | Raise e => Raise e
    end
  /\ (exists pre post,
        chars text = pre ++ chars (transaction_section text) ++ post
        /\ length pre = section_start text)
  /\ (specific institution statement_type = true ->
      forall l,
        _extract_transactions_at now text institution statement_type = Ok l ->
        StronglySorted lt (map fst l))
  /\ (specific institution statement_type = false ->
      _extract_transactions_at now text institution statement_type
      = Ok (generic_at now text "(\d{1,2}/\d{1,2}(?:/\d{2,4})?)"
            ++ generic_at now text "(\d{1,2}-\d{1,2}(?:-\d{2,4})?)")
      /\ StronglySorted lt
           (map fst (generic_at now text "(\d{1,2}/\d{1,2}(?:/\d{2,4})?)"))
      /\ StronglySorted lt
           (map fst (generic_at now text "(\d{1,2}-\d{1,2}(?:-\d{2,4})?)"))).
Proof.
  split; [|split; [apply section_located|split]].
  - unfold _extract_transactions, _extract_transactions_at.
    destruct (String.eqb institution "chase" && String.eqb statement_type "credit_card").
    { pose proof (for_each_at (section_start text) (chase_tx now)
                    (re_finditer chase_tx_pattern (transaction_section text))) as H.
      destruct (for_each (at_start _ _) _); [tauto|exact H]. }
    destruct (String.eqb institution "bofa" && String.eqb statement_type "bank").
    { pose proof (for_each_at (section_start text) bofa_tx
                    (re_finditer bofa_tx_pattern (transaction_section text))) as H.
      destruct (for_each (at_start _ _) _); [tauto|exact H]. }
    destruct (String.eqb institution "amex" && String.eqb statement_type "credit_card").
    { pose proof (for_each_at (section_start text) amex_tx
                    (re_finditer amex_tx_pattern (transaction_section text))) as H.
      destruct (for_each (at_start _ _) _); [tauto|exact H]. }
    unfold date_patterns, generic_at. cbn [flat_map].
    rewrite !map_app, !filter_map_at. reflexivity.
  - unfold specific, _extract_transactions_at. intros Hsp l H.
    destruct (String.eqb institution "chase" && String.eqb statement_type "credit_card").
    { refine (for_each_sorted _ _ _ _ _ H).
      apply finditer_increasing. vm_compute. reflexivity. }
    destruct (String.eqb institution "bofa" && String.eqb statement_type "bank").
    { refine (for_each_sorted _ _ _ _ _ H).
      apply finditer_increasing. vm_compute. reflexivity. }
    destruct (String.eqb institution "amex" && String.eqb statement_type "credit_card").
    { refine (for_each_sorted _ _ _ _ _ H).
      apply finditer_increasing. vm_compute. reflexivity. }
    discriminate.
  - unfold specific, _extract_transactions_at. intros Hsp.
    destruct (String.eqb institution "chase" && String.eqb statement_type "credit_card");
      [discriminate|].
    destruct (String.eqb institution "bofa" && String.eqb statement_type "bank");
      [discriminate|].
    destruct (String.eqb institution "amex" && String.eqb statement_type "credit_card");
      [discriminate|].
    split; [|split].
    + unfold date_patterns. cbn [flat_map]. rewrite app_nil_r. reflexivity.
    + apply filter_map_sorted, finditer_increasing. vm_compute. reflexivity.
    + apply filter_map_sorted, finditer_increasing. vm_compute. reflexivity.
Qed.

Lemma transactions_in_match_order_witness :
  (exists l,
     _extract_transactions_at (Datetime 2026 11 3 10 20 30 0)
       "AMEX credit card
01/15/2023 COFFEE $25.00
01/16/2023 TEA $5.00
01/17/2023 REFUND -$3.00" "amex" "credit_card" = Ok l
     /\ map (fun q => (fst q, tx_description (snd q))) l
        = [(17%nat, "COFFEE"); (42%nat, "TEA"); (63%nat, "REFUND")]
     /\ StronglySorted lt (map fst l))
  /\ (let slashes :=
        generic_at (Datetime 2026 11 3 10 20 30 0)
          "01/15 ALPHA $1.00
01-16 BETA $2.00
01/17 GAMMA $3.00
01-18 DELTA $4.00" "(\d{1,2}/\d{1,2}(?:/\d{2,4})?)" in
      let dashes :=
        generic_at (Datetime 2026 11 3 10 20 30 0)
          "01/15 ALPHA $1.00
01-16 BETA $2.00
01/17 GAMMA $3.00
01-18 DELTA $4.00" "(\d{1,2}-\d{1,2}(?:-\d{2,4})?)" in
      _extract_transactions_at (Datetime 2026 11 3 10 20 30 0)
        "01/15 ALPHA $1.00
01-16 BETA $2.00
01/17 GAMMA $3.00
01-18 DELTA $4.00" "unknown" "unknown" = Ok (slashes ++ dashes)
      /\ map (fun q => (fst q, tx_description (snd q))) slashes
         = [(0%nat, "ALPHA"); (35%nat, "GAMMA")]
      /\ map (fun q => (fst q, tx_description (snd q))) dashes
         = [(18%nat, "BETA"); (53%nat, "DELTA")]
      /\ StronglySorted lt (map fst slashes)
      /\ StronglySorted lt (map fst dashes)).
Proof.
  split.
  - match goal with
    | |- exists l, _extract_transactions_at ?now ?text ?i ?t = _ /\ _ =>
        pose proof (proj1 (proj2 (proj2
                      (transactions_in_match_order now text i t))) eq_refl) as H;
        destruct (_extract_transactions_at now text i t) as [l|] eqn:E
    end.
    + exists l. split; [reflexivity|]. split; [|exact (H l eq_refl)].
      vm_compute in E. injection E as <-. reflexivity.
    + vm_compute in E. discriminate E.
  - cbv zeta.
    match goal with
    | |- _extract_transactions_at ?now ?text ?i ?t = _ /\ _ =>
        destruct (proj2 (proj2 (proj2
                    (transactions_in_match_order now text i t))) eq_refl)
          as (H1 & H2 & H3)
    end.
    split; [exact H1|]. split; [vm_compute; reflexivity|].
    split; [vm_compute; reflexivity|]. split; assumption.
Defined.

(** C9 as stated fails for the generic strategy: with a dash-dated line
    before a slash-dated one, the transaction of the second line comes
    first in the result. *)
Lemma interleaved_counterexample :
  exists l,
    _extract_transactions_at (Datetime 2026 11 3 10 20 30 0)
      "01-15 ALPHA $1.00
01/16 BETA $2.00" "unknown" "unknown" = Ok l
    /\ _extract_transactions (Datetime 2026 11 3 10 20 30 0)
         "01-15 ALPHA $1.00
01/16 BETA $2.00" "unknown" "unknown" = Ok (map snd l)
    /\ map (fun q => (fst q, tx_description (snd q))) l
       = [(18%nat, "BETA"); (0%nat, "ALPHA")]
    /\ ~ StronglySorted le (map fst l).
Proof.
  eexists. split; [vm_compute; reflexivity|].
  split; [vm_compute; reflexivity|]. split; [reflexivity|].
  cbn [map fst]. intros H. inversion H as [|? ? _ Hf]; subst.
  inversion Hf as [|? ? Hle _]; subst. lia.
Qed.

(** ** The end-to-end scenario *)

Lemma digit_char (r : Z) :
  (0 <= r < 10)%Z ->
  is_digit (ascii_of_N (Z.to_N (48 + r))) = true
  /\ digit (ascii_of_N (Z.to_N (48 + r))) = r.
Proof.
  intros H.
  assert (E : (r = 0 \/ r = 1 \/ r = 2 \/ r = 3 \/ r = 4 \/ r = 5 \/ r = 6
               \/ r = 7 \/ r = 8 \/ r = 9)%Z) by lia.
  decompose [or] E; subst; split; reflexivity.
Qed.

Lemma decimal_value (fuel : nat) :
  forall z acc a0,
    (0 <= z < 10 ^ (Z.of_nat fuel + 1))%Z ->
    exists k, (0 <= k)%Z
      /\ digits a0 (decimal fuel z acc) = digits (a0 * 10 ^ k + z) acc.
Proof.
  induction fuel as [|fuel IH]; intros z acc a0 Hz; cbn [decimal].
  - change (10 ^ (Z.of_nat 0 + 1))%Z with 10%Z in Hz.
    destruct (digit_char z Hz) as [Hd Hv].
    replace (z mod 10)%Z with z by (symmetry; apply Z.mod_small; lia).
    exists 1%Z. split; [lia|]. cbn [digits]. rewrite Hd, Hv. f_equal. lia.
  - destruct (Z.ltb_spec z 10) as [Hlt|Hge].
    + destruct (digit_char z) as [Hd Hv]; [lia|].
      replace (z mod 10)%Z with z by (symmetry; apply Z.mod_small; lia).
      exists 1%Z. split; [lia|]. cbn [digits]. rewrite Hd, Hv. f_equal. lia.
    + destruct (digit_char (z mod 10)) as [Hd Hv];
        [apply Z.mod_pos_bound; lia|].
      destruct (IH (z / 10)%Z
                  (ascii_of_N (Z.to_N (48 + z mod 10)) :: acc) a0)
        as (k & Hk & E).
      { split; [apply Z.div_pos; lia|].
        apply Z.div_lt_upper_bound; [lia|].
        replace (Z.of_nat (S fuel) + 1)%Z with (Z.succ (Z.of_nat fuel + 1)) in Hz
          by lia.
        rewrite Z.pow_succ_r in Hz by lia. lia. }
      exists (k + 1)%Z. split; [lia|]. rewrite E. cbn [digits].
      rewrite Hd, Hv. f_equal. rewrite Z.pow_add_r, Z.pow_1_r by lia.
      pose proof (Z.div_mod z 10). lia.
Qed.

(** Reading back the decimal writing of a number gives the number: the
    fuel of [str_of_Z] is enough for all of its digits. *)
Lemma str_of_Z_value (z : Z) :
  (0 <= z)%Z -> digits 0 (str_of_Z z) = Some z.
Proof.
  intros Hz. unfold str_of_Z.
  destruct (decimal_value (Z.to_nat (Z.log2 z)) z [] 0%Z) as (k & _ & E).
  { split; [exact Hz|]. rewrite Z2Nat.id by apply Z.log2_nonneg.
    destruct (Z.eq_dec z 0) as [->|Hnz]; [reflexivity|].
    apply Z.lt_le_trans with (2 ^ (Z.log2 z + 1))%Z.
    - apply Z.log2_spec. lia.
    - apply Z.pow_le_mono_l. lia. }
  rewrite E. reflexivity.
Qed.

(** The current year, when it has four digits, is written with four
    digits, whose value it is. *)
Lemma year_digits (y : Z) :
  (1000 <= y <= 9999)%Z ->
  exists c1 c2 c3 c4,
    str_of_Z y = [c1; c2; c3; c4]
    /\ is_digit c1 = true /\ is_digit c2 = true
    /\ is_digit c3 = true /\ is_digit c4 = true
    /\ digits 0 [c1; c2; c3; c4] = Some y.
Proof.
  intros H. unfold str_of_Z.
  assert (Hlog : (9 <= Z.log2 y)%Z).
  { change 9%Z with (Z.log2 1000). apply Z.log2_le_mono. lia. }
  destruct (Z.to_nat (Z.log2 y)) as [|[|[|[|fuel]]]] eqn:Ef; try lia.
  cbn [decimal].
  destruct (Z.ltb_spec y 10); [lia|].
  destruct (Z.ltb_spec (y / 10) 10); [exfalso; Z.to_euclidean_division_equations; lia|].
  destruct (Z.ltb_spec (y / 10 / 10) 10); [exfalso; Z.to_euclidean_division_equations; lia|].
  destruct (Z.ltb_spec (y / 10 / 10 / 10) 10); [|exfalso; Z.to_euclidean_division_equations; lia].
  destruct (digit_char (y mod 10)) as [D4 V4]; [apply Z.mod_pos_bound; lia|].
  destruct (digit_char (y / 10 mod 10)) as [D3 V3]; [apply Z.mod_pos_bound; lia|].
  destruct (digit_char (y / 10 / 10 mod 10)) as [D2 V2]; [apply Z.mod_pos_bound; lia|].
  destruct (digit_char (y / 10 / 10 / 10 mod 10)) as [D1 V1]; [apply Z.mod_pos_bound; lia|].
  do 4 eexists. split; [reflexivity|]. repeat (split; [assumption|]).
  cbn [digits]. rewrite D1, D2, D3, D4, V1, V2, V3, V4. f_equal.
  Z.to_euclidean_division_equations. lia.
Qed.

Lemma int_digits (c1 c2 c3 c4 : ascii) (y : Z) :
  is_digit c1 = true -> is_digit c4 = true ->
  digits 0 [c1; c2; c3; c4] = Some y ->
  int [c1; c2; c3; c4] = Some y.
Proof.
  intros H1 H4 Hy. unfold int.
  change [c1; c2; c3; c4] with (c1 :: [c2; c3] ++ [c4]).
  rewrite strip_id by (apply digit_not_space; assumption).
  exact Hy.
Qed.

(** January 15 of a year written with four digits is read back by the
    format month/day/year. *)
Lemma mdY_four_digits (c1 c2 c3 c4 : ascii) (y : Z) :
  is_digit c1 = true -> is_digit c2 = true ->
  is_digit c3 = true -> is_digit c4 = true ->
  digits 0 [c1; c2; c3; c4] = Some y ->
  (1 <= y <= 9999)%Z ->
  strptime (chars "01/15" ++ chars "/" ++ [c1; c2; c3; c4]) "%m/%d/%Y"
  = Some (Datetime y 1 15 0 0 0 0).
Proof.
  intros H1 H2 H3 H4 Hy Hr.
  pose proof (int_digits c1 c2 c3 c4 y H1 H4 Hy) as Hint.
  unfold strptime.
  set (f := format_regex _). vm_compute in f. subst f. cbv iota beta.
  set (p := compile_with _ _). vm_compute in p. subst p. cbv iota beta.
  match goal with
  | |- context [match_ ?p ?t] =>
      assert (Hm : match_ p t
                   = Some (RMatch 0 10
                             (chars "01/15/" ++ [c1; c2; c3; c4])
                             [(3%nat, [c1; c2; c3; c4]); (2%nat, chars "15");
                              (1%nat, chars "01")]))
  end.
  { unfold match_, match_here, str, chars.
    rewrite list_ascii_of_string_of_list_ascii.
    vm_compute. vm_compute in H1, H2, H3, H4.
    rewrite H1, H2, H3, H4. reflexivity. }
  rewrite Hm. cbv iota beta.
  cbn [m_end length app chars list_ascii_of_string Nat.eqb].
  cbn [read_fields grp m_caps group Nat.eqb].
  rewrite Hint.
  change (int ["1"%char; "5"%char]) with (Some 15%Z).
  change (int ["0"%char; "1"%char]) with (Some 1%Z).
  cbv iota beta. unfold mk_date.
  destruct (Z.leb_spec 1 y); [|lia]. destruct (Z.leb_spec y 9999); [|lia].
  reflexivity.
Qed.

Lemma current_year_date (y : Z) :
  (1000 <= y <= 9999)%Z ->
  strptime (chars "01/15" ++ chars "/" ++ str_of_Z y) "%m/%d/%Y"
  = Some (Datetime y 1 15 0 0 0 0).
Proof.
  intros H.
  destruct (year_digits y H) as (c1 & c2 & c3 & c4 & -> & H1 & H2 & H3 & H4 & Hy).
  apply mdY_four_digits; auto. lia.
Qed.

Lemma wholefds_transactions (now : datetime) :
  (1000 <= year now <= 9999)%Z ->
  _extract_transactions now "01/15 WHOLEFDS ABC 12345 -$50.00" "unknown" "unknown"
  = Ok [mkTransaction (Datetime (year now) 1 15 0 0 0 0) "WHOLEFDS ABC 12345"
          (-50 # 1) None None].
Proof.
  intros H. unfold _extract_transactions.
  cbn [String.eqb Ascii.eqb Bool.eqb andb].
  unfold date_patterns. cbn [flat_map].
  set (l1 := re_finditer _ _). vm_compute in l1.
  set (l2 := re_finditer _ _). vm_compute in l2.
  subst l1 l2. cbn [filter_map app].
  unfold generic_tx. cbn [grp m_caps group Nat.eqb].
  set (d := generic_date _ _).
  set (a := float _). vm_compute in a. subst a. cbv iota beta.
  set (cat := _categorize_transaction _). vm_compute in cat. subst cat.
  set (ds := str _). vm_compute in ds. subst ds.
  subst d. unfold generic_date.
  set (b := contains_char _ _). vm_compute in b. subst b. cbv iota.
  set (b := (_ <? _)%nat). vm_compute in b. subst b. cbv iota.
  replace (strptime _ _) with (Some (Datetime (year now) 1 15 0 0 0 0))
    by (symmetry; exact (current_year_date (year now) H)).
  reflexivity.
Qed.

(** C3, as the code has it.  On the text 01/15 WHOLEFDS ABC 12345
    -$50.00 institution and statement type are "unknown", and the
    pipeline yields exactly one transaction: dated January 15 of the
    current year, described WHOLEFDS ABC 12345, of amount -50.00, and
    with no category (no keyword of the category table occurs in the
    description). *)
Theorem wholefds_scenario (now today : datetime) :
  (1000 <= year now <= 9999)%Z ->
  _detect_institution "01/15 WHOLEFDS ABC 12345 -$50.00" = "unknown"
  /\ _detect_statement_type "01/15 WHOLEFDS ABC 12345 -$50.00" = "unknown"
  /\ exists r,
       parse now today "01/15 WHOLEFDS ABC 12345 -$50.00" = Ok r
       /\ sr_transactions r
          = [mkTransaction (Datetime (year now) 1 15 0 0 0 0)
               "WHOLEFDS ABC 12345" (-50 # 1) None None].
Proof.
  intros H.
  assert (Hi : _detect_institution "01/15 WHOLEFDS ABC 12345 -$50.00" = "unknown")
    by (vm_compute; reflexivity).
  assert (Ht : _detect_statement_type "01/15 WHOLEFDS ABC 12345 -$50.00" = "unknown")
    by (vm_compute; reflexivity).
  assert (Hb : _extract_balance "01/15 WHOLEFDS ABC 12345 -$50.00" "unknown" "unknown"
               = Ok (mkBalance 0 None)) by (vm_compute; reflexivity).
  repeat split; auto.
  unfold parse. rewrite Hi, Ht, Hb, (wholefds_transactions now H). simpl.
  eexists. split; reflexivity.
Qed.

Lemma wholefds_scenario_witness :
  exists r,
    parse (Datetime 2026 11 3 10 20 30 0) (Datetime 2026 11 3 10 20 31 0)
      "01/15 WHOLEFDS ABC 12345 -$50.00" = Ok r
    /\ sr_transactions r
       = [mkTransaction (Datetime 2026 1 15 0 0 0 0)
            "WHOLEFDS ABC 12345" (-50 # 1) None None].
Proof.
  apply (wholefds_scenario (Datetime 2026 11 3 10 20 30 0)
           (Datetime 2026 11 3 10 20 31 0)).
  simpl. lia.
Defined.

(** C3 as stated fails: the category of the one transaction is not
    "grocery". *)
Lemma wholefds_not_grocery :
  exists r tx,
    parse (Datetime 2026 11 3 10 20 30 0) (Datetime 2026 11 3 10 20 31 0)
      "01/15 WHOLEFDS ABC 12345 -$50.00" = Ok r
    /\ sr_transactions r = [tx]
    /\ tx_category tx <> Some "grocery".
Proof.
  eexists. eexists. split; [vm_compute; reflexivity|].
  split; [reflexivity|]. simpl. discriminate.
Qed.

(** ** Dates and amounts that do not parse *)

(** Every amount token a transaction pattern lets through is a decimal
    numeral [float] accepts: no strategy ever meets an amount it cannot
    parse. *)
Lemma transaction_amounts_parse (p text : string) (x : rmatch) :
  In p [chase_tx_pattern; bofa_tx_pattern; amex_tx_pattern;
        combined_pattern "(\d{1,2}/\d{1,2}(?:/\d{2,4})?)";
        combined_pattern "(\d{1,2}-\d{1,2}(?:-\d{2,4})?)"] ->
  In x (re_finditer p text) ->
  exists v, float (clean_amount (grp x 3)) = Some v.
Proof.
  intros Hp Hx. apply finditer_matched in Hx.
  assert (Ha : exists a,
             last_group (pat_re (re_compile (Flags false false) p))
             = Some (3%nat, a)
             /\ In a amount_exprs).
  { simpl in Hp. decompose [or] Hp; subst; try contradiction;
      eexists; (split; [vm_compute; reflexivity|in_list]). }
  destruct Ha as (a & Hl & Hin).
  destruct (float_amount_token _ (amount_group p 3 a x Hl Hin Hx))
    as (v & Hv & _).
  exists v. exact Hv.
Qed.

(** C2. A date token that fails every format makes the Chase, the Bank
    of America and the American Express strategies raise [ValueError]
    (the whole call fails), whereas the generic strategy falls back to
    the current time; here on the tokens 13/45 and 13/45/2023.  No
    amount token that a transaction pattern matches fails to parse. *)
Theorem bad_date_token (now today : datetime) :
  parse now today "Chase credit card 13/45 COFFEE $5.00" = Raise ValueError
  /\ parse now today "Bank of America checking 13/45/2023 COFFEE $5.00"
     = Raise ValueError
  /\ parse now today "AMEX credit card 13/45/2023 COFFEE $5.00"
     = Raise ValueError
  /\ _extract_transactions now "13/45 COFFEE $5.00" "unknown" "unknown"
     = Ok [mkTransaction now "COFFEE" 5 None (Some "dining")]
  /\ _extract_transactions now "13/45/2023 COFFEE $5.00" "unknown" "unknown"
     = Ok [mkTransaction now "COFFEE" 5 None (Some "dining")]
  /\ (forall p text x,
        In p [chase_tx_pattern; bofa_tx_pattern; amex_tx_pattern;
              combined_pattern "(\d{1,2}/\d{1,2}(?:/\d{2,4})?)";
              combined_pattern "(\d{1,2}-\d{1,2}(?:-\d{2,4})?)"] ->
        In x (re_finditer p text) ->
        exists v, float (clean_amount (grp x 3)) = Some v).
Proof.
  split; [vm_compute; reflexivity|].
  split; [vm_compute; reflexivity|].
  split; [vm_compute; reflexivity|].
  split; [vm_compute; reflexivity|].
  split; [vm_compute; reflexivity|].
  exact transaction_amounts_parse.
Qed.

End ParserFacts.

(** * Completeness of the matcher *)

Module ReComplete.

Import Py Re ReFacts Notions ParserFacts.

Local Open Scope string_scope.
Local Open Scope list_scope.
Local Unset Implicit Arguments.

Section Blindness.

Variable fl : flags.

Lemma rep_blind (R : Type)
  (step : list ascii -> caps -> (list ascii -> caps -> option R) -> option R)
  (k : list ascii -> caps -> option R) (g : bool) (lo : nat) :
  (forall k', blind k' -> forall s c1 c2, step s c1 k' = None <-> step s c2 k' = None) ->
  blind k ->
  forall fuel i, blind (rep step k g lo fuel i).
Proof.
  intros Hstep Hk. induction fuel as [|fuel IH]; intros i s c1 c2; cbn [rep].
  - destruct (lo <=? i)%nat; [apply Hk|tauto].
  - assert (HK : blind (fun s' c' =>
                   if (length s' <? length s)%nat
                   then rep step k g lo fuel (S i) s' c' else None)).
    { intros s' ca cb. destruct (length s' <? length s)%nat; [apply IH|tauto]. }
    pose proof (Hstep _ HK s c1 c2) as Hs.
    assert (Hstop : (if (lo <=? i)%nat then k s c1 else None) = None
                    <-> (if (lo <=? i)%nat then k s c2 else None) = None).
    { destruct (lo <=? i)%nat; [apply Hk|tauto]. }
    destruct g.
    + destruct (step s c1 _) eqn:E1; destruct (step s c2 _) eqn:E2;
        try tauto; try (split; intros; discriminate);
        try (destruct Hs as [Hs1 Hs2]; try (discriminate (Hs1 eq_refl)); try (discriminate (Hs2 eq_refl))).
    + destruct (if (lo <=? i)%nat then k s c1 else None) eqn:E1;
        destruct (if (lo <=? i)%nat then k s c2 else None) eqn:E2;
        try tauto; try (split; intros; discriminate);
        try (destruct Hstop as [Hs1 Hs2]; try (discriminate (Hs1 eq_refl)); try (discriminate (Hs2 eq_refl))).
Qed.

(** Whether the matcher succeeds does not depend on the captures made
    so far: the fragment has no back-reference. *)
Lemma m_blind (r : regex) :
  forall (R : Type) (k : list ascii -> caps -> option R),
    blind k -> blind (fun s c => m fl r s c k).
Proof.
  induction r as [ | a | | items | | r1 IH1 r2 IH2 | r1 IH1 r2 IH2
                 | i r IH | g lo hi r IH | r IH ];
    intros R k Hk s c1 c2; cbn [m].
  - apply Hk.
  - destruct s as [|ch s]; [tauto|]. destruct (chr_matches fl a ch); [apply Hk|tauto].
  - destruct s as [|ch s]; [tauto|].
    destruct (dotall fl || negb (Ascii.eqb ch newline)); [apply Hk|tauto].
  - destruct s as [|ch s]; [tauto|].
    destruct (existsb (item_matches fl ch) items); [apply Hk|tauto].
  - destruct s as [|ch [|ch' s]]; [apply Hk| |tauto].
    destruct (Ascii.eqb ch newline); [apply Hk|tauto].
  - apply (IH1 R (fun s' c' => m fl r2 s' c' k)). apply IH2. exact Hk.
  - pose proof (IH1 R k Hk s c1 c2) as H1. pose proof (IH2 R k Hk s c1 c2) as H2.
    cbv beta in H1, H2.
    destruct (m fl r1 s c1 k); destruct (m fl r1 s c2 k); try tauto;
      try (split; intros; discriminate);
      destruct H1 as [Ha Hb]; try (discriminate (Ha eq_refl)); try (discriminate (Hb eq_refl)).
  - apply (IH R (fun s' c' => k s' ((i, firstn (length s - length s') s) :: c'))).
    intros s' ca cb. apply Hk.
  - apply rep_blind; [|exact Hk].
    intros k' Hk' s0 ca cb. apply (IH R k' Hk').
  - assert (H0 : blind (fun (_ : list ascii) (c' : caps) => Some c')).
    { intros s' ca cb. split; intros; discriminate. }
    pose proof (IH caps _ H0 s c1 c2) as H. cbv beta in H.
    destruct (m fl r s c1 _) as [ca|]; destruct (m fl r s c2 _) as [cb|];
      try tauto; try apply Hk;
      destruct H as [Ha Hb]; try (discriminate (Ha eq_refl)); try (discriminate (Hb eq_refl)).
Qed.

End Blindness.

Section Completeness.

Variable fl : flags.

Lemma minlen_nullable (r : regex) : nullable r = false -> (1 <= minlen r)%nat.
Proof.
  induction r as [ | a | | items | | r1 IH1 r2 IH2 | r1 IH1 r2 IH2
                 | i r IH | g lo hi r IH | r IH ]; cbn [nullable minlen]; intros H;
    try discriminate; try lia.
  - apply andb_false_iff in H. destruct H as [H|H]; [apply IH1 in H|apply IH2 in H]; lia.
  - apply orb_false_iff in H. destruct H as [H1 H2].
    apply IH1 in H1. apply IH2 in H2. lia.
  - auto.
  - apply orb_false_iff in H. destruct H as [H1 H2].
    apply Nat.eqb_neq in H1. apply IH in H2. nia.
Qed.

Lemma den_progress (r : regex) (s : list ascii) (c : caps) (s' : list ascii) (c' : caps) :
  nullable r = false -> den fl r s c s' c' -> (length s' < length s)%nat.
Proof.
  intros Hn Hd. apply minlen_nullable in Hn.
  destruct (den_prefix _ _ _ _ _ _ Hd) as (t & -> & L). rewrite length_app. lia.
Qed.

Lemma iter_progress (r : regex) :
  nullable r = false ->
  forall n s c s' c', iter (den fl r) n s c s' c' -> (n + length s' <= length s)%nat.
Proof.
  intros Hn. induction n as [|n IH]; intros s c s' c' H; cbn [iter] in H.
  - destruct H as [-> _]. lia.
  - destruct H as (s1 & c1 & H1 & H2). apply IH in H2.
    apply (den_progress _ _ _ _ _ Hn) in H1. lia.
Qed.

Lemma rep_complete (R : Type)
  (step : list ascii -> caps -> (list ascii -> caps -> option R) -> option R)
  (P : list ascii -> caps -> list ascii -> caps -> Prop)
  (k : list ascii -> caps -> option R) (g : bool) (lo : nat)
  (s' : list ascii) (c' : caps) :
  (forall s c s1 c1, P s c s1 c1 -> (length s1 < length s)%nat) ->
  (forall k' s c s1 c1, P s c s1 c1 -> k' s1 c1 <> None -> blind k' ->
     step s c k' <> None) ->
  (forall k', blind k' -> forall s c1 c2, step s c1 k' = None <-> step s c2 k' = None) ->
  blind k ->
  k s' c' <> None ->
  forall fuel n i s c,
    iter P n s c s' c' -> (lo <= i + n)%nat -> (n <= fuel)%nat ->
    rep step k g lo fuel i s c <> None.
Proof.
  intros Hprog Hstep Hblind Hk Hend.
  induction fuel as [|fuel IH]; intros n i s c Hit Hlo Hfuel.
  - assert (n = 0)%nat as -> by lia. cbn [iter] in Hit. destruct Hit as [-> ->].
    cbn [rep]. replace (lo <=? i)%nat with true by (symmetry; apply Nat.leb_le; lia).
    exact Hend.
  - cbn [rep]. destruct n as [|n].
    + cbn [iter] in Hit. destruct Hit as [-> ->].
      replace (lo <=? i)%nat with true by (symmetry; apply Nat.leb_le; lia).
      destruct g.
      * destruct (step s c _); [discriminate|exact Hend].
      * destruct (k s c); [discriminate|]. exfalso. apply Hend. reflexivity.
    + cbn [iter] in Hit. destruct Hit as (s1 & c1 & H1 & H2).
      assert (Hs : step s c (fun s0 c0 =>
                      if (length s0 <? length s)%nat
                      then rep step k g lo fuel (S i) s0 c0 else None) <> None).
      { apply (Hstep _ s c s1 c1 H1).
        - apply Hprog in H1. apply Nat.ltb_lt in H1. rewrite H1.
          apply (IH n (S i) s1 c1 H2); lia.
        - intros s0 ca cb. destruct (length s0 <? length s)%nat; [|tauto].
          apply rep_blind; assumption. }
      destruct g.
      * destruct (step s c _); [discriminate|]. exfalso. apply Hs. reflexivity.
      * destruct (if (lo <=? i)%nat then k s c else None); [discriminate|exact Hs].
Qed.

(** When [r] can consume a prefix of the input after which the
    continuation succeeds, the matcher succeeds. *)
Lemma m_complete (r : regex) :
  wf r = true ->
  forall (R : Type) (k : list ascii -> caps -> option R) s c s' c',
    den fl r s c s' c' -> blind k -> k s' c' <> None -> m fl r s c k <> None.
Proof.
  induction r as [ | a | | items | | r1 IH1 r2 IH2 | r1 IH1 r2 IH2
                 | i r IH | g lo hi r IH | r IH ];
    cbn [wf]; intros Hwf R k s c s' c' Hd Hk Hend; cbn [den] in Hd; cbn [m].
  - destruct Hd as [-> ->]. exact Hend.
  - destruct Hd as (ch & -> & Hc & ->). rewrite Hc. exact Hend.
  - destruct Hd as (ch & -> & Hc & ->). rewrite Hc. exact Hend.
  - destruct Hd as (ch & -> & Hc & ->). rewrite Hc. exact Hend.
  - destruct Hd as ([->| ->] & -> & ->); [exact Hend|].
    cbn. exact Hend.
  - apply andb_true_iff in Hwf. destruct Hwf as [W1 W2].
    destruct Hd as (s1 & c1 & H1 & H2).
    apply (IH1 W1 R _ s c s1 c1 H1).
    + apply m_blind. exact Hk.
    + apply (IH2 W2 R k s1 c1 s' c' H2 Hk Hend).
  - apply andb_true_iff in Hwf. destruct Hwf as [W1 W2].
    destruct Hd as [H|H].
    + pose proof (IH1 W1 R k s c s' c' H Hk Hend) as Hn.
      destruct (m fl r1 s c k); [discriminate|]. exfalso. apply Hn. reflexivity.
    + destruct (m fl r1 s c k); [discriminate|].
      apply (IH2 W2 R k s c s' c' H Hk Hend).
  - destruct Hd as (c1 & H & ->).
    apply (IH Hwf R _ s c s' c1 H).
    + intros s0 ca cb. apply Hk.
    + exact Hend.
  - apply andb_true_iff in Hwf. destruct Hwf as [W Hn].
    apply negb_true_iff in Hn.
    destruct Hd as (n & Hlo & Hhi & Hit).
    apply rep_complete with (P := den fl r) (s' := s') (c' := c') (n := n).
    + intros s0 c0 s1 c1 H. apply (den_progress _ _ _ _ _ Hn H).
    + intros k' s0 c0 s1 c1 H Hk' Hb. apply (IH W R k' s0 c0 s1 c1 H Hb Hk').
    + intros k' Hb s0 ca cb. apply (m_blind fl r R k' Hb).
    + exact Hk.
    + exact Hend.
    + exact Hit.
    + lia.
    + destruct hi as [h|]; [exact Hhi|].
      apply (iter_progress _ Hn) in Hit. lia.
  - destruct Hd as (s1 & H & ->).
    assert (H0 : blind (fun (_ : list ascii) (c0 : caps) => Some c0)).
    { intros s0 ca cb. split; intros; discriminate. }
    pose proof (IH Hwf caps _ s c s1 c' H H0) as Hn. cbv beta in Hn.
    destruct (m fl r s c _) as [c2|].
    + intros E. apply Hend. apply (Hk s c2 c'). exact E.
    + exfalso. apply Hn; [discriminate|reflexivity].
Qed.

End Completeness.

Section Searching.

Variable fl : flags.

(** Without an end-of-text anchor, a match stays one when text is
    added after the input. *)
Lemma den_extend (r : regex) (post : list ascii) :
  eol_free r = true ->
  forall s c s' c', den fl r s c s' c' -> den fl r (s ++ post) c (s' ++ post) c'.
Proof.
  induction r as [ | a | | items | | r1 IH1 r2 IH2 | r1 IH1 r2 IH2
                 | i r IH | g lo hi r IH | r IH ];
    cbn [eol_free]; intros He s c s' c' Hd; cbn [den] in Hd |- *;
    try discriminate.
  - destruct Hd as [-> ->]. auto.
  - destruct Hd as (ch & -> & Hc & ->). exists ch. auto.
  - destruct Hd as (ch & -> & Hc & ->). exists ch. auto.
  - destruct Hd as (ch & -> & Hc & ->). exists ch. auto.
  - apply andb_true_iff in He. destruct He as [E1 E2].
    destruct Hd as (sa & ca & Ha & Hb). exists (sa ++ post), ca. auto.
  - apply andb_true_iff in He. destruct He as [E1 E2].
    destruct Hd as [H|H]; auto.
  - destruct Hd as (c1 & H & ->). exists c1. split; [auto|].
    destruct (den_prefix _ _ _ _ _ _ H) as (t & -> & _).
    rewrite <- app_assoc.
    rewrite (firstn_consumed t s').
    replace (length (t ++ s' ++ post) - length (s' ++ post))%nat with (length t + 0)%nat
      by (rewrite !length_app; lia).
    rewrite firstn_app_2. cbn [firstn]. rewrite app_nil_r. reflexivity.
  - destruct Hd as (n & Hlo & Hhi & Hit). exists n. repeat split; auto.
    clear Hlo Hhi. revert s c Hit.
    induction n as [|n IHn]; intros s c Hit; cbn [iter] in Hit |- *.
    + destruct Hit as [-> ->]. auto.
    + destruct Hit as (sa & ca & Ha & Hb). exists (sa ++ post), ca. auto.
  - destruct Hd as (sa & H & ->). exists (sa ++ post). auto.
Qed.

Lemma occurs_extend (r : regex) (pre u post : list ascii) :
  eol_free r = true -> occurs fl r u -> occurs fl r (pre ++ u ++ post).
Proof.
  intros He (p & suf & s' & c' & -> & Hd).
  exists (pre ++ p), (suf ++ post), (s' ++ post), c'. split.
  - rewrite <- !app_assoc. reflexivity.
  - apply den_extend; assumption.
Qed.

Lemma search_occurs (r : regex) :
  forall s pos x, search_from fl r pos s = Some x -> occurs fl r s.
Proof.
  assert (Hhere : forall s pos x, match_here fl false r pos s = Some x -> occurs fl r s).
  { intros s pos x H. unfold match_here in H. apply m_sound in H.
    destruct H as (s' & c' & Hd & _). exists [], s, s', c'. auto. }
  induction s as [|a s IH]; intros pos x H; cbn [search_from] in H.
  - destruct (match_here fl false r pos []) eqn:E; [|discriminate].
    apply (Hhere _ _ _ E).
  - destruct (match_here fl false r pos (a :: s)) eqn:E.
    + apply (Hhere _ _ _ E).
    + apply IH in H. destruct H as (pre & suf & s' & c' & -> & Hd).
      exists (a :: pre), suf, s', c'. auto.
Qed.

(** [re.search] finds a match whenever the expression matches
    somewhere. *)
Lemma occurs_search (r : regex) (s : list ascii) :
  wf r = true -> occurs fl r s -> forall pos, search_from fl r pos s <> None.
Proof.
  intros Hwf (pre & suf & s' & c' & -> & Hd).
  assert (Hhere : forall pos, match_here fl false r pos suf <> None).
  { intros pos. unfold match_here.
    apply (m_complete fl r Hwf _ _ suf [] s' c' Hd).
    - intros s0 ca cb. cbn. split; intros; discriminate.
    - cbn. discriminate. }
  induction pre as [|a pre IH]; intros pos.
  - cbn [app]. destruct suf as [|b suf]; cbn [search_from];
      specialize (Hhere pos); destruct (match_here fl false r pos _);
      try discriminate; exfalso; apply Hhere; reflexivity.
  - cbn [app search_from]. destruct (match_here fl false r pos _); [discriminate|].
    apply IH.
Qed.

End Searching.

(** ** Letter case *)

Lemma lower_newline (ch : ascii) :
  Ascii.eqb (lower ch) newline = Ascii.eqb ch newline.
Proof. char_cases ch; reflexivity. Qed.

Lemma lower_digit (ch : ascii) : is_digit (lower ch) = is_digit ch.
Proof. char_cases ch; reflexivity. Qed.

Lemma lower_space (ch : ascii) : is_space (lower ch) = is_space ch.
Proof. char_cases ch; reflexivity. Qed.

Lemma lower_lower (ch : ascii) : lower (lower ch) = lower ch.
Proof. char_cases ch; reflexivity. Qed.

Section Folding.

Variable fl : flags.
Hypothesis Hi : icase fl = true.

Lemma item_lower (ch ch2 : ascii) (it : item) :
  lower ch = lower ch2 -> item_matches fl ch it = item_matches fl ch2 it.
Proof.
  intros H. destruct it as [a|lo hi| |]; cbn [item_matches].
  - unfold chr_matches. rewrite Hi, H. reflexivity.
  - unfold range_matches. rewrite Hi, H. reflexivity.
  - rewrite <- (lower_digit ch), H. apply lower_digit.
  - rewrite <- (lower_space ch), H. apply lower_space.
Qed.

(** Under [IGNORECASE] a match stays one when the letter case of the
    input changes. *)
Lemma den_lower (r : regex) :
  forall s1 c s1' c', den fl r s1 c s1' c' ->
  forall s2 d, map lower s1 = map lower s2 ->
    exists s2' d', den fl r s2 d s2' d' /\ map lower s1' = map lower s2'.
Proof.
  induction r as [ | a | | items | | r1 IH1 r2 IH2 | r1 IH1 r2 IH2
                 | i r IH | g lo hi r IH | r IH ];
    intros s1 c s1' c' Hd s2 d Hs; cbn [den] in Hd |- *.
  - destruct Hd as [-> ->]. exists s2, d. auto.
  - destruct Hd as (ch & -> & Hc & ->). destruct s2 as [|ch2 s2]; [discriminate|].
    cbn [map] in Hs. injection Hs as H1 H2. exists s2, d. split; [|exact H2].
    exists ch2. repeat split. unfold chr_matches in *. rewrite Hi in *.
    rewrite <- H1. exact Hc.
  - destruct Hd as (ch & -> & Hc & ->). destruct s2 as [|ch2 s2]; [discriminate|].
    cbn [map] in Hs. injection Hs as H1 H2. exists s2, d. split; [|exact H2].
    exists ch2. repeat split.
    rewrite <- (lower_newline ch2), <- H1, lower_newline. exact Hc.
  - destruct Hd as (ch & -> & Hc & ->). destruct s2 as [|ch2 s2]; [discriminate|].
    cbn [map] in Hs. injection Hs as H1 H2. exists s2, d. split; [|exact H2].
    exists ch2. repeat split.
    rewrite <- Hc. clear Hc. induction items as [|it items IHi]; [reflexivity|].
    cbn [existsb]. rewrite IHi, (item_lower ch ch2 it H1). reflexivity.
  - destruct Hd as (Hd & -> & ->). exists s2, d. split; [|exact Hs].
    split; [|auto]. destruct Hd as [-> | ->].
    + destruct s2; [auto|discriminate].
    + destruct s2 as [|ch2 [|? ?]]; try discriminate. right.
      cbn [map] in Hs. injection Hs as H1.
      pose proof (lower_newline ch2) as E. rewrite <- H1 in E.
      symmetry in E. apply Ascii.eqb_eq in E. rewrite E. reflexivity.
  - destruct Hd as (sa & ca & Ha & Hb).
    destruct (IH1 _ _ _ _ Ha s2 d Hs) as (sb & cb & Hd1 & Hs1).
    destruct (IH2 _ _ _ _ Hb sb cb Hs1) as (sc & cc & Hd2 & Hs2).
    exists sc, cc. split; [|exact Hs2]. exists sb, cb. auto.
  - destruct Hd as [H|H].
    + destruct (IH1 _ _ _ _ H s2 d Hs) as (sb & cb & Hd1 & Hs1).
      exists sb, cb. auto.
    + destruct (IH2 _ _ _ _ H s2 d Hs) as (sb & cb & Hd1 & Hs1).
      exists sb, cb. auto.
  - destruct Hd as (c1 & H & ->).
    destruct (IH _ _ _ _ H s2 d Hs) as (sb & cb & Hd1 & Hs1).
    exists sb, ((i, firstn (length s2 - length sb) s2) :: cb). split; [|exact Hs1].
    exists cb. auto.
  - destruct Hd as (n & Hlo & Hhi & Hit).
    assert (Hn : exists s2' d', iter (den fl r) n s2 d s2' d'
                                /\ map lower s1' = map lower s2').
    { clear Hlo Hhi. revert s1 c s2 d Hs Hit.
      induction n as [|n IHn]; intros s1 c s2 d Hs Hit; cbn [iter] in Hit |- *.
      - destruct Hit as [-> ->]. exists s2, d. auto.
      - destruct Hit as (sa & ca & Ha & Hb).
        destruct (IH _ _ _ _ Ha s2 d Hs) as (sb & cb & Hd1 & Hs1).
        destruct (IHn sa ca sb cb Hs1 Hb) as (sc & cc & Hd2 & Hs2).
        exists sc, cc. split; [|exact Hs2]. exists sb, cb. auto. }
    destruct Hn as (s2' & d' & Hit2 & Hs2). exists s2', d'. split; [|exact Hs2].
    exists n. auto.
  - destruct Hd as (sa & H & ->).
    destruct (IH _ _ _ _ H s2 d Hs) as (sb & cb & Hd1 & Hs1).
    exists s2, cb. split; [|exact Hs]. exists sb. auto.
Qed.

Lemma occurs_lower (r : regex) (s1 s2 : list ascii) :
  map lower s1 = map lower s2 -> occurs fl r s1 -> occurs fl r s2.
Proof.
  intros Hs (pre & suf & s' & c' & -> & Hd).
  assert (Hsuf : map lower suf = map lower (skipn (length pre) s2)).
  { rewrite <- skipn_map, <- Hs, map_app.
    replace (length pre) with (length (map lower pre)) by apply length_map.
    rewrite skipn_app, skipn_all, Nat.sub_diag. reflexivity. }
  destruct (den_lower _ _ _ _ _ Hd _ [] Hsuf) as (s2' & d' & Hd2 & _).
  exists (firstn (length pre) s2), (skipn (length pre) s2), s2', d'.
  split; [symmetry; apply firstn_skipn|exact Hd2].
Qed.

End Folding.

End ReComplete.

(** * Further properties of the classifiers *)

Module Classifiers.

Import Py Re Lib Parser ReFacts ParserFacts Notions ReComplete Binary64.

Local Open Scope string_scope.
Local Open Scope list_scope.
Local Unset Implicit Arguments.

Lemma is_prefix_spec (p l : list ascii) :
  is_prefix p l = true -> exists post, l = p ++ post.
Proof.
  revert l. induction p as [|a p IH]; intros l H; cbn [is_prefix] in H.
  - exists l. reflexivity.
  - destruct l as [|b l]; [discriminate|].
    apply andb_true_iff in H. destruct H as [E H]. apply Ascii.eqb_eq in E. subst b.
    destruct (IH _ H) as (post & ->). exists post. reflexivity.
Qed.

Lemma contains_spec (p l : list ascii) :
  contains p l = true -> exists pre post, l = pre ++ p ++ post.
Proof.
  induction l as [|b l IH]; cbn [contains]; intros H.
  - rewrite orb_false_r in H. apply is_prefix_spec in H. destruct H as (post & H).
    exists [], post. exact H.
  - apply orb_true_iff in H. destruct H as [H|H].
    + apply is_prefix_spec in H. destruct H as (post & H). exists [], post. exact H.
    + destruct (IH H) as (pre & post & ->). exists (b :: pre), post. reflexivity.
Qed.

Lemma found_occurs (fl : flags) (p text : string) :
  is_some (re_search_flags fl p text) = true ->
  occurs (pat_flags (re_compile fl p)) (pat_re (re_compile fl p)) (chars text).
Proof.
  unfold re_search_flags, search. intros H.
  destruct (search_from _ _ 0 (chars text)) eqn:E; [|discriminate].
  apply (search_occurs _ _ _ _ _ E).
Qed.

Lemma occurs_found (fl : flags) (p text : string) :
  cue fl p = true ->
  occurs (pat_flags (re_compile fl p)) (pat_re (re_compile fl p)) (chars text) ->
  is_some (re_search_flags fl p text) = true.
Proof.
  unfold cue. intros Hc Ho.
  apply andb_true_iff in Hc. destruct Hc as [Hc _].
  apply andb_true_iff in Hc. destruct Hc as [_ Hw].
  unfold re_search_flags, search.
  pose proof (occurs_search _ _ _ Hw Ho 0%nat) as Hn.
  destruct (search_from _ _ 0 (chars text)); [reflexivity|].
  exfalso. apply Hn. reflexivity.
Qed.

(** Embedding a fragment in a longer text, in any letter case, keeps
    what a cue pattern finds in it. *)
Lemma found_fragment (fl : flags) (p u text : string) :
  cue fl p = true -> contains_nocase u text = true ->
  is_some (re_search_flags fl p u) = true ->
  is_some (re_search_flags fl p text) = true.
Proof.
  intros Hc Hin Hu. apply (occurs_found _ _ _ Hc).
  apply found_occurs in Hu. unfold cue in Hc.
  apply andb_true_iff in Hc. destruct Hc as [Hc He].
  apply andb_true_iff in Hc. destruct Hc as [Hi _].
  apply contains_spec in Hin. destruct Hin as (pre & post & Hin).
  apply (occurs_lower _ Hi _ (map lower (chars text))).
  - rewrite map_map. apply map_ext. intros a. apply lower_lower.
  - rewrite Hin. apply occurs_extend; [exact He|].
    apply (occurs_lower _ Hi _ (chars u)); [|exact Hu].
    rewrite map_map. symmetry. apply map_ext. intros a. apply lower_lower.
Qed.

Lemma found_same_case (fl : flags) (p t1 t2 : string) :
  cue fl p = true -> same_case t1 t2 ->
  is_some (re_search_flags fl p t1) = is_some (re_search_flags fl p t2).
Proof.
  intros Hc Hs.
  assert (Hdir : forall a b, same_case a b ->
            is_some (re_search_flags fl p a) = true ->
            is_some (re_search_flags fl p b) = true).
  { intros a b Hab Ha. apply (occurs_found _ _ _ Hc). apply found_occurs in Ha.
    unfold cue in Hc. apply andb_true_iff in Hc. destruct Hc as [Hc _].
    apply andb_true_iff in Hc. destruct Hc as [Hi _].
    apply (occurs_lower _ Hi _ (chars a)); [exact Hab|exact Ha]. }
  destruct (is_some (re_search_flags fl p t1)) eqn:E1;
    destruct (is_some (re_search_flags fl p t2)) eqn:E2; try reflexivity.
  - rewrite (Hdir _ _ Hs E1) in E2. discriminate.
  - rewrite (Hdir t2 t1 (eq_sym Hs) E2) in E1. discriminate.
Qed.

Lemma first_match_same_case (fl : flags) (table : list (string * string))
  (t1 t2 : string) :
  forallb (fun e => cue fl (snd e)) table = true -> same_case t1 t2 ->
  first_match fl table t1 = first_match fl table t2.
Proof.
  intros Hc Hs. induction table as [|[id p] table IH]; [reflexivity|].
  cbn [forallb snd] in Hc. apply andb_true_iff in Hc. destruct Hc as [Hp Hc].
  cbn [first_match]. rewrite (found_same_case _ _ _ _ Hp Hs), (IH Hc). reflexivity.
Qed.

(** Folding the letters A to Z first does not change the lower-case
    form. *)
Lemma lower_ascii_lower (a : ascii) : lower (ascii_lower a) = lower a.
Proof. char_cases a; reflexivity. Qed.

Lemma map_lower_ascii (l : list ascii) :
  map lower (map ascii_lower l) = map lower l.
Proof. rewrite map_map. apply map_ext. exact lower_ascii_lower. Qed.

Lemma same_ascii_same_case (t1 t2 : string) :
  same_ascii_case t1 t2 -> same_case t1 t2.
Proof.
  unfold same_ascii_case, same_case. intros H.
  rewrite <- (map_lower_ascii (chars t1)), H. apply map_lower_ascii.
Qed.

Lemma is_prefix_self (p post : list ascii) : is_prefix p (p ++ post) = true.
Proof.
  induction p as [|a p IH]; cbn [is_prefix app]; [reflexivity|].
  rewrite Ascii.eqb_refl. exact IH.
Qed.

Lemma contains_intro (p pre post : list ascii) :
  contains p (pre ++ p ++ post) = true.
Proof.
  induction pre as [|b pre IH]; cbn [app].
  - destruct (p ++ post) as [|c l] eqn:E; cbn [contains]; rewrite <- E;
      rewrite is_prefix_self; reflexivity.
  - cbn [contains]. rewrite IH. apply orb_true_r.
Qed.

Lemma contains_ascii_lower (u t : string) :
  contains_ascii_nocase u t = true -> contains_nocase u t = true.
Proof.
  unfold contains_ascii_nocase, contains_nocase. intros H.
  apply contains_spec in H. destruct H as (pre & post & H).
  rewrite <- (map_lower_ascii (chars t)), H, !map_app, map_lower_ascii.
  apply contains_intro.
Qed.

(** X1. The institution classifier ignores the case of the letters A to
    Z: two texts that differ only in the case of these letters are
    classified alike. *)
Theorem detect_institution_case (t1 t2 : string) :
  same_ascii_case t1 t2 -> _detect_institution t1 = _detect_institution t2.
Proof.
  intros Hs. apply same_ascii_same_case in Hs. unfold _detect_institution.
  rewrite (first_match_same_case _ institution_patterns t1 t2); auto.
Qed.

Lemma detect_institution_case_witness :
  _detect_institution "statement from BANK OF AMERICA"
  = _detect_institution "Statement from Bank of America".
Proof.
  apply (detect_institution_case "statement from BANK OF AMERICA"
           "Statement from Bank of America").
  vm_compute. reflexivity.
Defined.

(** X2. The statement-type classifier ignores the case of the letters A
    to Z. *)
Theorem detect_statement_type_case (t1 t2 : string) :
  same_ascii_case t1 t2 ->
  _detect_statement_type t1 = _detect_statement_type t2.
Proof.
  intros Hs. apply same_ascii_same_case in Hs. unfold _detect_statement_type.
  change re_search with (re_search_flags (Flags false false)).
  rewrite !(fun p H => found_same_case (Flags false false) p t1 t2 H Hs);
    reflexivity.
Qed.

Lemma detect_statement_type_case_witness :
  _detect_statement_type "SAVINGS ACCOUNT" = _detect_statement_type "Savings account".
Proof.
  apply (detect_statement_type_case "SAVINGS ACCOUNT" "Savings account").
  vm_compute. reflexivity.
Defined.

(** X3. The categorizer ignores the case of the letters A to Z, in its
    table as in its fallback. *)
Theorem categorize_case (d1 d2 : string) :
  same_ascii_case d1 d2 ->
  _categorize_transaction d1 = _categorize_transaction d2.
Proof.
  intros Hs. apply same_ascii_same_case in Hs. unfold _categorize_transaction.
  rewrite (first_match_same_case _ category_patterns d1 d2); auto.
  unfold same_case in Hs. rewrite Hs. reflexivity.
Qed.

Lemma categorize_case_witness :
  _categorize_transaction "UBER TRIP" = _categorize_transaction "Uber trip".
Proof.
  apply (categorize_case "UBER TRIP" "Uber trip").
  vm_compute. reflexivity.
Defined.

Lemma first_match_some (fl : flags) (text id : string) :
  forall table,
    first_match fl table text = Some id ->
    exists pre p post,
      table = pre ++ (id, p) :: post
      /\ is_some (re_search_flags fl p text) = true.
Proof.
  induction table as [|[id0 p0] table IH]; cbn [first_match]; intros H;
    [discriminate|].
  destruct (is_some (re_search_flags fl p0 text)) eqn:E.
  - injection H as <-. exists [], p0, table. auto.
  - destruct (IH H) as (pre & p & post & -> & Hp).
    exists ((id0, p0) :: pre), p, post. auto.
Qed.

Lemma cue_in (fl : flags) (table : list (string * string)) (id p : string) :
  forallb (fun e => cue fl (snd e)) table = true ->
  In (id, p) table -> cue fl p = true.
Proof.
  intros H Hin. rewrite forallb_forall in H. apply (H _ Hin).
Qed.

Lemma split_earlier {A : Type} (pre pre' post post' : list A) (a a' : A) :
  pre ++ a :: post = pre' ++ a' :: post' ->
  (length pre' <= length pre)%nat ->
  In a' (pre ++ [a]).
Proof.
  revert pre'. induction pre as [|b pre IH]; intros pre' H L.
  - destruct pre' as [|b' pre']; [|cbn in L; lia].
    cbn in H. injection H as -> _. cbn. auto.
  - destruct pre' as [|b' pre'].
    + cbn in H. injection H as -> _. cbn. auto.
    + cbn in H. injection H as -> H. cbn in L. right.
      apply (IH pre' H). lia.
Qed.

(** Text around a fragment can only move the answer up the table. *)
Lemma first_match_fragment (fl : flags) (table : list (string * string))
  (u text id : string) :
  forallb (fun e => cue fl (snd e)) table = true ->
  contains_nocase u text = true ->
  first_match fl table u = Some id ->
  exists pre p post id',
    table = pre ++ (id, p) :: post
    /\ first_match fl table text = Some id'
    /\ In id' (map fst pre ++ [id]).
Proof.
  intros Hc Hin Hu.
  destruct (first_match_some _ _ _ _ Hu) as (pre & p & post & Ht & Hp).
  assert (Hcue : cue fl p = true).
  { apply (cue_in fl table id p Hc). rewrite Ht. apply in_elt. }
  pose proof (found_fragment _ _ _ _ Hcue Hin Hp) as Hp'.
  destruct (@first_match_earlier fl text id p post pre Hp')
    as (pre' & id' & p' & post' & Heq & Hf & Hl & _).
  exists pre, p, post, id'. split; [exact Ht|]. split; [rewrite Ht; exact Hf|].
  pose proof (split_earlier _ _ _ _ _ _ Heq Hl) as Hi.
  apply (in_map fst) in Hi. rewrite map_app in Hi. exact Hi.
Qed.

(** X4. Text around a fragment never hides the institution named in
    it: when a fragment is classified as an institution, every text
    that contains the fragment, up to the case of the letters A to Z,
    is classified as that institution or as one declared before it in
    the table, and never as "unknown". *)
Theorem institution_fragment (u text : string) :
  contains_ascii_nocase u text = true ->
  _detect_institution u <> "unknown" ->
  _detect_institution text <> "unknown"
  /\ exists pre p post,
       institution_patterns = pre ++ (_detect_institution u, p) :: post
       /\ In (_detect_institution text) (map fst pre ++ [_detect_institution u]).
Proof.
  intros Hin Hu. apply contains_ascii_lower in Hin.
  unfold _detect_institution in *.
  destruct (first_match _ institution_patterns u) as [id|] eqn:E;
    [|exfalso; apply Hu; reflexivity].
  destruct (first_match_fragment _ institution_patterns u text id
              eq_refl Hin E) as (pre & p & post & id' & Ht & Hf & Hi).
  rewrite Hf. split; [|exists pre, p, post; split; [exact Ht|exact Hi]].
  intros ->.
  assert (Hk : ~ In "unknown" (map fst institution_patterns)).
  { cbn. intros H. decompose [or] H; try discriminate; contradiction. }
  apply Hk. rewrite Ht, map_app. cbn [map fst].
  apply in_app_or in Hi. apply in_or_app.
  destruct Hi as [Hi|[Hi|[]]]; [left; exact Hi|right; left; exact Hi].
Qed.

Lemma institution_fragment_witness :
  _detect_institution "Statement of your BofA account at Chase Plaza" <> "unknown"
  /\ exists pre p post,
       institution_patterns = pre ++ ("bofa", p) :: post
       /\ In (_detect_institution "Statement of your BofA account at Chase Plaza")
             (map fst pre ++ ["bofa"]).
Proof.
  apply (institution_fragment "BOFA" "Statement of your BofA account at Chase Plaza").
  - vm_compute. reflexivity.
  - vm_compute. discriminate.
Defined.

(** X5. The Chase pattern is the first of the table and is searched
    anywhere: every text that contains a fragment classified "chase",
    such as the word purchase, is classified "chase", whatever other
    institution it names. *)
Theorem chase_fragment (u text : string) :
  contains_nocase u text = true ->
  _detect_institution u = "chase" ->
  _detect_institution text = "chase".
Proof.
  intros Hin Hu. unfold _detect_institution in *.
  destruct (first_match _ institution_patterns u) as [id|] eqn:E;
    [|discriminate]. subst id.
  destruct (first_match_fragment _ institution_patterns u text "chase"
              eq_refl Hin E) as (pre & p & post & id' & Ht & Hf & Hi).
  rewrite Hf. apply in_app_or in Hi. destruct Hi as [Hi|[<-|[]]]; [|reflexivity].
  exfalso. unfold institution_patterns in Ht.
  destruct pre as [|e pre]; [contradiction|].
  cbn [app] in Ht. injection Ht as <- Ht.
  assert (Hn : ~ In ("chase", p) (tl institution_patterns)).
  { cbn. intros H. decompose [or] H; try discriminate; contradiction. }
  apply Hn. unfold institution_patterns. cbn [tl]. rewrite Ht. apply in_elt.
Qed.

Lemma chase_fragment_witness :
  _detect_institution "Wells Fargo card ending 1234: PURCHASES 12.00" = "chase".
Proof.
  apply (chase_fragment "purchase").
  - vm_compute. reflexivity.
  - vm_compute. reflexivity.
Defined.

(** X6. The credit-card cues are tried first and searched anywhere:
    every text that contains, up to the case of the letters A to Z, a
    fragment typed "credit_card", such as the letters apr of April, is
    typed "credit_card", whatever else it says. *)
Theorem credit_card_fragment (u text : string) :
  contains_ascii_nocase u text = true ->
  _detect_statement_type u = "credit_card" ->
  _detect_statement_type text = "credit_card".
Proof.
  intros Hin Hu. apply contains_ascii_lower in Hin.
  unfold _detect_statement_type in *.
  change re_search with (re_search_flags (Flags false false)) in *.
  destruct (is_some (re_search_flags _ _ u)) eqn:E.
  - rewrite (found_fragment (Flags false false)
               "(?i)credit\s+card|credit\s+account|APR|cash\s+advance"
               u text eq_refl Hin E). reflexivity.
  - exfalso. clear E.
    repeat match type of Hu with
           | (if ?b then _ else _) = _ => destruct b
           end; discriminate.
Qed.

Lemma credit_card_fragment_witness :
  _detect_statement_type "Checking account statement, April 2024" = "credit_card".
Proof.
  apply (credit_card_fragment "Apr").
  - vm_compute. reflexivity.
  - vm_compute. reflexivity.
Defined.

(** X7. The dining keywords come first in the category table: every
    description that contains, up to the case of the letters A to Z, a
    fragment categorized "dining" is categorized "dining".  The keyword
    food, also listed for groceries, never gives "grocery": WHOLE FOODS
    MARKET is dining. *)
Theorem dining_fragment (u description : string) :
  contains_ascii_nocase u description = true ->
  _categorize_transaction u = Some "dining" ->
  _categorize_transaction description = Some "dining".
Proof.
  intros Hin Hu. apply contains_ascii_lower in Hin.
  unfold _categorize_transaction in *.
  destruct (first_match _ category_patterns u) as [id|] eqn:E.
  - injection Hu as ->.
    destruct (first_match_fragment _ category_patterns u description "dining"
                eq_refl Hin E) as (pre & p & post & id' & Ht & Hf & Hi).
    rewrite Hf. apply in_app_or in Hi. destruct Hi as [Hi|[<-|[]]]; [|reflexivity].
    exfalso. unfold category_patterns in Ht.
    destruct pre as [|e pre]; [contradiction|].
    cbn [app] in Ht. injection Ht as <- Ht.
    assert (Hn : ~ In ("dining", p) (tl category_patterns)).
    { cbn. intros H. decompose [or] H; try discriminate; contradiction. }
    apply Hn. unfold category_patterns. cbn [tl]. rewrite Ht. apply in_elt.
  - destruct (_ || _); discriminate.
Qed.

Lemma dining_fragment_witness :
  _categorize_transaction "WHOLE FOODS MARKET #123" = Some "dining".
Proof.
  apply (dining_fragment "food").
  - vm_compute. reflexivity.
  - vm_compute. reflexivity.
Defined.

(** X8. In the fallback of the categorizer the test for "deposit" never
    decides: a description that contains it is already categorized by
    the table, whose income pattern lists the word.  The categorizer
    equals the one whose fallback tests "credit" only. *)
Theorem deposit_test_dead (description : string) :
  _categorize_transaction description = categorize_credit_only description.
Proof.
  unfold _categorize_transaction, categorize_credit_only.
  destruct (first_match _ category_patterns description) as [id|] eqn:E;
    [reflexivity|].
  destruct (contains (chars "deposit") (map lower (chars description))) eqn:Ed;
    [|reflexivity].
  exfalso.
  assert (Hu : first_match IGNORECASE category_patterns "deposit" = Some "income")
    by (vm_compute; reflexivity).
  destruct (first_match_fragment _ category_patterns "deposit" description "income"
              eq_refl Ed Hu) as (pre & p & post & id' & _ & Hf & _).
  rewrite Hf in E. discriminate E.
Qed.

End Classifiers.

(** * Further properties of the extractors *)

Module Extractors.

Import Py Re Lib Parser ReFacts ParserFacts Notions ReComplete Binary64.

Local Open Scope string_scope.
Local Open Scope list_scope.
Local Unset Implicit Arguments.

Lemma for_each_raise {A B : Type} (f : A -> result B) (l : list A) :
  for_each f l = Raise ValueError <-> Exists (fun a => f a = Raise ValueError) l.
Proof.
  induction l as [|a l IH]; cbn [for_each].
  - split; [discriminate|]. intros H. inversion H.
  - destruct (f a) as [b|[]] eqn:E; cbn [bind].
    + destruct (for_each f l) as [bs|[]]; cbn [bind].
      * split; [discriminate|]. intros H. inversion H as [? ? H1|? ? H1]; subst.
        -- rewrite E in H1. discriminate.
        -- apply IH in H1. discriminate.
      * split; [|reflexivity]. intros _. apply Exists_cons_tl. apply IH. reflexivity.
    + split; [|reflexivity]. intros _. apply Exists_cons_hd. exact E.
Qed.

Lemma Exists_iff {A : Type} (P Q : A -> Prop) (l : list A) :
  (forall a, In a l -> (P a <-> Q a)) -> (Exists P l <-> Exists Q l).
Proof.
  intros H. rewrite !Exists_exists. split; intros (a & Hin & Ha); exists a;
    (split; [exact Hin|]); apply (H a Hin); exact Ha.
Qed.

Lemma dated_raise (date_str : list ascii) :
  dated date_str = Raise ValueError <-> bad_date date_str.
Proof.
  unfold dated, bad_date.
  destruct (strptime date_str "%m/%d/%Y"); [split; [discriminate|intros [H _]; discriminate]|].
  destruct (strptime date_str "%m/%d/%y"); cbn [of_option];
    [split; [discriminate|intros [_ H]; discriminate]|tauto].
Qed.

(** X9. The Chase, Bank of America and American Express strategies
    raise [ValueError] exactly when the date token of some match of
    their pattern is read by no format they try: for Chase the token
    followed by the current year with the format month/day/year, for
    the other two the token with a four-digit and with a two-digit
    year.  Amounts never make them raise. *)
Theorem strategies_raise_on_dates (now : datetime) (text : string) :
  (_extract_transactions now text "chase" "credit_card" = Raise ValueError
   <-> Exists (fun x =>
                 strptime (grp x 1 ++ chars "/" ++ str_of_Z (year now)) "%m/%d/%Y"
                 = None)
         (re_finditer chase_tx_pattern (transaction_section text)))
  /\ (_extract_transactions now text "bofa" "bank" = Raise ValueError
      <-> Exists (fun x => bad_date (grp x 1))
            (re_finditer bofa_tx_pattern (transaction_section text)))
  /\ (_extract_transactions now text "amex" "credit_card" = Raise ValueError
      <-> Exists (fun x => bad_date (grp x 1))
            (re_finditer amex_tx_pattern (transaction_section text))).
Proof.
  unfold _extract_transactions.
  cbn [String.eqb Ascii.eqb Bool.eqb andb].
  split; [|split]; rewrite for_each_raise; apply Exists_iff; intros x Hx.
  - destruct (transaction_amounts_parse chase_tx_pattern (transaction_section text) x) as (v & Hv);
      [in_list|exact Hx|].
    unfold chase_tx. rewrite Hv.
    destruct (strptime _ _); cbn [bind of_option]; split; try discriminate; reflexivity.
  - destruct (transaction_amounts_parse bofa_tx_pattern (transaction_section text) x) as (v & Hv);
      [in_list|exact Hx|].
    rewrite <- dated_raise. unfold bofa_tx. rewrite Hv.
    destruct (dated (grp x 1)) as [d|[]]; cbn [bind of_option];
      split; try discriminate; reflexivity.
  - destruct (transaction_amounts_parse amex_tx_pattern (transaction_section text) x) as (v & Hv);
      [in_list|exact Hx|].
    assert (Htok : amount_token (grp x 3)).
    { apply finditer_matched in Hx.
      apply (amount_group amex_tx_pattern 3
               (Cat sign_opt (Cat (Chr "$") amount_tail)) x);
        [vm_compute; reflexivity|in_list|exact Hx]. }
    destruct (float_amount_token _ Htok) as (w & Hw & _).
    rewrite <- dated_raise. unfold amex_tx, amex_amount. rewrite Hw.
    destruct (dated (grp x 1)) as [d|[]]; cbn [bind of_option].
    + destruct (negb _); cbn [bind]; split; discriminate.
    + split; reflexivity.
Qed.

Lemma strategies_raise_on_dates_witness :
  _extract_transactions (Datetime 2026 11 3 10 20 30 0)
    "Bank of America checking 13/45/2023 COFFEE $5.00" "bofa" "bank"
  = Raise ValueError.
Proof.
  apply (proj1 (proj2 (strategies_raise_on_dates (Datetime 2026 11 3 10 20 30 0)
                         "Bank of America checking 13/45/2023 COFFEE $5.00"))).
  set (l := re_finditer _ _). vm_compute in l. subst l.
  apply Exists_cons_hd. split; vm_compute; reflexivity.
Defined.

(** X10. Outside the three institution-specific strategies the pipeline
    never raises: whatever the text, it returns a result. *)
Theorem parse_generic_total (now today : datetime) (text : string) :
  specific (_detect_institution text) (_detect_statement_type text) = false ->
  exists r, parse now today text = Ok r.
Proof.
  intros Hs. unfold parse.
  destruct (extract_balance_total text (_detect_institution text)
              (_detect_statement_type text)) as (b & ->).
  cbn [bind]. unfold specific in Hs.
  apply orb_false_iff in Hs. destruct Hs as [Hs H3].
  apply orb_false_iff in Hs. destruct Hs as [H1 H2].
  unfold _extract_transactions. rewrite H1, H2, H3. cbn [bind].
  eexists. reflexivity.
Qed.

Lemma parse_generic_total_witness :
  exists r, parse (Datetime 2026 11 3 10 20 30 0) (Datetime 2026 11 3 10 20 31 0)
              "Wells Fargo checking 13/45/2023 COFFEE $5.00" = Ok r.
Proof.
  apply (parse_generic_total (Datetime 2026 11 3 10 20 30 0)
           (Datetime 2026 11 3 10 20 31 0)).
  vm_compute. reflexivity.
Defined.

Lemma written_amount (p text : string) (x : rmatch) :
  In p [chase_tx_pattern; bofa_tx_pattern;
        combined_pattern "(\d{1,2}/\d{1,2}(?:/\d{2,4})?)";
        combined_pattern "(\d{1,2}-\d{1,2}(?:-\d{2,4})?)"] ->
  In x (re_finditer p text) ->
  exists v,
    float (clean_amount (grp x 3)) = Some v
    /\ (if startswith "-" (grp x 3) then (v <= 0)%Q else (0 <= v)%Q).
Proof.
  intros Hp Hx. apply finditer_matched in Hx.
  assert (Ha : exists a,
             last_group (pat_re (re_compile (Flags false false) p))
             = Some (3%nat, a)
             /\ In a amount_exprs).
  { simpl in Hp. decompose [or] Hp; subst; try contradiction;
      eexists; (split; [vm_compute; reflexivity|in_list]). }
  destruct Ha as (a & Hl & Hin).
  destruct (float_amount_token _ (amount_group p 3 a x Hl Hin Hx))
    as (v & Hv & _ & Hs).
  exists v. auto.
Qed.

Lemma filter_map_all {A B : Type} (f : A -> option B) (R : A -> B -> Prop) :
  forall l,
    (forall a, In a l -> exists b, f a = Some b /\ R a b) ->
    Forall2 R l (filter_map f l).
Proof.
  induction l as [|a l IH]; intros H; cbn [filter_map]; [constructor|].
  destruct (H a (or_introl eq_refl)) as (b & -> & Hb).
  constructor; [exact Hb|]. apply IH. intros a' Ha'. apply H. right. exact Ha'.
Qed.

(** X11. The Chase, the Bank of America and the generic strategies
    store each amount as it is written: the value of the matched token,
    negative or zero when the token starts with a minus sign and
    positive or zero otherwise.  Each match gives exactly one
    transaction, in order; the generic strategy skips none. *)
Theorem amounts_as_written (now : datetime) (text : string) :
  (forall txs,
      _extract_transactions now text "chase" "credit_card" = Ok txs ->
      Forall2 amount_as_written
        (re_finditer chase_tx_pattern (transaction_section text)) txs)
  /\ (forall txs,
      _extract_transactions now text "bofa" "bank" = Ok txs ->
      Forall2 amount_as_written
        (re_finditer bofa_tx_pattern (transaction_section text)) txs)
  /\ (forall institution statement_type txs,
      specific institution statement_type = false ->
      _extract_transactions now text institution statement_type = Ok txs ->
      Forall2 amount_as_written (generic_matches text) txs).
Proof.
  split; [|split].
  - intros txs H. unfold _extract_transactions in H.
    cbn [String.eqb Ascii.eqb Bool.eqb andb] in H.
    apply for_each_ok in H. eapply Forall2_impl; [|exact H].
    intros x tx [Hin Htx]. cbv beta in *.
    destruct (written_amount chase_tx_pattern (transaction_section text) x) as (v & Hv & Hs);
      [in_list|exact Hin|].
    exists v. split; [exact Hv|]. split; [|exact Hs].
    unfold chase_tx in Htx. rewrite Hv in Htx.
    destruct (strptime _ _); cbn [bind of_option] in Htx; [|discriminate].
    injection Htx as <-. reflexivity.
  - intros txs H. unfold _extract_transactions in H.
    cbn [String.eqb Ascii.eqb Bool.eqb andb] in H.
    apply for_each_ok in H. eapply Forall2_impl; [|exact H].
    intros x tx [Hin Htx]. cbv beta in *.
    destruct (written_amount bofa_tx_pattern (transaction_section text) x) as (v & Hv & Hs);
      [in_list|exact Hin|].
    exists v. split; [exact Hv|]. split; [|exact Hs].
    unfold bofa_tx in Htx. rewrite Hv in Htx.
    destruct (dated _); cbn [bind of_option] in Htx; [|discriminate].
    injection Htx as <-. reflexivity.
  - intros institution statement_type txs Hsp H.
    unfold specific in Hsp.
    apply orb_false_iff in Hsp. destruct Hsp as [Hsp H3].
    apply orb_false_iff in Hsp. destruct Hsp as [H1 H2].
    unfold _extract_transactions in H. rewrite H1, H2, H3 in H.
    injection H as <-. unfold generic_matches, date_patterns.
    cbn [flat_map]. rewrite !app_nil_r.
    apply Forall2_app; apply filter_map_all; intros x Hx.
    + destruct (written_amount (combined_pattern "(\d{1,2}/\d{1,2}(?:/\d{2,4})?)") (transaction_section text) x)
        as (v & Hv & Hs); [in_list|exact Hx|].
      unfold generic_tx. rewrite Hv. eexists. split; [reflexivity|].
      exists v. auto.
    + destruct (written_amount (combined_pattern "(\d{1,2}-\d{1,2}(?:-\d{2,4})?)") (transaction_section text) x)
        as (v & Hv & Hs); [in_list|exact Hx|].
      unfold generic_tx. rewrite Hv. eexists. split; [reflexivity|].
      exists v. auto.
Qed.

Lemma amounts_as_written_witness :
  Forall2 amount_as_written
    (re_finditer bofa_tx_pattern
       (transaction_section "Bank of America checking 01/15/2023 COFFEE -$5.00"))
    [mkTransaction (Datetime 2023 1 15 0 0 0 0) "COFFEE" (-5 # 1) None None].
Proof.
  apply (proj1 (proj2 (amounts_as_written (Datetime 2026 11 3 10 20 30 0)
                         "Bank of America checking 01/15/2023 COFFEE -$5.00"))).
  vm_compute. reflexivity.
Defined.

Lemma balance_expr_unsigned (fl : flags) (s : list ascii) (c : caps)
  (s' : list ascii) (c' : caps) :
  den fl balance_amount_expr s c s' c' ->
  amount_token (firstn (length s - length s') s)
  /\ startswith "-" (firstn (length s - length s') s) = false.
Proof.
  intros H. split.
  { apply (amount_expr_shape fl balance_amount_expr s c s' c'); [in_list|exact H]. }
  destruct H as (s2 & c2 & Hd & Ht).
  apply dollar_shape in Hd; [|simpl; auto].
  destruct Hd as (_ & dl & -> & Hdl).
  apply amount_tail_shape in Ht.
  destruct Ht as (_ & body & d1 & d2 & -> & Hbody & H1 & H2).
  replace (dl ++ body ++ ["."%char; d1; d2] ++ s')
    with ((dl ++ body ++ ["."%char; d1; d2]) ++ s')
    by (rewrite <- !app_assoc; reflexivity).
  rewrite firstn_consumed.
  destruct Hdl as [->| ->]; [|reflexivity]. cbn [app].
  destruct body as [|ch body]; [reflexivity|].
  inversion Hbody as [|? ? Hch _]; subst. cbn [app startswith].
  destruct Hch as [Hch| ->]; [|reflexivity].
  apply (digit_not_minus ch []). exact Hch.
Qed.

Lemma balance_value (ps : list string) (text : string) (x : rmatch) :
  Forall (fun p =>
            last_group (pat_re (re_compile (Flags false false) p))
            = Some (1%nat, balance_amount_expr)) ps ->
  first_search ps text = Some x ->
  exists v, float (clean_amount (grp x 1)) = Some v /\ (0 <= v)%Q.
Proof.
  intros Hps H. apply first_search_some in H. destruct H as (p & Hin & Hs).
  rewrite Forall_forall in Hps. pose proof (Hps p Hin) as Hl.
  pose proof (search_matched p text x Hs) as Hm.
  destruct (matched_last_group Hm Hl) as (s1 & c1 & s' & c2 & Hd & Hg).
  apply balance_expr_unsigned in Hd. rewrite <- Hg in Hd. destruct Hd as [Htok Hsw].
  destruct (float_amount_token _ Htok) as (v & Hv & _ & Hsign).
  rewrite Hsw in Hsign. exists v. auto.
Qed.

(** X12. The balance extractor never raises, and no balance it returns
    is negative: the amount group of the balance patterns has no sign.
    A balance written with a minus sign, as in Closing Balance:
    -$120.00, is not read: the closing balance stays 0.0. *)
Theorem balances_nonnegative (text institution statement_type : string) :
  (exists b,
      _extract_balance text institution statement_type = Ok b
      /\ (0 <= b_closing b)%Q
      /\ match b_opening b with Some v => (0 <= v)%Q | None => True end)
  /\ _extract_balance "Closing Balance: -$120.00" "chase" "credit_card"
     = Ok (mkBalance 0 None).
Proof.
  split; [|vm_compute; reflexivity].
  unfold _extract_balance.
  assert (Hc : Forall (fun p =>
            last_group (pat_re (re_compile (Flags false false) p))
            = Some (1%nat, balance_amount_expr)) (closing_patterns statement_type)).
  { unfold closing_patterns.
    destruct (String.eqb statement_type "credit_card"); cbn [app];
      repeat constructor; vm_compute; reflexivity. }
  assert (Ho : Forall (fun p =>
            last_group (pat_re (re_compile (Flags false false) p))
            = Some (1%nat, balance_amount_expr)) opening_patterns).
  { repeat constructor; vm_compute; reflexivity. }
  destruct (first_search (closing_patterns statement_type) text) as [x|] eqn:E1;
    [destruct (balance_value _ _ _ Hc E1) as (v & -> & Hv)|];
    (destruct (first_search opening_patterns text) as [y|] eqn:E2;
     [destruct (balance_value _ _ _ Ho E2) as (w & -> & Hw)|]);
    cbn [bind of_option]; eexists; (split; [reflexivity|]);
    cbn [b_closing b_opening]; split; auto; apply Qle_refl.
Qed.

(** From fifty transactions on the score is the one of fifty. *)
Lemma score_values (n : nat) :
  transactions_score n = transactions_score (Nat.min n 50).
Proof.
  destruct (Nat.le_gt_cases n 50) as [H|H]; [rewrite Nat.min_l by exact H; reflexivity|].
  rewrite Nat.min_r by lia. unfold transactions_score.
  destruct n as [|n]; [lia|]. cbn [Nat.ltb Nat.leb].
  rewrite !score_cap by lia. reflexivity.
Qed.

Lemma score_bounds (k : nat) (a pe ba : PrimFloat.float) :
  (k <= 50)%nat ->
  In a [0.9%float; 0.3%float] -> In pe [0.3%float; 0.9%float] ->
  In ba [0.8%float; 0.5%float] ->
  let t := transactions_score k in
  let o := ((a + pe + ba + t) / 4)%float in
  ((0.1 <=? t) && (t <=? 0.9) && (0.1 <=? o) && (o <=? 0.9)
   && (0.3 <=? o) && (o <=? 0.875))%float = true.
Proof.
  intros Hk Ha Hpe Hba.
  assert (H : forallb (fun k =>
                forallb (fun a =>
                  forallb (fun pe =>
                    forallb (fun ba =>
                      let t := transactions_score k in
                      let o := ((a + pe + ba + t) / 4)%float in
                      ((0.1 <=? t) && (t <=? 0.9) && (0.1 <=? o) && (o <=? 0.9)
                       && (0.3 <=? o) && (o <=? 0.875))%float)
                      [0.8%float; 0.5%float])
                    [0.3%float; 0.9%float])
                  [0.9%float; 0.3%float])
                (seq 0 51) = true) by (vm_compute; reflexivity).
  rewrite forallb_forall in H.
  assert (Hin : In k (seq 0 51)) by (apply in_seq; lia).
  pose proof (H k Hin) as H1. rewrite forallb_forall in H1.
  pose proof (H1 a Ha) as H2. rewrite forallb_forall in H2.
  pose proof (H2 pe Hpe) as H3. rewrite forallb_forall in H3.
  exact (H3 ba Hba).
Qed.

(** X13. The confidence map has the five keys account_info, period,
    balance, transactions and overall, in this order; in binary64, as
    the code computes them, every score lies between 0.1 and 0.9, and
    the overall score between 0.3 and 0.875. *)
Theorem confidence_bounds (today : datetime) (account_info : AccountInfo)
  (period : Period) (balance : Balance) (transactions : list Transaction) :
  let conf :=
    _calculate_confidence today account_info period balance transactions in
  map fst conf = ["account_info"; "period"; "balance"; "transactions"; "overall"]
  /\ Forall (fun e => (0.1 <=? snd e)%float = true
                      /\ (snd e <=? 0.9)%float = true) conf
  /\ (0.3 <=? dict_at conf "overall")%float = true
  /\ (dict_at conf "overall" <=? 0.875)%float = true.
Proof.
  cbv zeta. rewrite calculated. cbv zeta.
  rewrite (score_values (length transactions)).
  set (k := Nat.min (length transactions) 50).
  assert (Hk : (k <= 50)%nat) by (unfold k; lia).
  destruct (negb (ai_number account_info =? "Unknown")%string);
    destruct ((year (p_start period) =? year today)%Z
              && (month (p_start period) =? month today)%Z
              && (day (p_start period) =? 1)%Z);
    destruct (b_opening balance);
    match goal with
    | |- context [ ("account_info", ?a) :: ("period", ?pe) :: ("balance", ?ba) :: _ ] =>
        pose proof (score_bounds k a pe ba Hk
                      ltac:(cbn; auto) ltac:(cbn; auto) ltac:(cbn; auto)) as Hb
    end;
    cbv zeta in Hb;
    repeat (apply andb_true_iff in Hb;
            let H := fresh "Hb" in destruct Hb as [Hb H]);
    cbn [dict_get dict_at String.eqb Ascii.eqb Bool.eqb map fst snd];
    (split; [reflexivity|]);
    (split;
     [repeat (apply Forall_cons;
              [cbn [snd]; split;
               first [assumption | vm_compute; reflexivity]|]);
      apply Forall_nil|]);
    split; assumption.
Qed.

Lemma den_last_group_suffix (fl : flags) (r : regex) :
  forall i a, last_group r = Some (i, a) ->
  forall s c s' c', den fl r s c s' c' ->
  exists pre s1 c1 c2,
    s = pre ++ s1 /\ den fl a s1 c1 s' c2
    /\ c' = (i, firstn (length s1 - length s') s1) :: c2.
Proof.
  induction r as [ | ch | | items | | r1 IH1 r2 IH2 | r1 IH1 r2 IH2
                 | j r IH | g lo hi r IH | r IH ];
    intros i a Hl s c s' c' Hd; try discriminate.
  cbn [den] in Hd. destruct Hd as (s1 & c1 & H1 & H2).
  assert (Hcase : (r1 = Grp i a /\ r2 = Eps) \/ last_group r2 = Some (i, a)).
  { cbn [last_group] in Hl. destruct r1; auto. destruct r2; auto.
    injection Hl as -> ->. auto. }
  destruct Hcase as [[-> ->]|Hl2].
  - cbn [den] in H1, H2. destruct H1 as (c2 & H1 & ->). destruct H2 as [-> ->].
    exists [], s, c, c2. auto.
  - destruct (den_prefix _ _ _ _ _ _ H1) as (t & -> & _).
    destruct (IH2 _ _ Hl2 _ _ _ _ H2) as (pre & s2 & c2 & c3 & -> & Ha & Hc).
    exists (t ++ pre), s2, c2, c3. rewrite <- app_assoc. auto.
Qed.

Lemma same_suffix {A : Type} (a b c d : list A) :
  a ++ b = c ++ d -> length b = length d -> b = d.
Proof.
  intros H L.
  assert (La : length a = length c).
  { apply (f_equal (@length A)) in H. rewrite !length_app in H. lia. }
  revert c H La. induction a as [|x a IH]; intros [|y c] H La;
    try discriminate; cbn in *; [exact H|].
  injection H as _ H. apply (IH c H). lia.
Qed.

(** The year of a date read with the format month/day/year is the value
    of the last four characters of the data. *)
Lemma strptime_year (fmt : string) (data : list ascii) (d : datetime) :
  fmt = "%m/%d/%Y" \/ fmt = "%m-%d-%Y" ->
  strptime data fmt = Some d ->
  exists pre g, data = pre ++ g /\ length g = 4%nat /\ int g = Some (year d).
Proof.
  intros [-> | ->]; unfold strptime.
  all: set (f := format_regex _); vm_compute in f; subst f; cbv iota beta.
  all: set (p := compile_with _ _); vm_compute in p; subst p; cbv iota beta.
  all: match goal with
       | |- context [match_ ?p _] => set (pt := p)
       end.
  all: destruct (match_ pt (str data)) as [x|] eqn:Hm; [|discriminate].
  all: destruct (Nat.eqb_spec (m_end x) (length data)) as [He|]; [|discriminate].
  all: cbn [read_fields].
  all: destruct (int (grp x 1)) as [mo|]; [|discriminate].
  all: destruct (int (grp x 2)) as [dd|]; [|discriminate].
  all: destruct (int (grp x 3)) as [y|] eqn:Hy; [|discriminate].
  all: intros Hd.
  all: assert (Hyear : year d = y)
         by (unfold mk_date in Hd; destruct (_ && _); [|discriminate];
             injection Hd as <-; reflexivity).
  all: rewrite Hyear.
  all: unfold match_, str, chars in Hm;
       rewrite list_ascii_of_string_of_list_ascii in Hm.
  all: apply match_here_spec in Hm.
  all: destruct Hm as ((s & s' & Hden & Hs & Hend) & Hstart & (post & Hpost) & _).
  all: assert (Hlen : length (m_text x) = length data) by lia.
  all: assert (Hp : post = [])
         by (apply (f_equal (@length ascii)) in Hpost; rewrite length_app in Hpost;
             destruct post; [reflexivity|]; cbn in Hpost; lia).
  all: subst post; rewrite app_nil_r in Hpost.
  all: cbn [pat_flags pat_re pt] in Hden.
  all: match type of Hden with
       | den _ ?r _ _ _ _ =>
           assert (Hl : exists a, last_group r = Some (3%nat, a)
                       /\ a = Cat (Cls [IDigit]) (Cat (Cls [IDigit])
                                (Cat (Cls [IDigit]) (Cat (Cls [IDigit]) Eps))))
             by (eexists; split; vm_compute; reflexivity)
       end.
  all: destruct Hl as (a & Hl & Ha).
  all: destruct (den_last_group_suffix _ _ _ _ Hl _ _ _ _ Hden)
         as (pre & s1 & c1 & c2 & Hs1 & Hda & Hc).
  all: subst a; cbn [den] in Hda.
  all: destruct Hda as (s2 & ? & (a1 & -> & _ & _) & s3 & ? & (a2 & -> & _ & _)
                        & s4 & ? & (a3 & -> & _ & _) & s5 & ? & (a4 & -> & _ & _)
                        & Hs5 & _).
  all: subst s5.
  all: assert (Hg : grp x 3 = [a1; a2; a3; a4])
         by (unfold grp; rewrite Hc; cbn [group Nat.eqb];
             change (a1 :: a2 :: a3 :: a4 :: s') with ([a1; a2; a3; a4] ++ s');
             apply firstn_consumed).
  all: exists pre, [a1; a2; a3; a4].
  all: split; [|split; [reflexivity|rewrite <- Hg; exact Hy]].
  all: rewrite <- Hpost in Hs; rewrite Hs1 in Hs.
  all: change (a1 :: a2 :: a3 :: a4 :: s') with ([a1; a2; a3; a4] ++ s') in Hs.
  all: rewrite app_assoc in Hs; apply app_inv_tail in Hs; symmetry; exact Hs.
Qed.

Lemma current_year_read (now : datetime) (date_str sep : list ascii)
  (fmt : string) (d : datetime) :
  (1000 <= year now <= 9999)%Z ->
  fmt = "%m/%d/%Y" \/ fmt = "%m-%d-%Y" ->
  strptime (date_str ++ sep ++ str_of_Z (year now)) fmt = Some d ->
  year d = year now.
Proof.
  intros Hy Hfmt H. apply (strptime_year fmt _ d Hfmt) in H.
  destruct H as (pre & g & Hdata & Hlen & Hint).
  destruct (year_digits (year now) Hy)
    as (c1 & c2 & c3 & c4 & Hstr & H1 & H2 & H3 & H4 & Hv).
  rewrite Hstr in Hdata. rewrite !app_assoc in Hdata.
  apply same_suffix in Hdata; [|rewrite Hlen; reflexivity].
  subst g. rewrite (int_digits c1 c2 c3 c4 (year now) H1 H4 Hv) in Hint.
  injection Hint as <-. reflexivity.
Qed.

Lemma yearless_date (now : datetime) (date_str : list ascii) :
  (1000 <= year now <= 9999)%Z ->
  yearless date_str = true ->
  year (generic_date now date_str) = year now.
Proof.
  intros Hy Hl. unfold yearless in Hl. unfold generic_date.
  destruct (contains_char "/" date_str); apply negb_true_iff in Hl; rewrite Hl.
  - destruct (strptime _ _) as [d|] eqn:E; [|reflexivity].
    apply (current_year_read now _ _ _ d Hy (or_introl eq_refl) E).
  - destruct (strptime _ _) as [d|] eqn:E; [|reflexivity].
    apply (current_year_read now _ _ _ d Hy (or_intror eq_refl) E).
Qed.

(** X14. A date written without a year is put in the year of the clock,
    whatever the year of the statement.  The Chase strategy does so for
    every transaction: a line dated 12/28 read in January is dated
    December 28 of the new year.  The generic strategy does so for
    every token without a year component, be it read or replaced by the
    current time. *)
Theorem dates_in_current_year (now : datetime) (text : string) :
  (1000 <= year now <= 9999)%Z ->
  (forall txs,
      _extract_transactions now text "chase" "credit_card" = Ok txs ->
      Forall (fun tx => year (tx_date tx) = year now) txs)
  /\ (forall institution statement_type txs,
        specific institution statement_type = false ->
        _extract_transactions now text institution statement_type = Ok txs ->
        Forall2 (fun x tx => yearless (grp x 1) = true ->
                             year (tx_date tx) = year now)
          (generic_matches text) txs).
Proof.
  intros Hy. split.
  - intros txs H. unfold _extract_transactions in H.
    cbn [String.eqb Ascii.eqb Bool.eqb andb] in H.
    apply for_each_ok in H.
    induction H as [|x tx l l' [_ Htx] _ IH]; constructor; [|exact IH].
    unfold chase_tx in Htx.
    destruct (strptime _ _) as [d|] eqn:Hd; [|discriminate].
    cbn [bind of_option] in Htx.
    destruct (float _); [|discriminate]. cbn [bind of_option] in Htx.
    injection Htx as <-. cbn [tx_date].
    apply (current_year_read now _ _ _ d Hy (or_introl eq_refl) Hd).
  - intros institution statement_type txs Hsp H.
    unfold specific in Hsp.
    apply orb_false_iff in Hsp. destruct Hsp as [Hsp H3].
    apply orb_false_iff in Hsp. destruct Hsp as [H1 H2].
    unfold _extract_transactions in H. rewrite H1, H2, H3 in H.
    injection H as <-. unfold generic_matches, date_patterns.
    cbn [flat_map]. rewrite !app_nil_r.
    apply Forall2_app; apply filter_map_all; intros x Hx.
    + destruct (written_amount (combined_pattern "(\d{1,2}/\d{1,2}(?:/\d{2,4})?)")
                  (transaction_section text) x) as (v & Hv & _); [in_list|exact Hx|].
      unfold generic_tx. rewrite Hv. eexists. split; [reflexivity|].
      cbn [tx_date]. apply (yearless_date now _ Hy).
    + destruct (written_amount (combined_pattern "(\d{1,2}-\d{1,2}(?:-\d{2,4})?)")
                  (transaction_section text) x) as (v & Hv & _); [in_list|exact Hx|].
      unfold generic_tx. rewrite Hv. eexists. split; [reflexivity|].
      cbn [tx_date]. apply (yearless_date now _ Hy).
Qed.

Lemma dates_in_current_year_witness :
  Forall (fun tx => year (tx_date tx) = 2026%Z)
    [mkTransaction (Datetime 2026 12 28 0 0 0 0) "COFFEE" (5 # 1) None None].
Proof.
  apply (proj1 (dates_in_current_year (Datetime 2026 1 3 10 20 30 0)
                  "Chase credit card 12/28 COFFEE $5.00" ltac:(cbn; lia))).
  vm_compute. reflexivity.
Defined.

Lemma contains_char_in (a : ascii) (l : list ascii) :
  In a l -> contains_char a l = true.
Proof.
  intros H. unfold contains_char. apply existsb_exists. exists a.
  split; [exact H|apply Ascii.eqb_refl].
Qed.

(** The text of a match holds the text of its last group. *)
Lemma last_group_in_match (fl : flags) (r : regex) (x : rmatch) (i : nat)
  (a : regex) :
  matched fl r x -> last_group r = Some (i, a) ->
  exists pre s1 c1 s' c2,
    den fl a (s1 ++ s') c1 s' c2 /\ m_text x = pre ++ s1.
Proof.
  intros (s & s' & Hd & Hs & _) Hl.
  destruct (den_last_group_suffix fl r i a Hl _ _ _ _ Hd)
    as (pre & s1 & c1 & c2 & Hs1 & Ha & _).
  destruct (den_prefix _ _ _ _ _ _ Ha) as (t & -> & _).
  exists pre, t, c1, s', c2. split; [exact Ha|].
  rewrite Hs1, app_assoc in Hs. apply app_inv_tail in Hs. symmetry. exact Hs.
Qed.

Lemma dollar_in_match (p text : string) (x : rmatch) :
  last_group (pat_re (re_compile (Flags false false) p))
  = Some (3%nat, Cat sign_opt (Cat (Chr "$") amount_tail)) ->
  In x (re_finditer p text) ->
  contains_char "$" (chars text) = true.
Proof.
  intros Hl Hin. unfold re_finditer, finditer in Hin.
  destruct (finditer_from_spec (pat_flags (re_compile (Flags false false) p))
              (pat_re (re_compile (Flags false false) p)) (chars text) 0 0)
    as [HF _].
  rewrite Forall_forall in HF. destruct (HF x Hin) as (Hm & (pre & post & Ht & _) & _).
  destruct (last_group_in_match _ _ x 3 _ Hm Hl) as (pre' & s1 & c1 & s' & c2 & Hd & Hx).
  destruct Hd as (sa & ca & Hsign & sb & cb & Hdollar & Htail).
  destruct Hdollar as (ch & Hsa & Hch & _).
  apply chr_exact in Hch; [|in_list]. subst ch.
  apply sign_opt_shape in Hsign. destruct Hsign as (_ & sg & Hsg & _).
  apply amount_tail_shape in Htail.
  destruct Htail as (_ & body & d1 & d2 & Hsb & _).
  assert (Hs1 : s1 = sg ++ "$"%char :: body ++ ["."%char; d1; d2]).
  { apply (app_inv_tail s'). rewrite Hsg, Hsa, Hsb.
    rewrite <- !app_assoc. cbn [app]. rewrite <- !app_assoc. reflexivity. }
  apply contains_char_in. rewrite Ht, Hx, Hs1.
  apply in_or_app. right. apply in_or_app. left. apply in_or_app. right.
  apply in_or_app. right. left. reflexivity.
Qed.

(** X15. The Chase, Bank of America and American Express strategies
    read only amounts written with a dollar sign: on a text whose
    transaction section has none they return no transaction, and do
    not raise. *)
Theorem dollar_sign_required (now : datetime)
  (text institution statement_type : string) :
  specific institution statement_type = true ->
  contains_char "$" (chars (transaction_section text)) = false ->
  _extract_transactions now text institution statement_type = Ok [].
Proof.
  intros Hsp Hno.
  assert (Hnil : forall p,
            last_group (pat_re (re_compile (Flags false false) p))
            = Some (3%nat, Cat sign_opt (Cat (Chr "$") amount_tail)) ->
            re_finditer p (transaction_section text) = []).
  { intros p Hl. destruct (re_finditer p (transaction_section text)) as [|x l] eqn:E;
      [reflexivity|].
    assert (Hin : In x (re_finditer p (transaction_section text)))
      by (rewrite E; left; reflexivity).
    rewrite (dollar_in_match p _ x Hl Hin) in Hno. discriminate. }
  unfold specific in Hsp. unfold _extract_transactions.
  destruct (_ && _); [rewrite (Hnil chase_tx_pattern); [reflexivity|vm_compute; reflexivity]|].
  destruct (_ && _); [rewrite (Hnil bofa_tx_pattern); [reflexivity|vm_compute; reflexivity]|].
  destruct (_ && _); [rewrite (Hnil amex_tx_pattern); [reflexivity|vm_compute; reflexivity]|].
  discriminate.
Qed.

Lemma dollar_sign_required_witness :
  _extract_transactions (Datetime 2026 11 3 10 20 30 0)
    "Bank of America checking 01/15/2023 COFFEE -5.00" "bofa" "bank"
  = Ok [].
Proof.
  apply (dollar_sign_required (Datetime 2026 11 3 10 20 30 0)
           "Bank of America checking 01/15/2023 COFFEE -5.00" "bofa" "bank").
  - reflexivity.
  - vm_compute. reflexivity.
Defined.

Lemma lstrip_head (l : list ascii) : starts_blank (lstrip l) = false.
Proof.
  induction l as [|a l IH]; [reflexivity|]. cbn [lstrip].
  destruct (is_space a) eqn:E; [exact IH|]. cbn [starts_blank]. exact E.
Qed.

Lemma lstrip_suffix (l : list ascii) : exists pre, l = pre ++ lstrip l.
Proof.
  induction l as [|a l IH]; [exists []; reflexivity|]. cbn [lstrip].
  destruct (is_space a).
  - destruct IH as (pre & IH). exists (a :: pre). cbn. rewrite <- IH. reflexivity.
  - exists []. reflexivity.
Qed.

Lemma strip_trimmed (l : list ascii) : trimmed (strip l) = true.
Proof.
  unfold trimmed, strip. rewrite rev_involutive, lstrip_head. cbn [negb andb].
  rewrite andb_true_r.
  destruct (lstrip_suffix (rev (lstrip l))) as (pre & Hpre).
  apply (f_equal (@rev ascii)) in Hpre. rewrite rev_involutive, rev_app_distr in Hpre.
  pose proof (lstrip_head l) as Hh. rewrite Hpre in Hh.
  destruct (rev (lstrip (rev (lstrip l)))) as [|a t]; [reflexivity|].
  cbn [app starts_blank] in Hh |- *. rewrite Hh. reflexivity.
Qed.

(** X16. Whatever the strategy, no description of a returned
    transaction starts or ends with white space. *)
Theorem descriptions_trimmed (now : datetime)
  (text institution statement_type : string) (txs : list Transaction) :
  _extract_transactions now text institution statement_type = Ok txs ->
  Forall (fun tx => trimmed (chars (tx_description tx)) = true) txs.
Proof.
  assert (Hs : forall l, trimmed (chars (str (strip l))) = true).
  { intros l. unfold chars, str. rewrite list_ascii_of_string_of_list_ascii.
    apply strip_trimmed. }
  assert (Hfe : forall (f : rmatch -> result Transaction) l l',
             (forall x tx, f x = Ok tx -> trimmed (chars (tx_description tx)) = true) ->
             for_each f l = Ok l' ->
             Forall (fun tx => trimmed (chars (tx_description tx)) = true) l').
  { intros f l l' Hf H. apply for_each_ok in H.
    induction H as [|x tx ? ? [_ Htx] _ IH]; constructor; [|exact IH].
    apply (Hf x tx Htx). }
  assert (Hfm : forall (f : rmatch -> option Transaction) l,
             (forall x tx, f x = Some tx -> trimmed (chars (tx_description tx)) = true) ->
             Forall (fun tx => trimmed (chars (tx_description tx)) = true)
               (filter_map f l)).
  { intros f l Hf. induction l as [|x l IH]; cbn [filter_map]; [constructor|].
    destruct (f x) as [tx|] eqn:E; [|exact IH].
    constructor; [apply (Hf x tx E)|exact IH]. }
  unfold _extract_transactions.
  destruct (_ && _).
  { apply Hfe. intros x tx Htx. unfold chase_tx in Htx.
    destruct (strptime _ _); [|discriminate]. cbn [bind of_option] in Htx.
    destruct (float _); [|discriminate]. cbn [bind of_option] in Htx.
    injection Htx as <-. apply Hs. }
  destruct (_ && _).
  { apply Hfe. intros x tx Htx. unfold bofa_tx in Htx.
    destruct (dated _); [|discriminate]. cbn [bind of_option] in Htx.
    destruct (float _); [|discriminate]. cbn [bind of_option] in Htx.
    injection Htx as <-. apply Hs. }
  destruct (_ && _).
  { apply Hfe. intros x tx Htx. unfold amex_tx in Htx.
    destruct (dated _); [|discriminate]. cbn [bind of_option] in Htx.
    destruct (amex_amount _); [|discriminate]. cbn [bind of_option] in Htx.
    injection Htx as <-. apply Hs. }
  intros H. injection H as <-. unfold date_patterns. cbn [flat_map].
  rewrite app_nil_r. apply Forall_app. split; apply Hfm; intros x tx Htx;
    unfold generic_tx in Htx; (destruct (float _); [|discriminate]);
    injection Htx as <-; apply Hs.
Qed.

Lemma descriptions_trimmed_witness :
  Forall (fun tx => trimmed (chars (tx_description tx)) = true)
    [mkTransaction (Datetime 2023 1 15 0 0 0 0) "COFFEE  SHOP" (-5 # 1) None
       (Some "dining")].
Proof.
  apply (descriptions_trimmed (Datetime 2026 11 3 10 20 30 0)
           "01/15/2023   COFFEE  SHOP   -$5.00" "unknown" "unknown").
  vm_compute. reflexivity.
Defined.

(** X17. When a period phrasing is found but its first date token is
    read by neither format, the period starts at the current time, and
    the scorer, which takes any start other than the first day of the
    current month for an extracted one, gives the period 0.9 on every
    day but the first of a month. *)
Theorem unparsed_period_start (now : datetime)
  (text institution statement_type : string) (x : rmatch) :
  first_search period_patterns text = Some x ->
  bad_date (grp x 1) ->
  day now <> 1%Z ->
  p_start (_extract_period now text institution statement_type) = now
  /\ forall ai b txs,
       dict_get
         (_calculate_confidence now ai
            (_extract_period now text institution statement_type) b txs)
         "period"
       = Some 0.9%float.
Proof.
  intros Hx [H1 H2] Hday.
  assert (Hs : p_start (_extract_period now text institution statement_type) = now).
  { unfold _extract_period. rewrite Hx. cbn [p_start]. unfold period_date.
    rewrite H1, H2. reflexivity. }
  split; [exact Hs|]. intros ai b txs. unfold _calculate_confidence. rewrite Hs.
  apply Z.eqb_neq in Hday. rewrite Hday, andb_false_r.
  destruct (0 <? length txs)%nat; reflexivity.
Qed.

Lemma unparsed_period_start_witness :
  p_start (_extract_period (Datetime 2026 11 3 10 20 30 0)
             "Statement Period: 13/45/2023 to 01/31/2023" "unknown" "unknown")
  = Datetime 2026 11 3 10 20 30 0
  /\ forall ai b txs,
       dict_get
         (_calculate_confidence (Datetime 2026 11 3 10 20 30 0) ai
            (_extract_period (Datetime 2026 11 3 10 20 30 0)
               "Statement Period: 13/45/2023 to 01/31/2023" "unknown" "unknown")
            b txs)
         "period"
       = Some 0.9%float.
Proof.
  apply (unparsed_period_start (Datetime 2026 11 3 10 20 30 0)
           "Statement Period: 13/45/2023 to 01/31/2023" "unknown" "unknown"
           (RMatch 0 42 (chars "Statement Period: 13/45/2023 to 01/31/2023")
              [(2%nat, chars "01/31/2023"); (1%nat, chars "13/45/2023")])).
  - vm_compute. reflexivity.
  - split; vm_compute; reflexivity.
  - cbn. discriminate.
Defined.

Lemma for_each_all {A B : Type} (f : A -> result B) (P : B -> Prop) :
  (forall a b, f a = Ok b -> P b) ->
  forall l l', for_each f l = Ok l' -> Forall P l'.
Proof.
  intros Hf l l' H. apply for_each_ok in H.
  induction H as [|a b ? ? [_ Hb] _ IH]; constructor; [|exact IH].
  apply (Hf a b Hb).
Qed.

Lemma filter_map_each {A B : Type} (f : A -> option B) (P : B -> Prop) :
  (forall a b, f a = Some b -> P b) ->
  forall l, Forall P (filter_map f l).
Proof.
  intros Hf l. induction l as [|a l IH]; cbn [filter_map]; [constructor|].
  destruct (f a) as [b|] eqn:E; [|exact IH].
  constructor; [apply (Hf a b E)|exact IH].
Qed.

(** X18. No strategy fills the running balance of a transaction.  The
    Chase, Bank of America and American Express strategies leave the
    category empty as well; the generic strategy sets it to what the
    categorizer answers on the stored description. *)
Theorem categories_only_generic (now : datetime)
  (text institution statement_type : string) (txs : list Transaction) :
  _extract_transactions now text institution statement_type = Ok txs ->
  Forall (fun tx => tx_balance tx = None) txs
  /\ (specific institution statement_type = true ->
      Forall (fun tx => tx_category tx = None) txs)
  /\ (specific institution statement_type = false ->
      Forall (fun tx =>
                tx_category tx = _categorize_transaction (tx_description tx)) txs).
Proof.
  unfold _extract_transactions, specific.
  assert (Hc : forall x tx, chase_tx now x = Ok tx ->
                 tx_balance tx = None /\ tx_category tx = None).
  { intros x tx Htx. unfold chase_tx in Htx.
    destruct (strptime _ _); [|discriminate]. cbn [bind of_option] in Htx.
    destruct (float _); [|discriminate]. cbn [bind of_option] in Htx.
    injection Htx as <-. auto. }
  assert (Hb : forall x tx, bofa_tx x = Ok tx ->
                 tx_balance tx = None /\ tx_category tx = None).
  { intros x tx Htx. unfold bofa_tx in Htx.
    destruct (dated _); [|discriminate]. cbn [bind of_option] in Htx.
    destruct (float _); [|discriminate]. cbn [bind of_option] in Htx.
    injection Htx as <-. auto. }
  assert (Ha : forall x tx, amex_tx x = Ok tx ->
                 tx_balance tx = None /\ tx_category tx = None).
  { intros x tx Htx. unfold amex_tx in Htx.
    destruct (dated _); [|discriminate]. cbn [bind of_option] in Htx.
    destruct (amex_amount _); [|discriminate]. cbn [bind of_option] in Htx.
    injection Htx as <-. auto. }
  assert (Hg : forall x tx, generic_tx now x = Some tx ->
                 tx_balance tx = None
                 /\ tx_category tx = _categorize_transaction (tx_description tx)).
  { intros x tx Htx. unfold generic_tx in Htx.
    destruct (float _); [|discriminate]. injection Htx as <-. auto. }
  destruct (_ && _).
  { intros H. split; [|split; [intros _|discriminate]];
      apply (for_each_all _ _ (fun x tx Htx => proj1 (Hc x tx Htx)) _ _ H)
      || apply (for_each_all _ _ (fun x tx Htx => proj2 (Hc x tx Htx)) _ _ H). }
  destruct (_ && _).
  { intros H. split; [|split; [intros _|discriminate]];
      apply (for_each_all _ _ (fun x tx Htx => proj1 (Hb x tx Htx)) _ _ H)
      || apply (for_each_all _ _ (fun x tx Htx => proj2 (Hb x tx Htx)) _ _ H). }
  destruct (_ && _).
  { intros H. split; [|split; [intros _|discriminate]];
      apply (for_each_all _ _ (fun x tx Htx => proj1 (Ha x tx Htx)) _ _ H)
      || apply (for_each_all _ _ (fun x tx Htx => proj2 (Ha x tx Htx)) _ _ H). }
  intros H. injection H as <-. unfold date_patterns. cbn [flat_map].
  rewrite app_nil_r. split; [|split; [discriminate|intros _]];
    apply Forall_app; split;
    apply (filter_map_each _ _ (fun x tx Htx => proj1 (Hg x tx Htx)))
    || apply (filter_map_each _ _ (fun x tx Htx => proj2 (Hg x tx Htx))).
Qed.

Lemma categories_only_generic_witness :
  Forall (fun tx => tx_balance tx = None)
    [mkTransaction (Datetime 2023 1 15 0 0 0 0) "COFFEE" (-5 # 1) None None]
  /\ (specific "bofa" "bank" = true ->
      Forall (fun tx => tx_category tx = None)
        [mkTransaction (Datetime 2023 1 15 0 0 0 0) "COFFEE" (-5 # 1) None None])
  /\ (specific "bofa" "bank" = false ->
      Forall (fun tx =>
                tx_category tx = _categorize_transaction (tx_description tx))
        [mkTransaction (Datetime 2023 1 15 0 0 0 0) "COFFEE" (-5 # 1) None None]).
Proof.
  apply (categories_only_generic (Datetime 2026 11 3 10 20 30 0)
           "Bank of America checking 01/15/2023 COFFEE -$5.00 12.00" "bofa" "bank").
  vm_compute. reflexivity.
Defined.

Lemma letter_or_space (fl : flags) (ch : ascii) :
  icase fl = true ->
  existsb (item_matches fl ch) [IRange "A" "Z"; ISpace] = true ->
  is_letter ch = true \/ is_space ch = true.
Proof.
  intros Hi. cbn [existsb item_matches]. unfold range_matches. rewrite Hi.
  rewrite orb_false_r. intros H. apply orb_true_iff in H.
  destruct H as [H|H]; [left|right; exact H].
  revert H. char_cases ch; vm_compute; intros H; first [reflexivity|discriminate].
Qed.

Lemma Forall_lstrip (P : ascii -> Prop) (l : list ascii) :
  Forall P l -> Forall P (lstrip l).
Proof.
  induction 1 as [|a l Ha Hl IH]; cbn [lstrip]; [constructor|].
  destruct (is_space a); [exact IH|constructor; assumption].
Qed.

Lemma Forall_strip (P : ascii -> Prop) (l : list ascii) :
  Forall P l -> Forall P (strip l).
Proof.
  intros H. unfold strip. apply Forall_rev, Forall_lstrip, Forall_rev, Forall_lstrip.
  exact H.
Qed.

Lemma name_group (p text : string) (x : rmatch) :
  In p name_patterns -> re_search p text = Some x ->
  Forall (fun ch => is_letter ch = true \/ is_space ch = true) (grp x 1).
Proof.
  intros Hp Hs. pose proof (search_matched p text x Hs) as Hm.
  assert (Hl : last_group (pat_re (re_compile (Flags false false) p))
               = Some (1%nat, name_expr)
               /\ icase (pat_flags (re_compile (Flags false false) p)) = true).
  { simpl in Hp. decompose [or] Hp; subst; try contradiction;
      split; vm_compute; reflexivity. }
  destruct Hl as [Hl Hi].
  destruct (matched_last_group Hm Hl) as (s1 & c1 & s' & c2 & Hd & ->).
  destruct Hd as (s2 & c3 & (n & _ & _ & Hit) & -> & _).
  apply iter_cls in Hit. destruct Hit as (_ & t & -> & _ & Ht).
  rewrite firstn_consumed.
  eapply Forall_impl; [|exact Ht]. intros ch Hch.
  apply (letter_or_space _ ch Hi Hch).
Qed.

(** X19. An extracted account-holder name holds no digit and no ASCII
    punctuation: each of its ASCII characters is one of the letters a
    to z and A to Z or white space; and the name neither starts nor
    ends with white space.  The name stops at the first digit or ASCII
    punctuation mark, a hyphen or an apostrophe included, and may run
    over line ends.  (Which characters above the ASCII range the class
    lets through under the flag is left open.) *)
Theorem account_name_shape (text institution statement_type : string) (name : string) :
  ai_name (_extract_account_info text institution statement_type) = Some name ->
  Forall (fun ch => (code ch < 128)%N ->
                    is_letter ch = true \/ is_space ch = true) (chars name)
  /\ trimmed (chars name) = true.
Proof.
  unfold _extract_account_info.
  destruct (_ || _); cbn [ai_name]; [|discriminate].
  destruct (first_search name_patterns text) as [x|] eqn:E; [|discriminate].
  intros H. injection H as <-.
  unfold chars, str. rewrite list_ascii_of_string_of_list_ascii.
  split; [|apply strip_trimmed].
  apply Forall_strip. apply first_search_some in E. destruct E as (p & Hp & Hs).
  eapply Forall_impl; [|apply (name_group p text x Hp Hs)].
  intros ch H _. exact H.
Qed.

Lemma account_name_shape_witness :
  Forall (fun ch => (code ch < 128)%N ->
                    is_letter ch = true \/ is_space ch = true) (chars "MARY")
  /\ trimmed (chars "MARY") = true.
Proof.
  apply (account_name_shape "Account Name: MARY-ANN O'BRIEN" "unknown" "bank" "MARY").
  vm_compute. reflexivity.
Defined.

End Extractors.

(** * The transaction section *)

Module SectionFacts.

Import Py Re Lib Parser ReFacts ParserFacts Notions ReComplete Binary64.

Local Open Scope string_scope.
Local Open Scope list_scope.
Local Unset Implicit Arguments.

Section Lazy.

Variable fl : flags.
Hypothesis Hdot : dotall fl = true.

(** A lazy loop over any character stops at the first offset at which
    what follows it succeeds. *)
Lemma lazy_any_rep (R : Type)
  (step : list ascii -> caps -> (list ascii -> caps -> option R) -> option R)
  (K : list ascii -> caps -> option R) (x : R) :
  (forall s c k, step s c k = match s with [] => None | _ :: s' => k s' c end) ->
  forall fuel i s c,
    rep step K false 0 fuel i s c = Some x ->
    exists body rest,
      s = body ++ rest /\ K rest c = Some x
      /\ forall j, (j < length body)%nat -> K (skipn j s) c = None.
Proof.
  intros Hstep.
  induction fuel as [|fuel IH]; intros i s c H; cbn [rep Nat.leb] in H.
  - exists [], s. cbn. split; [reflexivity|]. split; [exact H|]. intros j Hj. lia.
  - destruct (K s c) as [y|] eqn:E.
    + injection H as ->. exists [], s. cbn. split; [reflexivity|].
      split; [exact E|]. intros j Hj. lia.
    + rewrite Hstep in H. destruct s as [|ch s]; [discriminate|].
      replace (length s <? length (ch :: s))%nat with true in H
        by (symmetry; apply Nat.ltb_lt; cbn; lia).
      destruct (IH _ _ _ H) as (body & rest & -> & Hk & Hnone).
      exists (ch :: body), rest. split; [reflexivity|]. split; [exact Hk|].
      intros [|j] Hj; [exact E|]. cbn [skipn]. apply Hnone. cbn in Hj. lia.
Qed.

Lemma lazy_dot_rep (R : Type) (K : list ascii -> caps -> option R) (x : R) :
  forall fuel i s c,
    rep (m fl Dot (R := R)) K false 0 fuel i s c = Some x ->
    exists body rest,
      s = body ++ rest /\ K rest c = Some x
      /\ forall j, (j < length body)%nat -> K (skipn j s) c = None.
Proof.
  apply lazy_any_rep. intros s c k. cbn [m]. rewrite Hdot. reflexivity.
Qed.

Lemma tail_cases (r1 r2 a : regex) :
  lazy_tail (Cat r1 r2) = Some a ->
  (r1 = Rep false 0 None Dot /\ r2 = Cat (Ahead a) Eps)
  \/ (lazy_tail r2 = Some a
      /\ before_tail (Cat r1 r2) = Cat r1 (before_tail r2)).
Proof.
  intros H.
  destruct r1 as [ | | | | | | | | g lo hi r | ]; try (right; split; [exact H|reflexivity]).
  destruct g; try (right; split; [exact H|reflexivity]).
  destruct lo; try (right; split; [exact H|reflexivity]).
  destruct hi; try (right; split; [exact H|reflexivity]).
  destruct r; try (right; split; [exact H|reflexivity]).
  destruct r2 as [ | | | | | r3 r4 | | | | ]; try (right; split; [exact H|reflexivity]).
  destruct r3; try (right; split; [exact H|reflexivity]).
  destruct r4; try (right; split; [exact H|reflexivity]).
  cbn in H. injection H as ->. left. split; reflexivity.
Qed.

Lemma m_lazy_tail (r : regex) :
  forall a, lazy_tail r = Some a ->
  forall (R : Type) (k : list ascii -> caps -> option R) s c x,
    (forall s0 c0, k s0 c0 <> None) ->
    m fl r s c k = Some x ->
    exists s1 c1 body rest c2,
      den fl (before_tail r) s c s1 c1 /\ s1 = body ++ rest
      /\ m fl a rest c1 (fun _ c' => Some c') = Some c2
      /\ k rest c2 = Some x
      /\ forall j, (j < length body)%nat ->
           m fl a (skipn j s1) c1 (fun _ c' => Some c') = None.
Proof.
  induction r as [ | ch | | items | | r1 IH1 r2 IH2 | r1 IH1 r2 IH2
                 | j r IH | g lo hi r IH | r IH ];
    intros a Hl R k s c x Hk H; try discriminate.
  destruct (tail_cases _ _ _ Hl) as [[-> ->]|[Hl2 Hb]].
  - cbn [before_tail]. cbn [m] in H.
    apply lazy_dot_rep in H. destruct H as (body & rest & -> & Hrest & Hnone).
    destruct (m fl a rest c (fun _ c' => Some c')) as [c2|] eqn:E; [|discriminate].
    exists (body ++ rest), c, body, rest, c2. cbn [den].
    repeat split; auto.
    intros j Hj. specialize (Hnone j Hj).
    destruct (m fl a (skipn j (body ++ rest)) c (fun _ c' => Some c')) as [c3|];
      [|reflexivity].
    exfalso. apply (Hk _ _ Hnone).
  - rewrite Hb. cbn [m] in H. apply m_sound in H.
    destruct H as (s0 & c0 & Hd & H).
    destruct (IH2 a Hl2 R k s0 c0 x Hk H)
      as (s1 & c1 & body & rest & c2 & Hd2 & Hs1 & Ha & Hkr & Hnone).
    exists s1, c1, body, rest, c2. split; [|auto].
    cbn [den]. exists s0, c0. auto.
Qed.

Lemma any_run (s : list ascii) (c : caps) :
  iter (den fl Dot) (length s) s c [] c.
Proof.
  induction s as [|ch s IH]; cbn [length iter]; [auto|].
  exists s, c. split; [|exact IH]. exists ch. rewrite Hdot. auto.
Qed.

(** A match of the sequence before the lazy tail extends to a match of
    the whole that runs to the end of the text, when the lookahead holds
    there. *)
Lemma den_tail (r : regex) :
  forall a, lazy_tail r = Some a ->
  forall s c s1 c1 s2 c2,
    den fl (before_tail r) s c s1 c1 ->
    den fl a [] c1 s2 c2 ->
    den fl r s c [] c2.
Proof.
  induction r as [ | ch | | items | | r1 IH1 r2 IH2 | r1 IH1 r2 IH2
                 | j r IH | g lo hi r IH | r IH ];
    intros a Hl s c s1 c1 s2 c2 Hd Ha; try discriminate.
  destruct (tail_cases _ _ _ Hl) as [[-> ->]|[Hl2 Hb]].
  - cbn [before_tail den] in Hd. destruct Hd as [-> ->].
    cbn [den]. exists [], c. split.
    + exists (length s). split; [lia|]. split; [exact I|]. apply any_run.
    + exists [], c2. split; [exists s2; auto|auto].
  - rewrite Hb in Hd. cbn [den] in Hd. destruct Hd as (s0 & c0 & Hd1 & Hd2).
    cbn [den]. exists s0, c0. split; [exact Hd1|].
    apply (IH2 a Hl2 _ _ _ _ _ _ Hd2 Ha).
Qed.

Lemma here_lazy_tail (r a : regex) :
  lazy_tail r = Some a ->
  forall s pos x,
    match_here fl false r pos s = Some x ->
    exists hdr body rest c1 c2,
      s = hdr ++ body ++ rest
      /\ m_text x = hdr ++ body
      /\ den fl (before_tail r) (hdr ++ body ++ rest) [] (body ++ rest) c1
      /\ m fl a rest c1 (fun _ c' => Some c') = Some c2
      /\ forall j, (j < length body)%nat ->
           m fl a (skipn j (body ++ rest)) c1 (fun _ c' => Some c') = None.
Proof.
  intros Hl s pos x H. unfold match_here in H.
  apply (m_lazy_tail r a Hl) in H; [|intros s0 c0; cbn; discriminate].
  destruct H as (s1 & c1 & body & rest & c2 & Hd & -> & Ha & Hk & Hnone).
  destruct (den_prefix _ _ _ _ _ _ Hd) as (hdr & -> & _).
  exists hdr, body, rest, c1, c2. split; [reflexivity|].
  split; [|auto]. cbn in Hk. injection Hk as <-. cbn [m_text].
  rewrite (app_assoc hdr body rest). apply firstn_consumed.
Qed.

(** [re.search] returns a match at the leftmost offset that has one. *)
Lemma search_leftmost (r : regex) :
  forall s pos x,
    search_from fl r pos s = Some x ->
    exists pre suf,
      s = pre ++ suf
      /\ match_here fl false r (pos + length pre) suf = Some x
      /\ forall j, (j < length pre)%nat ->
           match_here fl false r (pos + j) (skipn j s) = None.
Proof.
  induction s as [|ch s IH]; intros pos x H; cbn [search_from] in H.
  - destruct (match_here fl false r pos []) eqn:E; [|discriminate].
    injection H as ->. exists [], []. cbn [length app]. rewrite Nat.add_0_r.
    split; [reflexivity|]. split; [exact E|]. intros j Hj. lia.
  - destruct (match_here fl false r pos (ch :: s)) eqn:E.
    + injection H as ->. exists [], (ch :: s). cbn [length app]. rewrite Nat.add_0_r.
      split; [reflexivity|]. split; [exact E|]. intros j Hj. lia.
    + destruct (IH _ _ H) as (pre & suf & -> & Hx & Hnone).
      exists (ch :: pre), suf. split; [reflexivity|]. cbn [length].
      rewrite <- Nat.add_succ_comm. split; [exact Hx|].
      intros [|j] Hj; [rewrite Nat.add_0_r; exact E|].
      cbn [skipn]. rewrite <- Nat.add_succ_comm. apply Hnone. cbn in Hj. lia.
Qed.

Lemma here_complete (r : regex) (s : list ascii) (pos : nat)
  (s' : list ascii) (c' : caps) :
  wf r = true -> den fl r s [] s' c' -> match_here fl false r pos s <> None.
Proof.
  intros Hwf Hd. unfold match_here.
  apply (m_complete fl r Hwf _ _ s [] s' c' Hd).
  - intros s0 ca cb. cbn. split; intros; discriminate.
  - cbn. discriminate.
Qed.

End Lazy.

Section StopWords.

Variable fl : flags.
Hypothesis Hi : icase fl = true.

Lemma den_lit (w : list ascii) :
  forall s c s' c',
    den fl (lit w) s c s' c'
    <-> (exists t, s = t ++ s' /\ map lower t = map lower w) /\ c' = c.
Proof.
  induction w as [|a w IH]; intros s c s' c'; cbn [lit den].
  - split.
    + intros [-> ->]. split; [exists []; auto|reflexivity].
    + intros [(t & -> & Ht) ->]. destruct t; [auto|discriminate].
  - split.
    + intros (s1 & c1 & (ch & -> & Hch & ->) & H). apply IH in H.
      destruct H as [(t & -> & Ht) ->]. split; [|reflexivity].
      exists (ch :: t). split; [reflexivity|]. cbn [map]. rewrite Ht. f_equal.
      unfold chr_matches in Hch. rewrite Hi in Hch. apply Ascii.eqb_eq in Hch. auto.
    + intros [(t & -> & Ht) ->]. destruct t as [|ch t]; [discriminate|].
      cbn [map] in Ht. injection Ht as Hch Ht.
      exists (t ++ s'), c. split.
      * exists ch. repeat split. unfold chr_matches. rewrite Hi, Hch.
        apply Ascii.eqb_refl.
      * apply IH. split; [exists t; auto|reflexivity].
Qed.

Lemma is_prefix_app (p l : list ascii) :
  is_prefix p l = true <-> exists post, l = p ++ post.
Proof.
  split.
  - revert l. induction p as [|a p IH]; intros l H; cbn [is_prefix] in H.
    + exists l. reflexivity.
    + destruct l as [|b l]; [discriminate|].
      apply andb_true_iff in H. destruct H as [E H]. apply Ascii.eqb_eq in E.
      subst b. destruct (IH _ H) as (post & ->). exists post. reflexivity.
  - intros (post & ->). induction p as [|a p IH]; [reflexivity|].
    cbn [app is_prefix]. rewrite Ascii.eqb_refl. exact IH.
Qed.

Lemma lit_prefix (W : list ascii) (s : list ascii) (c : caps) :
  (exists s' c', den fl (lit W) s c s' c')
  <-> is_prefix (map lower W) (map lower s) = true.
Proof.
  rewrite is_prefix_app. split.
  - intros (s' & c' & H). apply den_lit in H. destruct H as [(t & -> & Ht) _].
    exists (map lower s'). rewrite map_app, Ht. reflexivity.
  - intros (post & H).
    exists (skipn (length W) s), c. apply den_lit. split; [|reflexivity].
    exists (firstn (length W) s). split; [symmetry; apply firstn_skipn|].
    rewrite <- firstn_map, H.
    replace (length W) with (length (map lower W) + 0)%nat
      by (rewrite length_map; lia).
    rewrite firstn_app_2. cbn. apply app_nil_r.
Qed.

Lemma stop_den (s : list ascii) (c : caps) :
  stops_here s = true -> exists s' c', den fl section_stop s c s' c'.
Proof.
  unfold stops_here, stop_words. cbn [existsb]. rewrite orb_false_r.
  intros H. unfold section_stop. cbn [den].
  assert (Hw : forall W, is_prefix (map lower W) (map lower s) = true ->
                 exists s' c', den fl (lit W) s c s' c').
  { intros W HW. apply (proj2 (lit_prefix W s c) HW). }
  apply orb_true_iff in H. destruct H as [H|H];
    [destruct (Hw (chars "SUMMARY") H) as (s' & c' & Hd); exists s', c'; tauto|].
  apply orb_true_iff in H. destruct H as [H|H];
    [destruct (Hw (chars "TOTAL") H) as (s' & c' & Hd); exists s', c'; tauto|].
  apply orb_true_iff in H. destruct H as [H|H];
    [destruct (Hw (chars "BALANCE") H) as (s' & c' & Hd); exists s', c'; tauto|].
  apply orb_true_iff in H. destruct H as [H|H];
    [destruct (Hw (chars "STATEMENT") H) as (s' & c' & Hd); exists s', c'; tauto|].
  destruct (Hw (chars "INFORMATION") H) as (s' & c' & Hd). exists s', c'. tauto.
Qed.

Lemma den_stop (s : list ascii) (c : caps) (s' : list ascii) (c' : caps) :
  den fl section_stop s c s' c' ->
  stops_here s = true \/ s = [] \/ s = [newline].
Proof.
  unfold section_stop. cbn [den].
  assert (Hw : forall W, den fl (lit W) s c s' c' ->
                 is_prefix (map lower W) (map lower s) = true).
  { intros W H. apply (proj1 (lit_prefix W s c)). eauto. }
  unfold stops_here, stop_words. cbn [existsb].
  intros [H|[H|[H|[H|[H|H]]]]]; try (apply Hw in H; left).
  - change (chars "summary") with (map lower (chars "SUMMARY")). rewrite H. reflexivity.
  - change (chars "total") with (map lower (chars "TOTAL")). rewrite H.
    rewrite !orb_true_r. reflexivity.
  - change (chars "balance") with (map lower (chars "BALANCE")). rewrite H.
    rewrite !orb_true_r. reflexivity.
  - change (chars "statement") with (map lower (chars "STATEMENT")). rewrite H.
    rewrite !orb_true_r. reflexivity.
  - change (chars "information") with (map lower (chars "INFORMATION")). rewrite H.
    rewrite !orb_true_r. reflexivity.
  - right. destruct H as (s1 & c1 & (Hs & _ & _) & _). exact Hs.
Qed.

End StopWords.

Lemma section_stop_wf : wf section_stop = true.
Proof. reflexivity. Qed.

Lemma header_tails :
  Forall (fun h =>
            let p := re_compile DOTALL_IGNORECASE (h ++ section_tail) in
            let q := re_compile DOTALL_IGNORECASE h in
            pat_flags p = Flags true true
            /\ lazy_tail (pat_re p) = Some section_stop
            /\ before_tail (pat_re p) = pat_re q
            /\ pat_flags q = Flags true true
            /\ wf (pat_re p) = true /\ wf (pat_re q) = true)
    transaction_headers.
Proof.
  repeat constructor; vm_compute; reflexivity.
Qed.

Lemma stop_at_end (fl : flags) (c : caps) : den fl section_stop [] c [] c.
Proof.
  unfold section_stop. cbn [den]. do 5 right. exists [], c. auto.
Qed.

(** A header is found exactly when it is found with the section tail
    after it: the tail can always run to the end of the text. *)
Lemma header_found (h text : string) :
  let p := re_compile DOTALL_IGNORECASE (h ++ section_tail) in
  let q := re_compile DOTALL_IGNORECASE h in
  pat_flags p = Flags true true
  /\ lazy_tail (pat_re p) = Some section_stop
  /\ before_tail (pat_re p) = pat_re q
  /\ pat_flags q = Flags true true
  /\ wf (pat_re p) = true /\ wf (pat_re q) = true ->
  re_search_flags DOTALL_IGNORECASE (h ++ section_tail)%string text = None ->
  is_some (re_search_flags DOTALL_IGNORECASE h text) = false.
Proof.
  cbv zeta. intros (Hf & Hl & Hb & Hf' & Hw & Hw') Hnone.
  destruct (re_search_flags DOTALL_IGNORECASE h text) as [x|] eqn:E; [|reflexivity].
  exfalso. unfold re_search_flags, search in E, Hnone. rewrite Hf' in E.
  rewrite Hf in Hnone.
  apply search_occurs in E. destruct E as (pre & suf & s' & c' & Hs & Hd).
  rewrite <- Hb in Hd.
  pose proof (den_tail (Flags true true) eq_refl _ _ Hl _ _ _ _ _ _ Hd
                (stop_at_end _ c')) as Hall.
  apply (occurs_search (Flags true true) _ (chars text) Hw) with (pos := 0%nat);
    [|exact Hnone].
  exists pre, suf, [], c'. auto.
Qed.

(** X20. Where the transactions are looked for.  When no header
    expression occurs in the text, the section is the whole text.
    Otherwise it belongs to the first header of the list that occurs:
    it starts at the leftmost offset at which this header matches, and
    runs from the header up to, and without, the first of the words
    SUMMARY, TOTAL, BALANCE, STATEMENT and INFORMATION that follows it,
    in any letter case and also inside a longer word, or up to the end
    of the text.  What comes after that word is not searched for
    transactions. *)
Theorem section_ends_at_stop_word (text : string) :
  (transaction_section text = text
   /\ Forall (fun h => is_some (re_search_flags DOTALL_IGNORECASE h text) = false)
        transaction_headers)
  \/ exists earlier h later pre hdr body post,
       transaction_headers = earlier ++ h :: later
       /\ Forall (fun h' => is_some (re_search_flags DOTALL_IGNORECASE h' text) = false)
            earlier
       /\ chars text = pre ++ hdr ++ body ++ post
       /\ chars (transaction_section text) = hdr ++ body
       /\ consumes DOTALL_IGNORECASE h hdr (body ++ post)
       /\ (forall j t rest,
             (j < length pre)%nat -> skipn j (chars text) = t ++ rest ->
             ~ consumes DOTALL_IGNORECASE h t rest)
       /\ (forall j, (j < length body)%nat ->
             stops_here (skipn j (body ++ post)) = false)
       /\ (stops_here post = true \/ post = [] \/ post = [newline]).
Proof.
  unfold transaction_section. pose proof header_tails as Ht.
  induction transaction_headers as [|h hs IH]; cbn [find_section].
  - left. split; [reflexivity|constructor].
  - inversion Ht as [|? ? Hh Hhs]; subst.
    destruct (re_search_flags DOTALL_IGNORECASE (h ++ section_tail)%string text)
      as [x|] eqn:E.
    + right. cbv zeta in Hh. destruct Hh as (Hf & Hl & Hb & Hf' & Hw & Hw').
      unfold re_search_flags, search in E. rewrite Hf in E.
      apply search_leftmost in E. destruct E as (pre & suf & Hs & Hx & Hleft).
      apply (here_lazy_tail (Flags true true) eq_refl _ _ Hl) in Hx.
      destruct Hx as (hdr & body & rest & c1 & c2 & -> & Hx & Hd & Ha & Hnone).
      exists [], h, hs, pre, hdr, body, rest. split; [reflexivity|].
      split; [constructor|]. split; [exact Hs|]. split.
      { unfold chars at 1, str. rewrite list_ascii_of_string_of_list_ascii. exact Hx. }
      split.
      { unfold consumes. rewrite Hf', <- Hb. exists c1. exact Hd. }
      split; [|split].
      * intros j t rest' Hj Hsk (c' & Hc). rewrite Hf', <- Hb in Hc.
        pose proof (den_tail (Flags true true) eq_refl _ _ Hl _ _ _ _ _ _ Hc
                      (stop_at_end _ c')) as Hall.
        apply (here_complete (Flags true true) _ _ (0 + j) _ _ Hw) in Hall.
        apply Hall. rewrite <- Hsk. apply Hleft. exact Hj.
      * intros j Hj. specialize (Hnone j Hj).
        destruct (stops_here (skipn j (body ++ rest))) eqn:Es; [|reflexivity].
        exfalso. destruct (stop_den (Flags true true) eq_refl _ c1 Es) as (s' & c' & Hden).
        apply (m_complete (Flags true true) section_stop section_stop_wf _ _ _ _ _ _ Hden)
          in Hnone; [exact Hnone| |discriminate].
        intros s0 ca cb. split; intros; discriminate.
      * apply m_sound in Ha. destruct Ha as (s' & c' & Hden & _).
        apply (den_stop (Flags true true) eq_refl _ _ _ _ Hden).
    + pose proof (header_found h text Hh E) as Hnf.
      destruct (IH Hhs) as [[Hsec Hall]
                           |(earlier & h' & later & pre & hdr & body & post & Heq & Hearlier & Hrest)].
      * left. split; [exact Hsec|]. constructor; assumption.
      * right. exists (h :: earlier), h', later, pre, hdr, body, post.
        split; [cbn [app]; rewrite Heq; reflexivity|].
        split; [constructor; assumption|exact Hrest].
Qed.

End SectionFacts.

(** * Properties of the file interface *)

Module FilesFacts.

Import Py Re Lib Parser ReFacts ParserFacts Notions Files Binary64.

Local Open Scope string_scope.
Local Open Scope list_scope.
Local Unset Implicit Arguments.

Lemma read_pages_app (texts : list string) (more : list (option string)) :
  forall page_num text,
    read_pages (map Some texts ++ more) page_num text
    = read_pages more (page_num + length texts)
        (fst (read_pages (map Some texts) page_num text)).
Proof.
  induction texts as [|t texts IH]; intros page_num text; cbn [map app length].
  - rewrite Nat.add_0_r. reflexivity.
  - cbn [read_pages]. rewrite IH. f_equal. lia.
Qed.

Lemma read_pages_all (texts : list string) :
  forall page_num text, snd (read_pages (map Some texts) page_num text) = false.
Proof.
  induction texts as [|t texts IH]; intros page_num text; cbn [map read_pages];
    [reflexivity|apply IH].
Qed.

(** X21. A page whose extraction raises hides itself and every page
    after it: when some text was read before it, the text handed over
    is the one of the document cut before the failing page. *)
Theorem failing_page_truncates (texts : list string) (rest : list (option string)) :
  _extract_text (Some (map Some texts)) <> "" ->
  _extract_text (Some (map Some texts ++ None :: rest))
  = _extract_text (Some (map Some texts)).
Proof.
  unfold _extract_text. rewrite read_pages_app. cbn [read_pages].
  pose proof (read_pages_all texts 0 "") as Hall.
  destruct (read_pages (map Some texts) 0 "") as [text raised].
  cbn [fst snd] in *. subst raised. cbn [andb].
  intros Hne. destruct (String.eqb_spec text ""); [contradiction|reflexivity].
Qed.

Lemma failing_page_truncates_witness :
  _extract_text (Some (map Some ["Chase"; "credit card"] ++ [None; Some "more"]))
  = _extract_text (Some (map Some ["Chase"; "credit card"])).
Proof.
  apply (failing_page_truncates ["Chase"; "credit card"] [Some "more"]).
  vm_compute. discriminate.
Defined.

Lemma parse_unread (now today : datetime) :
  Parser.parse now today extraction_failed
  = Ok (mkStatementResult
          (mkAccountInfo "Unknown" None (Some "unknown") (Some "unknown"))
          (default_period now) (mkBalance 0 None) []
          (_calculate_confidence today
             (mkAccountInfo "Unknown" None (Some "unknown") (Some "unknown"))
             (default_period now) (mkBalance 0 None) [])).
Proof.
  assert (Hi : _detect_institution extraction_failed = "unknown")
    by (vm_compute; reflexivity).
  assert (Ht : _detect_statement_type extraction_failed = "unknown")
    by (vm_compute; reflexivity).
  assert (Hb : _extract_balance extraction_failed "unknown" "unknown"
               = Ok (mkBalance 0 None)) by (vm_compute; reflexivity).
  assert (Hx : _extract_transactions now extraction_failed "unknown" "unknown"
               = Ok []) by (vm_compute; reflexivity).
  assert (Hp : _extract_period now extraction_failed "unknown" "unknown"
               = default_period now) by (vm_compute; reflexivity).
  unfold Parser.parse. rewrite Hi, Ht, Hb, Hx, Hp. reflexivity.
Qed.

Lemma unreadable_text (f : pdf) :
  unreadable f = true -> _extract_text f = extraction_failed.
Proof.
  destruct f as [[|[t|] [|[t'|] rest]]|]; cbn [unreadable]; intros H;
    try discriminate; try reflexivity.
  apply String.eqb_eq in H. subst t. reflexivity.
Qed.

(** X22. A file of which nothing can be read is not an error: [parse]
    returns a result with institution and statement type "unknown",
    account number "Unknown", the default period, closing balance 0.0
    and no transaction.  Its scores are 0.3, 0.5 and 0.1 for the
    account, the balance and the transactions.  When the scorer reads
    the clock in the month and year in which the period was set, the
    period scores 0.3 and the overall score is 0.30000000000000004, the
    binary64 result of (0.3 + 0.3 + 0.5 + 0.1) / 4; when the month or
    the year has changed in between, the period scores 0.9 and the
    overall score is 0.45. *)
Theorem unreadable_file_defaults (now today : datetime) (f : pdf) :
  unreadable f = true ->
  exists r,
    parse_file now today f = Ok r
    /\ sr_account_info r
       = mkAccountInfo "Unknown" None (Some "unknown") (Some "unknown")
    /\ sr_period r = default_period now
    /\ sr_balance r = mkBalance 0 None
    /\ sr_transactions r = []
    /\ sr_confidence r
       = if (year now =? year today)%Z && (month now =? month today)%Z
         then [ ("account_info", 0.3%float); ("period", 0.3%float);
                ("balance", 0.5%float); ("transactions", 0.1%float);
                ("overall", 0.30000000000000004%float) ]
         else [ ("account_info", 0.3%float); ("period", 0.9%float);
                ("balance", 0.5%float); ("transactions", 0.1%float);
                ("overall", 0.45%float) ].
Proof.
  intros H. unfold parse_file. rewrite (unreadable_text f H), parse_unread. eexists.
  split; [reflexivity|]. cbn [sr_account_info sr_period sr_balance sr_transactions
                              sr_confidence].
  repeat (split; [reflexivity|]).
  rewrite calculated. unfold default_period.
  cbn [p_start year month day b_opening length ai_number].
  rewrite Z.eqb_refl, andb_true_r.
  destruct ((year now =? year today)%Z && (month now =? month today)%Z);
    vm_compute; reflexivity.
Qed.

Lemma unreadable_file_defaults_witness :
  exists r,
    parse_file (Datetime 2026 10 31 23 59 59 0) (Datetime 2026 11 1 0 0 1 0)
      (Some [None; Some "Chase"]) = Ok r
    /\ sr_account_info r
       = mkAccountInfo "Unknown" None (Some "unknown") (Some "unknown")
    /\ sr_period r = default_period (Datetime 2026 10 31 23 59 59 0)
    /\ sr_balance r = mkBalance 0 None
    /\ sr_transactions r = []
    /\ sr_confidence r
       = [ ("account_info", 0.3%float); ("period", 0.9%float);
           ("balance", 0.5%float); ("transactions", 0.1%float);
           ("overall", 0.45%float) ].
Proof.
  apply (unreadable_file_defaults (Datetime 2026 10 31 23 59 59 0)
           (Datetime 2026 11 1 0 0 1 0) (Some [None; Some "Chase"])).
  reflexivity.
Defined.











End FilesFacts.
